(** * Receipt normalisation and persistence: [ReceiptDatabase] (src/database.py)

    A shallow embedding of the field parsers ([parse_date], [parse_quantity],
    [parse_price]), of the get-or-create resolvers ([insert_or_get_merchant],
    [insert_or_get_product]) and of the transactional ingestion
    ([insert_receipt]), together with the properties stated about them;
    then of what feeds it: the mapping of the analysis result to the raw
    receipt ([process_receipt], [process_receipts_batch] of
    src/azure_ocr.py) and the loop of [main] over the files (src/main.py).

    Conventions of the embedding.
    - A Python [str] is a Rocq [string], one [ascii] per character: the
      strings whose code points are below 256.  On that range the regular
      expression class [\d] is exactly [0-9].
    - A Python [float] is an IEEE 754 binary64 value, [spec_float] of the
      standard library with [prec = 53] and [emax = 1024].
    - A call that may raise returns [exc A]: [Ret a] or [Raise e].
    - The store is a relational engine with one connection, as PostgreSQL
      is behind psycopg2: the connection sees its own uncommitted rows; a
      statement that the server answers with an error leaves the tables as
      they were and the transaction in the failed state; [commit] publishes
      the rows of the transaction, or discards them when the transaction is
      in the failed state, and returns in both cases; [rollback] discards
      them.  Whether a call raises is decided by an arbitrary function
      [fails] of the statement and of the time at which it is issued, for
      the commit and the rollback as for any statement; a statement that
      raises and has a text parameter with a NUL character raises
      [ValueError] in the driver, before anything is sent.  The server
      answers every statement of a failed transaction with an error, and the
      driver raises for every text with a NUL: the functions [fails] that
      describe them raise in these cases.  Nothing is assumed of [fails]
      unless it is stated, so that what holds for every [fails] holds for
      these.  Generated ids come from per-table counters that a rollback
      does not rewind. *)

From Stdlib Require Import ZArith List String Ascii Bool Lia SpecFloat.
Import ListNotations.
Open Scope string_scope.
Open Scope Z_scope.

(** ** Python values, truth and exceptions *)

Module Py.

Inductive exn :=
| ValueError
| AttributeError
| TypeError
| DatabaseError.   (* psycopg2.Error *)

Inductive exc (A : Type) :=
| Ret (a : A)
| Raise (e : exn).
Arguments Ret {A} a.
Arguments Raise {A} e.

Definition bind {A B} (m : exc A) (k : A -> exc B) : exc B :=
  match m with
  | Ret a => k a
  | Raise e => Raise e
  end.

(** What the parsers can be handed: [None], a [str], or any other object,
    of which only its truth value and its [str()] rendering are observed. *)
Inductive value :=
| PyNone
| PyStr (s : string)
| PyObj (truth : bool) (repr : string).

Definition nonempty (s : string) : bool :=
  match s with
  | EmptyString => false
  | String _ _ => true
  end.

(** [bool(v)] *)
Definition truthy (v : value) : bool :=
  match v with
  | PyNone => false
  | PyStr s => nonempty s
  | PyObj t _ => t
  end.

(** [str(v)] *)
Definition str (v : value) : string :=
  match v with
  | PyNone => "None"
  | PyStr s => s
  | PyObj _ r => r
  end.

(** [dict.get(key)]: the entry, or [None]. *)
Definition get (field : option string) : value :=
  match field with
  | Some s => PyStr s
  | None => PyNone
  end.

Definition isdigit (c : ascii) : bool :=
  let n := N_of_ascii c in (48 <=? n)%N && (n <=? 57)%N.

(** [str.isspace] on one character, code points below 256. *)
Definition isspace (c : ascii) : bool :=
  let n := N_of_ascii c in
  ((9 <=? n)%N && (n <=? 13)%N) || ((28 <=? n)%N && (n <=? 32)%N)
  || (n =? 133)%N || (n =? 160)%N.

Fixpoint lstrip (s : string) : string :=
  match s with
  | EmptyString => EmptyString
  | String c s' => if isspace c then lstrip s' else s
  end.

Fixpoint rstrip (s : string) : string :=
  match s with
  | EmptyString => EmptyString
  | String c s' =>
      match rstrip s' with
      | EmptyString => if isspace c then EmptyString else String c EmptyString
      | r => String c r
      end
  end.

(** [v.strip()]: only a [str] has the method. *)
Definition strip (v : value) : exc string :=
  match v with
  | PyStr s => Ret (rstrip (lstrip s))
  | _ => Raise AttributeError
  end.

Definition digit_value (c : ascii) : Z := Z.of_N (N_of_ascii c) - 48.

(** [int(s)] on text made of an optional leading blank and digits. *)
Fixpoint int_digits (acc : Z) (s : string) : Z :=
  match s with
  | EmptyString => acc
  | String c s' => int_digits (10 * acc + digit_value c) s'
  end.

Definition int (s : string) : Z := int_digits 0 (lstrip s).

(** [s.replace(old, new)] for a non-empty [old]: every occurrence, from the
    left, none overlapping; [skip] counts the characters of the occurrence
    just replaced that are still to pass. *)
Fixpoint replace_from (old new : string) (skip : nat) (s : string) : string :=
  match s with
  | EmptyString => EmptyString
  | String c s' =>
      match skip with
      | S k => replace_from old new k s'
      | O =>
          if String.prefix old s
          then new ++ replace_from old new (String.length old - 1) s'
          else String c (replace_from old new 0 s')
      end
  end.

Definition replace (old new s : string) : string := replace_from old new 0 s.

End Py.
Import Py.

Declare Scope exc_scope.
Delimit Scope exc_scope with exc.
Notation "x <- m ;; k" := (Py.bind m (fun x => k))
  (at level 61, m at next level, right associativity) : exc_scope.

(** ** binary64 *)

Module Float.

Definition float := spec_float.
Definition prec : Z := 53.
Definition emax : Z := 1024.

Definition zero : float := S754_zero false.

(** [x == 0.0] *)
Definition is_zero (x : float) : bool :=
  match x with
  | S754_zero _ => true
  | _ => false
  end.

(** The binary64 value nearest to [n / 10^k], ties to even; [inf] on
    overflow.  This is the value of a decimal literal. *)
Definition of_decimal (n : Z) (k : nat) : float :=
  match n with
  | Zpos _ =>
      let '(q, e, l) := SFdiv_core_binary prec emax n 0 (10 ^ Z.of_nat k) 0 in
      binary_round_aux prec emax false q e l
  | _ => zero
  end.

(** [x / y] for [y <> 0.0] *)
Definition div (x y : float) : float := SFdiv prec emax x y.

(** Digits with at most one point; [None] for anything else.
    [dot]: a point was read; [seen]: a digit was read. *)
Fixpoint scan (s : string) (dot seen : bool) (n : Z) (k : nat)
  : option (Z * nat) :=
  match s with
  | EmptyString => if seen then Some (n, k) else None
  | String c s' =>
      if isdigit c then
        scan s' dot true (10 * n + digit_value c) (if dot then S k else k)
      else if Ascii.eqb c "." then
        if dot then None else scan s' true seen n k
      else None
  end.

(** [float(s)] for [s] a run of digits and points, as [[\d.]+] matches. *)
Definition of_string (s : string) : exc float :=
  match scan s false false 0 0 with
  | Some (n, k) => Ret (of_decimal n k)
  | None => Raise ValueError
  end.

(** [x] is a finite positive double within half a unit in the last place
    of [n / d]. *)
Definition nearest (x : float) (n d : Z) : bool :=
  match x with
  | S754_finite false m e =>
      bounded prec emax m e &&
      match e with
      | Zneg p => 2 * Z.abs (Zpos m * d - n * 2 ^ Zpos p) <=? d
      | _ => 2 * Z.abs (Zpos m * 2 ^ e * d - n) <=? 2 ^ e * d
      end
  | _ => false
  end.

End Float.
Import Float.

(** ** The numeric-run pattern [[\d.]+] *)

Module Re.

Definition in_class (c : ascii) : bool := isdigit c || Ascii.eqb c ".".

(** The longest prefix inside the class (greedy [+]). *)
Fixpoint run (s : string) : string :=
  match s with
  | EmptyString => EmptyString
  | String c s' => if in_class c then String c (run s') else EmptyString
  end.

(** [re.search(r'[\d.]+', s)]: the leftmost match, [None] if there is none. *)
Fixpoint search (s : string) : option string :=
  match s with
  | EmptyString => None
  | String c s' => if in_class c then Some (run s) else search s'
  end.

End Re.

(** ** FieldNormalizer: numbers (database.py 60-94) *)

Definition swallow {A} (m : exc (option A)) : exc (option A) :=
  match m with
  | Ret r => Ret r
  | Raise _ => Ret None     (* except Exception: return None *)
  end.

Definition parse_quantity (quantity_str : value) : exc (option float) :=
  if negb (truthy quantity_str) then Ret None
  else
    swallow
      match Re.search (str quantity_str) with
      | Some group => (x <- Float.of_string group ;; Ret (Some x))%exc
      | None => Ret None
      end.

Definition parse_price (price_str : value) : exc (option float) :=
  if negb (truthy price_str) then Ret None
  else
    swallow
      match Re.search (str price_str) with
      | Some group => (x <- Float.of_string group ;; Ret (Some x))%exc
      | None => Ret None
      end.

(** ** [datetime.strptime] and [strftime] for the formats of [parse_date]

    [strptime] turns the format into a regular expression, one group of
    alternatives per directive, matches it against the front of the text,
    rejects text left over, and builds the date, which checks it. *)

Module Strptime.

Inductive cls :=
| Digit                       (* \d *)
| Range (lo hi : ascii)       (* [lo-hi] *)
| Chr (c : ascii).

Definition cls_match (k : cls) (c : ascii) : bool :=
  match k with
  | Digit => isdigit c
  | Range lo hi =>
      (N_of_ascii lo <=? N_of_ascii c)%N && (N_of_ascii c <=? N_of_ascii hi)%N
  | Chr c' => Ascii.eqb c c'
  end.

Inductive directive := Dm | Dd | DY | Dy.

(** The alternatives of each directive, in the order the library's
    regular expression lists them. *)
Definition pattern (d : directive) : list (list cls) :=
  match d with
  | Dm => (* 1[0-2]|0[1-9]|[1-9] *)
      [ [Chr "1"; Range "0" "2"]; [Chr "0"; Range "1" "9"]; [Range "1" "9"] ]
  | Dd => (* 3[0-1]|[1-2]\d|0[1-9]|[1-9]| [1-9] *)
      [ [Chr "3"; Range "0" "1"]; [Range "1" "2"; Digit];
        [Chr "0"; Range "1" "9"]; [Range "1" "9"]; [Chr " "; Range "1" "9"] ]
  | DY => (* \d\d\d\d *)
      [ [Digit; Digit; Digit; Digit] ]
  | Dy => (* \d\d *)
      [ [Digit; Digit] ]
  end.

Inductive item := Dir (d : directive) | Lit (c : ascii).

(** The format string read into its parts; only the directives that
    [parse_date] uses are known. *)
Fixpoint compile (format : string) : option (list item) :=
  match format with
  | EmptyString => Some []
  | String "%" (String x rest) =>
      match (if Ascii.eqb x "m" then Some Dm
             else if Ascii.eqb x "d" then Some Dd
             else if Ascii.eqb x "Y" then Some DY
             else if Ascii.eqb x "y" then Some Dy
             else None), compile rest with
      | Some d, Some items => Some (Dir d :: items)
      | _, _ => None
      end
  | String c rest =>
      match compile rest with
      | Some items => Some (Lit c :: items)
      | None => None
      end
  end.

(** One alternative against the front of [s]: the matched text and what
    follows it. *)
Fixpoint match_seq (p : list cls) (s : string) : option (string * string) :=
  match p with
  | [] => Some (EmptyString, s)
  | k :: p' =>
      match s with
      | EmptyString => None
      | String c s' =>
          if cls_match k c then
            match match_seq p' s' with
            | Some (txt, rest) => Some (String c txt, rest)
            | None => None
            end
          else None
      end
  end.

Definition match_alts (alts : list (list cls)) (s : string)
  : list (string * string) :=
  flat_map (fun p => match match_seq p s with
                     | Some r => [r]
                     | None => []
                     end) alts.

Record groups := { gm : option string; gd : option string;
                   gY : option string; gy : option string }.

Definition no_groups : groups :=
  {| gm := None; gd := None; gY := None; gy := None |}.

Definition set_group (d : directive) (txt : string) (g : groups) : groups :=
  match d with
  | Dm => {| gm := Some txt; gd := gd g; gY := gY g; gy := gy g |}
  | Dd => {| gm := gm g; gd := Some txt; gY := gY g; gy := gy g |}
  | DY => {| gm := gm g; gd := gd g; gY := Some txt; gy := gy g |}
  | Dy => {| gm := gm g; gd := gd g; gY := gY g; gy := Some txt |}
  end.

(** Every way the pattern matches a prefix of [s], in the order a
    backtracking matcher finds them; [re.match] returns the first. *)
Fixpoint match_items (items : list item) (s : string)
  : list (groups * string) :=
  match items with
  | [] => [(no_groups, s)]
  | Lit c :: items' =>
      match s with
      | String c' s' => if Ascii.eqb c' c then match_items items' s' else []
      | EmptyString => []
      end
  | Dir d :: items' =>
      flat_map (fun '(txt, s') =>
                  map (fun '(g, rest) => (set_group d txt g, rest))
                      (match_items items' s'))
               (match_alts (pattern d) s)
  end.

Record date := { year : Z; month : Z; day : Z }.

Definition is_leap (y : Z) : bool :=
  (y mod 4 =? 0) && (negb (y mod 100 =? 0) || (y mod 400 =? 0)).

Definition days_in_month (y m : Z) : Z :=
  if m =? 2 then (if is_leap y then 29 else 28)
  else if (m =? 4) || (m =? 6) || (m =? 9) || (m =? 11) then 30
  else 31.

(** [datetime.date(y, m, d)] *)
Definition make_date (y m d : Z) : exc date :=
  if (1 <=? y) && (y <=? 9999) && (1 <=? m) && (m <=? 12)
     && (1 <=? d) && (d <=? days_in_month y m)
  then Ret {| year := y; month := m; day := d |}
  else Raise ValueError.

Definition group_int (default : Z) (g : option string) : Z :=
  match g with
  | Some txt => Py.int txt
  | None => default
  end.

Definition strptime (data_string format : string) : exc date :=
  match compile format with
  | None => Raise ValueError
  | Some items =>
      match match_items items data_string with
      | [] => Raise ValueError                (* does not match format *)
      | (found, rest) :: _ =>
          if nonempty rest then Raise ValueError  (* unconverted data remains *)
          else
            let y :=
              match gY found, gy found with
              | Some txt, _ => Py.int txt
              | None, Some txt =>
                  let yy := Py.int txt in
                  if yy <=? 68 then yy + 2000 else yy + 1900
              | None, None => 1900
              end in
            make_date y (group_int 1 (gm found)) (group_int 1 (gd found))
      end
  end.

Definition digit_char (n : Z) : ascii := ascii_of_N (Z.to_N (48 + n mod 10)).

Definition pad2 (n : Z) : string :=
  String (digit_char (n / 10)) (String (digit_char n) EmptyString).

Definition pad4 (n : Z) : string :=
  String (digit_char (n / 1000)) (String (digit_char (n / 100)) (pad2 n)).

(** The year as [%Y] prints it through the C library of Linux: in decimal
    and without padding, so with fewer than four digits below 1000 (the
    years of a [date] are 1 to 9999). *)
Definition decimal_year (y : Z) : string :=
  if y <? 10 then String (digit_char y) EmptyString
  else if y <? 100 then pad2 y
  else if y <? 1000 then String (digit_char (y / 100)) (pad2 y)
  else pad4 y.

(** [d.strftime('%Y-%m-%d')] *)
Definition strftime (d : date) : string :=
  decimal_year (year d) ++ "-" ++ pad2 (month d) ++ "-" ++ pad2 (day d).

End Strptime.

(** ** FieldNormalizer: dates (database.py 37-58) *)

Definition FORMATS : list string :=
  ["%m-%d-%Y"; "%m-%d-%y"; "%Y-%m-%d"; "%d-%m-%Y"].

(** The [for fmt in ...] loop: a [ValueError] moves on to the next format,
    any other exception leaves the loop. *)
Fixpoint try_formats (date_str : value) (fmts : list string)
  : exc (option string) :=
  match fmts with
  | [] => Ret None
  | fmt :: rest =>
      match (s <- Py.strip date_str ;; Strptime.strptime s fmt)%exc with
      | Ret date_obj => Ret (Some (Strptime.strftime date_obj))
      | Raise ValueError => try_formats date_str rest
      | Raise e => Raise e
      end
  end.

Definition parse_date (date_str : value) : exc (option string) :=
  if negb (truthy date_str) then Ret None
  else swallow (try_formats date_str FORMATS).

(** ** The persistent store *)

Module Store.

(** A quantity is the parsed [float] or the default, the integer [1]. *)
Inductive number :=
| Int (z : Z)
| Real (x : float).

Record merchant_row := {
  merchant_id : Z;
  merchant_name : string;
  address : option string;
  phone_number : option string }.

Record product_row := {
  product_id : Z;
  product_description : string;
  category : option string }.

Record receipt_row := {
  receipt_id : Z;
  receipt_merchant_id : Z;
  transaction_date : string;
  subtotal : option float;
  tax : option float;
  total : float }.

Record receipt_item_row := {
  receipt_item_id : Z;
  item_receipt_id : Z;
  item_product_id : Z;
  quantity : number;
  unit_price : option float;
  total_price : float }.

Record tables := {
  merchant : list merchant_row;
  product : list product_row;
  receipt : list receipt_row;
  receipt_item : list receipt_item_row }.

Definition no_tables : tables :=
  {| merchant := []; product := []; receipt := []; receipt_item := [] |}.

(** The connection: what is committed, what the open transaction sees,
    whether a transaction is open and whether it is in the failed state (a
    statement raised a storage error inside it), the id counters, and the
    number of statements issued so far. *)
Record connection := {
  committed : tables;
  pending : tables;
  in_transaction : bool;
  failed : bool;
  merchant_seq : Z;
  product_seq : Z;
  receipt_seq : Z;
  receipt_item_seq : Z;
  clock : nat }.

Definition fresh : connection :=
  {| committed := no_tables; pending := no_tables; in_transaction := false;
     failed := false; merchant_seq := 1; product_seq := 1; receipt_seq := 1;
     receipt_item_seq := 1; clock := 0 |}.

Inductive statement :=
| SelectMerchant (name : string)
    (* SELECT merchant_id FROM merchant WHERE merchant_name = %s *)
| InsertMerchant (name : string) (address phone : option string)
    (* INSERT INTO merchant (...) VALUES (...) RETURNING merchant_id *)
| SelectProduct (description : string)
| InsertProduct (description : string) (category : option string)
| InsertReceipt (merchant_id : Z) (transaction_date : string)
                (subtotal tax : option float) (total : float)
| InsertReceiptItem (receipt_id product_id : Z) (quantity : number)
                    (unit_price : option float) (total_price : float)
| Commit
| Rollback.

Definition lookup_merchant (name : string) (rows : list merchant_row)
  : option Z :=
  option_map merchant_id
    (find (fun r => String.eqb (merchant_name r) name) rows).

Definition lookup_product (description : string) (rows : list product_row)
  : option Z :=
  option_map product_id
    (find (fun r => String.eqb (product_description r) description) rows).

(** The statement is issued: time passes and a transaction is open. *)
Definition issue (c : connection) : connection :=
  {| committed := committed c; pending := pending c; in_transaction := true;
     failed := failed c;
     merchant_seq := merchant_seq c; product_seq := product_seq c;
     receipt_seq := receipt_seq c; receipt_item_seq := receipt_item_seq c;
     clock := S (clock c) |}.

(** The statement is issued and the server answers with an error: the
    transaction is in the failed state from then on. *)
Definition refuse (c : connection) : connection :=
  {| committed := committed c; pending := pending c; in_transaction := true;
     failed := true;
     merchant_seq := merchant_seq c; product_seq := product_seq c;
     receipt_seq := receipt_seq c; receipt_item_seq := receipt_item_seq c;
     clock := S (clock c) |}.

(** [conn.rollback()], and what the server does with a transaction whose
    connection is lost, or that is in the failed state when its commit
    arrives: the rows of the transaction are discarded; the id counters are
    not rewound. *)
Definition rolled_back (c : connection) : connection :=
  {| committed := committed c; pending := committed c;
     in_transaction := false; failed := false;
     merchant_seq := merchant_seq c; product_seq := product_seq c;
     receipt_seq := receipt_seq c;
     receipt_item_seq := receipt_item_seq c; clock := clock c |}.

(** The effect of a statement that succeeds, and the first column of the
    first row it returns ([fetchone()]), if it returns one. *)
Definition run (q : statement) (c : connection) : option Z * connection :=
  let t := pending c in
  match q with
  | SelectMerchant name => (lookup_merchant name (merchant t), c)
  | SelectProduct description => (lookup_product description (product t), c)
  | InsertMerchant name a p =>
      let id := merchant_seq c in
      (Some id,
       {| committed := committed c;
          pending := {| merchant := merchant t ++
                          [ {| merchant_id := id; merchant_name := name;
                               address := a; phone_number := p |} ];
                        product := product t; receipt := receipt t;
                        receipt_item := receipt_item t |};
          in_transaction := in_transaction c; failed := failed c;
          merchant_seq := id + 1; product_seq := product_seq c;
          receipt_seq := receipt_seq c;
          receipt_item_seq := receipt_item_seq c; clock := clock c |})
  | InsertProduct description cat =>
      let id := product_seq c in
      (Some id,
       {| committed := committed c;
          pending := {| merchant := merchant t;
                        product := product t ++
                          [ {| product_id := id;
                               product_description := description;
                               category := cat |} ];
                        receipt := receipt t;
                        receipt_item := receipt_item t |};
          in_transaction := in_transaction c; failed := failed c;
          merchant_seq := merchant_seq c; product_seq := id + 1;
          receipt_seq := receipt_seq c;
          receipt_item_seq := receipt_item_seq c; clock := clock c |})
  | InsertReceipt mid d sub tx tot =>
      let id := receipt_seq c in
      (Some id,
       {| committed := committed c;
          pending := {| merchant := merchant t; product := product t;
                        receipt := receipt t ++
                          [ {| receipt_id := id; receipt_merchant_id := mid;
                               transaction_date := d; subtotal := sub;
                               tax := tx; total := tot |} ];
                        receipt_item := receipt_item t |};
          in_transaction := in_transaction c; failed := failed c;
          merchant_seq := merchant_seq c; product_seq := product_seq c;
          receipt_seq := id + 1;
          receipt_item_seq := receipt_item_seq c; clock := clock c |})
  | InsertReceiptItem rid pid qty up tp =>
      let id := receipt_item_seq c in
      (None,
       {| committed := committed c;
          pending := {| merchant := merchant t; product := product t;
                        receipt := receipt t;
                        receipt_item := receipt_item t ++
                          [ {| receipt_item_id := id; item_receipt_id := rid;
                               item_product_id := pid; quantity := qty;
                               unit_price := up; total_price := tp |} ] |};
          in_transaction := in_transaction c; failed := failed c;
          merchant_seq := merchant_seq c; product_seq := product_seq c;
          receipt_seq := receipt_seq c;
          receipt_item_seq := id + 1; clock := clock c |})
  | Commit =>
      if failed c then (None, rolled_back c)
      else
        (None,
         {| committed := pending c; pending := pending c;
            in_transaction := false; failed := false;
            merchant_seq := merchant_seq c; product_seq := product_seq c;
            receipt_seq := receipt_seq c;
            receipt_item_seq := receipt_item_seq c; clock := clock c |})
  | Rollback => (None, rolled_back c)
  end.

(** A NUL character in [s]. *)
Fixpoint has_nul (s : string) : bool :=
  match s with
  | EmptyString => false
  | String c s' => Ascii.eqb c Ascii.zero || has_nul s'
  end.

Definition opt_nul (s : option string) : bool :=
  match s with
  | Some s => has_nul s
  | None => false
  end.

(** A text parameter of the statement holds a NUL character: the driver
    cannot quote it, and raises [ValueError] before anything is sent. *)
Definition unquotable (q : statement) : bool :=
  match q with
  | SelectMerchant name => has_nul name
  | InsertMerchant name a p => has_nul name || opt_nul a || opt_nul p
  | SelectProduct description => has_nul description
  | InsertProduct description cat => has_nul description || opt_nul cat
  | InsertReceipt _ d _ _ _ => has_nul d
  | InsertReceiptItem _ _ _ _ _ | Commit | Rollback => false
  end.


End Store.
Import Store.

(** Computations on the connection that may raise. *)
Definition M (A : Type) : Type := connection -> exc A * connection.

Definition ret {A} (a : A) : M A := fun c => (Ret a, c).
Definition raise {A} (e : exn) : M A := fun c => (Raise e, c).
Definition bindM {A B} (m : M A) (k : A -> M B) : M B :=
  fun c => match m c with
           | (Ret a, c') => k a c'
           | (Raise e, c') => (Raise e, c')
           end.
Definition lift {A} (x : exc A) : M A := fun c => (x, c).

Declare Scope db_scope.
Delimit Scope db_scope with db.
Notation "x <- m ;; k" := (bindM m (fun x => k))
  (at level 61, m at next level, right associativity) : db_scope.
Notation "m ;;; k" := (bindM m (fun _ => k))
  (at level 61, right associativity) : db_scope.

(** [for x in xs: body] *)
Fixpoint for_each {A} (xs : list A) (body : A -> M unit) : M unit :=
  match xs with
  | [] => ret tt
  | x :: xs' => (body x ;;; for_each xs' body)%db
  end.

(** The value of an operand that Python finds true, [None] for one it finds
    false. *)
Definition truthy_str (x : option string) : option string :=
  match x with
  | Some s => if nonempty s then Some s else None
  | None => None
  end.

Definition truthy_float (x : option float) : option float :=
  match x with
  | Some f => if is_zero f then None else Some f
  | None => None
  end.

Definition truthy_id (x : option Z) : option Z :=
  match x with
  | Some i => if i =? 0 then None else Some i
  | None => None
  end.

(** One raw line item and one raw receipt, the dictionaries that the
    extraction hands over: every entry a string or missing ([None] stands
    for a key that is absent as for one that maps to [None], which [get]
    does not tell apart); a receipt without items has the empty list. *)
Module Raw.
Record item := {
  Description : option string;
  Quantity : option string;
  Price : option string;
  TotalPrice : option string }.

Record receipt := {
  merchant : option string;
  date : option string;
  items : list item;
  subtotal : option string;
  tax : option string;
  total : option string }.
End Raw.

(** database.py 234-243: the decisions taken on the parsed numbers of an
    item; [None] when the item is passed over. *)
Definition item_values (quantity unit_price total_price : option float)
  : option (number * option float * float) :=
  match truthy_float total_price with
  | None => None                                   (* continue *)
  | Some total_price =>
      let unit_price :=
        match truthy_float unit_price, truthy_float quantity with
        | None, Some q => Some (Float.div total_price q)
        | _, _ => unit_price
        end in
      let quantity :=
        match truthy_float quantity with
        | None => Int 1
        | Some q => Real q
        end in
      Some (quantity, unit_price, total_price)
  end.

Section ReceiptDatabase.

(** Which calls raise, and when: [fails t q] tells whether the statement
    [q], the commit or the rollback issued at time [t] raises.  The driver
    raises for every statement that it cannot quote, and the server for
    every statement of a transaction in the failed state: a [fails] that
    describes them is true there, and a hypothesis that a statement does
    not raise excludes these cases. *)
Variable fails : nat -> statement -> bool.

(** [cur.execute(q)] followed by [cur.fetchone()].  A statement that
    raises does so in the driver, with [ValueError] and before anything is
    sent, when a parameter cannot be quoted; otherwise on the server, with
    a storage error that leaves the transaction in the failed state. *)
Definition execute (q : statement) : M (option Z) :=
  fun c =>
    if fails (clock c) q then
      if unquotable q then (Raise ValueError, c)
      else (Raise DatabaseError, refuse c)
    else let '(r, c') := run q (issue c) in (Ret r, c').

(** [conn.commit()]: a commit that does not raise publishes the rows of the
    transaction, unless the transaction is in the failed state: then the
    server rolls it back instead, and the call returns all the same. *)
Definition commit : M unit :=
  fun c =>
    if fails (clock c) Commit then (Raise DatabaseError, refuse c)
    else (Ret tt, snd (run Commit (issue c))).

(** [conn.rollback()]: it raises when the connection is lost; the server
    has then discarded the transaction, as it does on a rollback. *)
Definition rollback : M unit :=
  fun c =>
    if fails (clock c) Rollback then (Raise DatabaseError, rolled_back c)
    else (Ret tt, rolled_back c).

(** [row[0]] *)
Definition first_column (row : option Z) : M Z :=
  match row with
  | Some id => ret id
  | None => raise TypeError
  end.

(** [except psycopg2.Error: return None] *)
Definition or_none {A} (m : M (option A)) : M (option A) :=
  fun c => match m c with
           | (Raise DatabaseError, c') => (Ret None, c')
           | r => r
           end.

(** database.py 96-128 *)
Definition insert_or_get_merchant
  (merchant_name address phone : option string) : M (option Z) :=
  match truthy_str merchant_name with
  | None => ret None
  | Some merchant_name =>
      or_none
        (result <- execute (SelectMerchant merchant_name) ;;
         match result with
         | Some id => ret (Some id)
         | None =>
             row <- execute (InsertMerchant merchant_name address phone) ;;
             merchant_id <- first_column row ;;
             ret (Some merchant_id)
         end)%db
  end.

(** database.py 130-161 *)
Definition insert_or_get_product
  (product_description category : option string) : M (option Z) :=
  match truthy_str product_description with
  | None => ret None
  | Some product_description =>
      or_none
        (result <- execute (SelectProduct product_description) ;;
         match result with
         | Some id => ret (Some id)
         | None =>
             row <- execute (InsertProduct product_description category) ;;
             product_id <- first_column row ;;
             ret (Some product_id)
         end)%db
  end.

(** database.py 245-256: resolve the product, insert the row. *)
Definition put_item (receipt_id : Z) (description : string)
  (quantity : number) (unit_price : option float) (total_price : float)
  : M unit :=
  (product_id <- insert_or_get_product (Some description) None ;;
   match truthy_id product_id with
   | None => ret tt                                         (* continue *)
   | Some product_id =>
       execute (InsertReceiptItem receipt_id product_id quantity
                                  unit_price total_price) ;;;
       ret tt
   end)%db.

(** database.py 225-256: the body of [for item in items]. *)
Definition insert_item (receipt_id : Z) (item : Raw.item) : M unit :=
  match truthy_str (Raw.Description item) with
  | None => ret tt                                          (* continue *)
  | Some description =>
      (quantity <- lift (parse_quantity (Py.get (Raw.Quantity item))) ;;
       unit_price <- lift (parse_price (Py.get (Raw.Price item))) ;;
       total_price <- lift (parse_price (Py.get (Raw.TotalPrice item))) ;;
       match item_values quantity unit_price total_price with
       | None => ret tt                                     (* continue *)
       | Some (quantity, unit_price, total_price) =>
           put_item receipt_id description quantity unit_price total_price
       end)%db
  end.

(** database.py 209-260: the header, the items, the commit. *)
Definition write_receipt (merchant_id : Z) (transaction_date : string)
  (subtotal tax : option float) (total : float) (items : list Raw.item)
  : M bool :=
  (row <- execute (InsertReceipt merchant_id transaction_date
                                 subtotal tax total) ;;
   receipt_id <- first_column row ;;
   match items with
   | [] => commit ;;; ret true
   | _ => for_each items (insert_item receipt_id) ;;; commit ;;; ret true
   end)%db.

(** database.py 183-260: the body of the [try]. *)
Definition insert_receipt_try (receipt_data : Raw.receipt) : M bool :=
  (let merchant_name := Raw.merchant receipt_data in
   transaction_date <- lift (parse_date (Py.get (Raw.date receipt_data))) ;;
   subtotal <- lift (parse_price (Py.get (Raw.subtotal receipt_data))) ;;
   tax <- lift (parse_price (Py.get (Raw.tax receipt_data))) ;;
   total <- lift (parse_price (Py.get (Raw.total receipt_data))) ;;
   let items := Raw.items receipt_data in
   match truthy_str merchant_name with
   | None => ret false
   | Some merchant_name =>
       match truthy_str transaction_date with
       | None => ret false
       | Some transaction_date =>
           match truthy_float total with
           | None => ret false
           | Some total =>
               merchant_id <-
                 insert_or_get_merchant (Some merchant_name) None None ;;
               match truthy_id merchant_id with
               | None => ret false
               | Some merchant_id =>
                   write_receipt merchant_id transaction_date
                                 subtotal tax total items
               end
           end
       end
   end)%db.

(** database.py 163-271: both [except] clauses roll back and return
    [False]; an exception of the rollback itself leaves the call. *)
Definition insert_receipt (receipt_data : Raw.receipt) : M bool :=
  fun c =>
    match insert_receipt_try receipt_data c with
    | (Raise _, c') => (rollback ;;; ret false)%db c'
    | r => r
    end.

End ReceiptDatabase.

(** ** The extraction (azure_ocr.py 14-65)

    [process_receipt] sends the image to the analysis service and maps the
    fields of the first document it returns to the raw receipt.  The call
    to the service is taken as given.  Of the objects it returns only what
    [process_receipt] reads is kept: a document field has a [content], a
    [value_array] and a [value_object]; any other object has none of these
    attributes and only its [str()] rendering. *)

Module Azure.

#[warnings="-register-all"]
Inductive obj :=
| DocumentField (content : option string)
                (value_array : option (list obj))
                (value_object : option (list (string * obj)))
| Other (repr : string).

(** [result.documents]: each document the mapping [fields], in its
    iteration order. *)
Definition result := list (list (string * obj)).

(** [field.content] *)
Definition content (field : obj) : exc (option string) :=
  match field with
  | DocumentField c _ _ => Ret c
  | Other _ => Raise AttributeError
  end.

(** [field.value_array] *)
Definition value_array (field : obj) : exc (option (list obj)) :=
  match field with
  | DocumentField _ a _ => Ret a
  | Other _ => Raise AttributeError
  end.

(** [field_name == name and field.content]: the content when both hold;
    the content is read only when the name matches. *)
Definition named_content (field_name name : string) (field : obj)
  : exc (option string) :=
  if String.eqb field_name name
  then (c <- content field ;; Ret (truthy_str c))%exc
  else Ret None.

(** [item_dict[key] = v], for the keys that [insert_receipt] reads. *)
Definition assign (key : string) (v : option string) (item_dict : Raw.item)
  : Raw.item :=
  if String.eqb key "Description" then
    {| Raw.Description := v; Raw.Quantity := Raw.Quantity item_dict;
       Raw.Price := Raw.Price item_dict;
       Raw.TotalPrice := Raw.TotalPrice item_dict |}
  else if String.eqb key "Quantity" then
    {| Raw.Description := Raw.Description item_dict; Raw.Quantity := v;
       Raw.Price := Raw.Price item_dict;
       Raw.TotalPrice := Raw.TotalPrice item_dict |}
  else if String.eqb key "Price" then
    {| Raw.Description := Raw.Description item_dict;
       Raw.Quantity := Raw.Quantity item_dict; Raw.Price := v;
       Raw.TotalPrice := Raw.TotalPrice item_dict |}
  else if String.eqb key "TotalPrice" then
    {| Raw.Description := Raw.Description item_dict;
       Raw.Quantity := Raw.Quantity item_dict;
       Raw.Price := Raw.Price item_dict; Raw.TotalPrice := v |}
  else item_dict.

Definition empty_dict : Raw.item :=
  {| Raw.Description := None; Raw.Quantity := None; Raw.Price := None;
     Raw.TotalPrice := None |}.

(** azure_ocr.py 58-62: [for key, val in item.value_object.items()]. *)
Fixpoint read_properties (properties : list (string * obj))
  (item_dict : Raw.item) : Raw.item :=
  match properties with
  | [] => item_dict
  | (key, val) :: rest =>
      read_properties rest
        (assign key
                match val with
                | DocumentField c _ _ => c         (* val.content *)
                | Other repr => Some repr          (* str(val) *)
                end
                item_dict)
  end.

(** azure_ocr.py 55-63: the dictionary of one element of the array. *)
Definition read_item (item : obj) : Raw.item :=
  match item with
  | DocumentField _ _ (Some (property :: properties)) =>
      read_properties (property :: properties) empty_dict
  | _ => empty_dict
  end.

Definition empty_receipt : Raw.receipt :=
  {| Raw.merchant := None; Raw.date := None; Raw.items := [];
     Raw.subtotal := None; Raw.tax := None; Raw.total := None |}.

(** azure_ocr.py 40-63: one turn of the loop over the fields. *)
Definition read_field (field_name : string) (field : obj)
  (receipt_data : Raw.receipt) : exc Raw.receipt :=
  (merchant <- named_content field_name "MerchantName" field ;;
   match merchant with
   | Some c =>
       Ret {| Raw.merchant := Some c; Raw.date := Raw.date receipt_data;
              Raw.items := Raw.items receipt_data;
              Raw.subtotal := Raw.subtotal receipt_data;
              Raw.tax := Raw.tax receipt_data;
              Raw.total := Raw.total receipt_data |}
   | None =>
   date <- named_content field_name "TransactionDate" field ;;
   match date with
   | Some c =>
       Ret {| Raw.merchant := Raw.merchant receipt_data; Raw.date := Some c;
              Raw.items := Raw.items receipt_data;
              Raw.subtotal := Raw.subtotal receipt_data;
              Raw.tax := Raw.tax receipt_data;
              Raw.total := Raw.total receipt_data |}
   | None =>
   subtotal <- named_content field_name "Subtotal" field ;;
   match subtotal with
   | Some c =>
       Ret {| Raw.merchant := Raw.merchant receipt_data;
              Raw.date := Raw.date receipt_data;
              Raw.items := Raw.items receipt_data; Raw.subtotal := Some c;
              Raw.tax := Raw.tax receipt_data;
              Raw.total := Raw.total receipt_data |}
   | None =>
   tax <- named_content field_name "TotalTax" field ;;
   match tax with
   | Some c =>
       Ret {| Raw.merchant := Raw.merchant receipt_data;
              Raw.date := Raw.date receipt_data;
              Raw.items := Raw.items receipt_data;
              Raw.subtotal := Raw.subtotal receipt_data; Raw.tax := Some c;
              Raw.total := Raw.total receipt_data |}
   | None =>
   total <- named_content field_name "Total" field ;;
   match total with
   | Some c =>
       Ret {| Raw.merchant := Raw.merchant receipt_data;
              Raw.date := Raw.date receipt_data;
              Raw.items := Raw.items receipt_data;
              Raw.subtotal := Raw.subtotal receipt_data;
              Raw.tax := Raw.tax receipt_data; Raw.total := Some c |}
   | None =>
   if String.eqb field_name "Items" then
     items_array <- value_array field ;;
     match items_array with
     | Some (item :: items) =>
         Ret {| Raw.merchant := Raw.merchant receipt_data;
                Raw.date := Raw.date receipt_data;
                Raw.items := (Raw.items receipt_data
                              ++ map read_item (item :: items))%list;
                Raw.subtotal := Raw.subtotal receipt_data;
                Raw.tax := Raw.tax receipt_data;
                Raw.total := Raw.total receipt_data |}
     | _ => Ret receipt_data
     end
   else Ret receipt_data
   end end end end end)%exc.

(** [for field_name, field in fields.items()] *)
Fixpoint read_fields (fields : list (string * obj))
  (receipt_data : Raw.receipt) : exc Raw.receipt :=
  match fields with
  | [] => Ret receipt_data
  | (field_name, field) :: rest =>
      (receipt_data <- read_field field_name field receipt_data ;;
       read_fields rest receipt_data)%exc
  end.

(** azure_ocr.py 28-65: the mapping of the result. *)
Definition read_result (r : result) : exc Raw.receipt :=
  match r with
  | [] => Ret empty_receipt                    (* if result.documents *)
  | fields :: _ => read_fields fields empty_receipt
  end.

(** azure_ocr.py 14-65, over the call to the service. *)
Definition process_receipt (analyze : string -> exc result)
  (image_path : string) : exc Raw.receipt :=
  (r <- analyze image_path ;; read_result r)%exc.

(** An entry of the list that [process_receipts_batch] returns: the
    extracted receipt with its ["file"], or the ["file"] and the
    ["error"]. *)
Inductive entry :=
| Extracted (file : string) (receipt_data : Raw.receipt)
| Failed (file : string) (error : exn).

Definition file (e : entry) : string :=
  match e with
  | Extracted f _ => f
  | Failed f _ => f
  end.

(** azure_ocr.py 70-77: [for path in image_paths], over the list built so
    far. *)
Fixpoint batch_loop (process : string -> exc Raw.receipt)
  (image_paths : list string) (results : list entry) : list entry :=
  match image_paths with
  | [] => results
  | path :: rest =>
      batch_loop process rest
        match process path with
        | Ret r => (results ++ [Extracted path r])%list
        | Raise e => (results ++ [Failed path e])%list   (* except Exception *)
        end
  end.

(** azure_ocr.py 67-79 *)
Definition process_receipts_batch (analyze : string -> exc result)
  (image_paths : list string) : list entry :=
  batch_loop (process_receipt analyze) image_paths [].

(** The first document has no field of that name with a content. *)
Definition unrecognised (name : string) (r : result) : Prop :=
  match r with
  | [] => True
  | fields :: _ =>
      Forall (fun named =>
                fst named = name ->
                match snd named with
                | DocumentField c _ _ => truthy_str c = None
                | Other _ => False
                end)
             fields
  end.

End Azure.

(** ** The batch driver (main.py 52-73)

    The loop of [main] over the receipt files.  What it calls outside the
    database is taken as given: whether the file exists, the extraction
    (which returns the raw receipt or raises), and the JSON dump (which may
    raise). *)

Section Main.

Variable fails : nat -> statement -> bool.
Variable path_exists : string -> bool.
Variable process_receipt : string -> exc Raw.receipt.
Variable save_to_json : Raw.receipt -> string -> exc unit.

(** main.py 53-73: the body of [for receipt_path in receipt_paths]. *)
Definition process_path (receipt_path : string) : M unit :=
  if negb (path_exists receipt_path) then ret tt              (* continue *)
  else
    (receipt_data <- lift (process_receipt receipt_path) ;;
     let json_output := replace ".jpg" "_output.json" receipt_path in
     lift (save_to_json receipt_data json_output) ;;;
     inserted <- insert_receipt fails receipt_data ;;
     ret tt)%db.

Definition process_paths (receipt_paths : list string) : M unit :=
  for_each receipt_paths process_path.

End Main.

(** ** Vocabulary of the statements *)

(** Every character of [s] satisfies [p]. *)
Fixpoint all_chars (p : ascii -> bool) (s : string) : bool :=
  match s with
  | EmptyString => true
  | String c s' => p c && all_chars p s'
  end.

Definition outside (c : ascii) : bool := negb (Re.in_class c).

(** [s] does not start with a character of the class. *)
Definition stops (s : string) : bool :=
  match s with
  | EmptyString => true
  | String c _ => outside c
  end.

(** The shape [dddd-dd-dd]. *)
Definition canonical (s : string) : bool :=
  match Strptime.match_seq
          [Strptime.Digit; Strptime.Digit; Strptime.Digit; Strptime.Digit;
           Strptime.Chr "-"; Strptime.Digit; Strptime.Digit;
           Strptime.Chr "-"; Strptime.Digit; Strptime.Digit] s with
  | Some (_, EmptyString) => true
  | _ => false
  end.

(** [fmt] at position [n] is the first format of [fmts] that parses the
    stripped text of [s]. *)
Definition first_match (s : string) (fmts : list string) (n : nat)
  (fmt : string) (d : Strptime.date) : Prop :=
  nth_error fmts n = Some fmt
  /\ Strptime.strptime (Py.rstrip (Py.lstrip s)) fmt = Ret d
  /\ forall k fmt', (k < n)%nat -> nth_error fmts k = Some fmt' ->
        Strptime.strptime (Py.rstrip (Py.lstrip s)) fmt' = Raise ValueError.

Definition count_merchant (name : string) (t : tables) : nat :=
  List.length (filter (fun r => String.eqb (merchant_name r) name) (merchant t)).

Definition count_product (description : string) (t : tables) : nat :=
  List.length (filter (fun r => String.eqb (product_description r) description)
                 (product t)).

(** What one call of the merchant resolver can do. *)
Inductive merchant_outcome (name : string) (a p : option string)
  (c : connection) (r : exc (option Z)) (c1 : connection) : Prop :=
| merchant_failed :
    r = Ret None -> pending c1 = pending c ->
    merchant_outcome name a p c r c1
| merchant_found id :
    lookup_merchant name (merchant (pending c)) = Some id ->
    r = Ret (Some id) -> pending c1 = pending c ->
    merchant_outcome name a p c r c1
| merchant_created :
    lookup_merchant name (merchant (pending c)) = None ->
    r = Ret (Some (merchant_seq c)) ->
    pending c1
    = {| merchant := merchant (pending c) ++
           [ {| merchant_id := merchant_seq c; merchant_name := name;
                address := a; phone_number := p |} ];
         product := product (pending c);
         receipt := receipt (pending c);
         receipt_item := receipt_item (pending c) |} ->
    merchant_outcome name a p c r c1
| merchant_unquotable :
    r = Raise ValueError -> pending c1 = pending c ->
    merchant_outcome name a p c r c1.

Inductive product_outcome (description : string) (cat : option string)
  (c : connection) (r : exc (option Z)) (c1 : connection) : Prop :=
| product_failed :
    r = Ret None -> pending c1 = pending c ->
    product_outcome description cat c r c1
| product_found id :
    lookup_product description (product (pending c)) = Some id ->
    r = Ret (Some id) -> pending c1 = pending c ->
    product_outcome description cat c r c1
| product_created :
    lookup_product description (product (pending c)) = None ->
    r = Ret (Some (product_seq c)) ->
    pending c1
    = {| merchant := merchant (pending c);
         product := product (pending c) ++
           [ {| product_id := product_seq c;
                product_description := description; category := cat |} ];
         receipt := receipt (pending c);
         receipt_item := receipt_item (pending c) |} ->
    product_outcome description cat c r c1
| product_unquotable :
    r = Raise ValueError -> pending c1 = pending c ->
    product_outcome description cat c r c1.



(** The header row that [insert_receipt] writes. *)
Definition header (c : connection) (merchant_id : Z) (d : string)
  (sub tx : option float) (tot : float) : receipt_row :=
  {| receipt_id := receipt_seq c; receipt_merchant_id := merchant_id;
     transaction_date := d; subtotal := sub; tax := tx; total := tot |}.


(** ** Vocabulary of the invariants *)

(** [t'] holds the rows of [t], in their order, and possibly more after
    them. *)
Definition extends (t t' : tables) : Prop :=
  (exists more, merchant t' = (merchant t ++ more)%list)
  /\ (exists more, product t' = (product t ++ more)%list)
  /\ (exists more, receipt t' = (receipt t ++ more)%list)
  /\ (exists more, receipt_item t' = (receipt_item t ++ more)%list).

(** No two merchants share a name, no two products a description. *)
Definition unique_keys (t : tables) : Prop :=
  NoDup (map merchant_name (merchant t))
  /\ NoDup (map product_description (product t)).

(** The merchant and product ids handed out so far, and the next ones, are
    positive, as those of a serial column are. *)
Definition positive_ids (c : connection) : Prop :=
  0 < merchant_seq c /\ 0 < product_seq c
  /\ Forall (fun r => 0 < merchant_id r) (merchant (pending c))
  /\ Forall (fun r => 0 < product_id r) (product (pending c)).

(** What the open transaction sees is what is committed and the rows it
    added. *)
Definition consistent (c : connection) : Prop :=
  extends (committed c) (pending c).

(** From [c] to [c'] nothing was committed or discarded: rows were at most
    appended to what the transaction sees, and unique keys and positive ids
    were kept. *)
Definition advance (c c' : connection) : Prop :=
  committed c' = committed c
  /\ extends (pending c) (pending c')
  /\ (unique_keys (pending c) -> unique_keys (pending c'))
  /\ (positive_ids c -> positive_ids c').

(** [c'] is [c2] once its transaction is committed. *)
Definition committed_from (c2 c' : connection) : Prop :=
  committed c' = pending c2 /\ pending c' = pending c2
  /\ in_transaction c' = false
  /\ merchant_seq c' = merchant_seq c2 /\ product_seq c' = product_seq c2.

(** No statement ever raises. *)
Definition no_failure (fails : nat -> statement -> bool) : Prop :=
  forall t q, fails t q = false.

(** [row] is the line-item row of [item] under receipt [rid]: it holds the
    values decided from the parsed fields, and the id under which
    [products] has the item's description. *)
Definition row_of (rid : Z) (products : list product_row)
  (item : Raw.item) (row : receipt_item_row) : Prop :=
  exists d q u tp,
    truthy_str (Raw.Description item) = Some d
    /\ parse_quantity (Py.get (Raw.Quantity item)) = Ret q
    /\ parse_price (Py.get (Raw.Price item)) = Ret u
    /\ parse_price (Py.get (Raw.TotalPrice item)) = Ret tp
    /\ item_values q u tp
       = Some (quantity row, unit_price row, total_price row)
    /\ item_receipt_id row = rid
    /\ lookup_product d products = Some (item_product_id row).

(** [rows] are the rows of some of the [items], in their order. *)
Inductive rows_of (rid : Z) (products : list product_row)
  : list Raw.item -> list receipt_item_row -> Prop :=
| rows_done : rows_of rid products [] []
| rows_skip item items rows :
    rows_of rid products items rows ->
    rows_of rid products (item :: items) rows
| rows_keep item items row rows :
    row_of rid products item row ->
    rows_of rid products items rows ->
    rows_of rid products (item :: items) (row :: rows).

(** The item has a description and a total price that is not zero: the
    loop of [insert_receipt] goes on to resolve its product. *)
Definition accepted (item : Raw.item) : bool :=
  match truthy_str (Raw.Description item),
        parse_quantity (Py.get (Raw.Quantity item)),
        parse_price (Py.get (Raw.Price item)),
        parse_price (Py.get (Raw.TotalPrice item)) with
  | Some _, Ret q, Ret u, Ret tp =>
      match item_values q u tp with
      | Some _ => true
      | None => false
      end
  | _, _, _, _ => false
  end.

(** The header fields that [insert_receipt] requires: a merchant name, a
    date that parses, a total that parses and is not zero. *)
Definition valid (rd : Raw.receipt) : bool :=
  match truthy_str (Raw.merchant rd),
        parse_date (Py.get (Raw.date rd)),
        parse_price (Py.get (Raw.total rd)) with
  | Some _, Ret (Some _), Ret tr =>
      match truthy_float tr with
      | Some _ => true
      | None => false
      end
  | _, _, _ => false
  end.

(** What every stored line item satisfies: it belongs to receipt [rid], its
    total price is not zero, its quantity is the default 1 or a parsed
    number that is not zero, and its product is a row of [products]. *)
Definition sound_row (rid : Z) (products : list product_row)
  (row : receipt_item_row) : Prop :=
  item_receipt_id row = rid
  /\ is_zero (total_price row) = false
  /\ match quantity row with
     | Int z => z = 1
     | Real x => is_zero x = false
     end
  /\ exists p, In p products /\ product_id p = item_product_id row.

(** Zero, a positive number or plus infinity: neither negative nor NaN. *)
Definition nonnegative (x : float) : bool :=
  match x with
  | S754_zero false | S754_finite false _ _ | S754_infinity false => true
  | _ => false
  end.

(** The number of points and of digits in [s]. *)
Fixpoint points (s : string) : nat :=
  match s with
  | EmptyString => 0
  | String c s' => ((if Ascii.eqb c "." then 1 else 0) + points s')%nat
  end.

Fixpoint digits (s : string) : nat :=
  match s with
  | EmptyString => 0
  | String c s' => ((if isdigit c then 1 else 0) + digits s')%nat
  end.

(** The month and the day, written with two digits each, are read back by
    the month-day tail of the year-first format. *)
Definition month_day_ok (m d : Z) : bool :=
  match Strptime.match_items
          [Strptime.Dir Strptime.Dm; Strptime.Lit "-";
           Strptime.Dir Strptime.Dd]
          (Strptime.pad2 m ++ "-" ++ Strptime.pad2 d) with
  | (g, EmptyString) :: _ =>
      match Strptime.gY g, Strptime.gy g with
      | None, None =>
          (Strptime.group_int 1 (Strptime.gm g) =? m)
          && (Strptime.group_int 1 (Strptime.gd g) =? d)
      | _, _ => false
      end
  | _ => false
  end.

Definition all_month_days_ok : bool :=
  forallb (fun m => forallb (fun d => month_day_ok (Z.of_nat m) (Z.of_nat d))
                            (seq 1 31))
          (seq 1 12).

Definition not_space (c : ascii) : bool := negb (Py.isspace c).

(** Nothing is pending: what the connection sees is what is committed; ids
    are positive and keys unique. *)
Definition settled (c : connection) : Prop :=
  pending c = committed c /\ positive_ids c /\ unique_keys (pending c).

(** No storage error at all. *)
Definition never : nat -> statement -> bool := fun _ _ => false.

Definition milk : Raw.item :=
  {| Raw.Description := Some "MILK"; Raw.Quantity := Some "2";
     Raw.Price := None; Raw.TotalPrice := Some "4.00" |}.

Definition bananas : Raw.item :=
  {| Raw.Description := Some "BANANAS"; Raw.Quantity := None;
     Raw.Price := None; Raw.TotalPrice := Some "0.99" |}.

Definition trader_joes (items : list Raw.item) : Raw.receipt :=
  {| Raw.merchant := Some "TRADER JOE'S"; Raw.date := Some "06-28-2014";
     Raw.items := items; Raw.subtotal := Some "$38.68"; Raw.tax := None;
     Raw.total := Some "$38.68" |}.

(** The description of [item] is stored in [products]. *)
Definition description_known (products : list product_row)
  (item : Raw.item) : Prop :=
  exists d id,
    truthy_str (Raw.Description item) = Some d
    /\ lookup_product d products = Some id.

(** Every item that the loop would accept has its description stored. *)
Definition items_known (products : list product_row)
  (items : list Raw.item) : Prop :=
  Forall (fun item => accepted item = true -> description_known products item)
         items.

(** A batch of two files of which the second does not exist. *)
Definition one_file_exists (path : string) : bool :=
  String.eqb path "data/receipts/0.jpg".

Definition extract_milk (path : string) : exc Raw.receipt :=
  Ret (trader_joes [milk]).

Definition dump_ok (receipt_data : Raw.receipt) (path : string) : exc unit :=
  Ret tt.

(** Every insert of a line item raises. *)
Definition no_line_item : nat -> statement -> bool :=
  fun _ q =>
    match q with
    | InsertReceiptItem _ _ _ _ _ => true
    | _ => false
    end.

(** The connection once a first receipt, with MILK, is ingested. *)
Definition milk_ingested : connection :=
  snd (insert_receipt never (trader_joes [milk]) fresh).


(** EGGS, three for 7.50. *)
Definition eggs : Raw.item :=
  {| Raw.Description := Some "EGGS"; Raw.Quantity := Some "3";
     Raw.Price := None; Raw.TotalPrice := Some "7.50" |}.

(** An item without a total price. *)
Definition no_price : Raw.item :=
  {| Raw.Description := Some "BREAD"; Raw.Quantity := Some "1";
     Raw.Price := Some "2.50"; Raw.TotalPrice := None |}.

(** The statement issued at time [8] raises if it inserts a line item: in
    the ingestion of two new items from a new merchant into [fresh], that
    is the second line item. *)
Definition second_item_fails : nat -> statement -> bool :=
  fun t q =>
    match q with
    | InsertReceiptItem _ _ _ _ _ => Nat.eqb t 8
    | _ => false
    end.





Definition no_total : Raw.receipt :=
  {| Raw.merchant := Some "TRADER JOE'S"; Raw.date := Some "06-28-2014";
     Raw.items := [bananas]; Raw.subtotal := None; Raw.tax := None;
     Raw.total := None |}.

Definition zero_total : Raw.receipt :=
  {| Raw.merchant := Some "TRADER JOE'S"; Raw.date := Some "06-28-2014";
     Raw.items := [bananas]; Raw.subtotal := None; Raw.tax := None;
     Raw.total := Some "$0.00" |}.

Definition free_item : Raw.item :=
  {| Raw.Description := Some "BAG"; Raw.Quantity := Some "1";
     Raw.Price := None; Raw.TotalPrice := Some "0.00" |}.

Definition milk_zero_price : Raw.item :=
  {| Raw.Description := Some "MILK"; Raw.Quantity := Some "2";
     Raw.Price := Some "0.00"; Raw.TotalPrice := Some "4.00" |}.

Definition milk_zero_quantity : Raw.item :=
  {| Raw.Description := Some "MILK"; Raw.Quantity := Some "0";
     Raw.Price := Some "4.00"; Raw.TotalPrice := Some "4.00" |}.

Definition values (r : receipt_item_row) : number * option float * float :=
  (quantity r, unit_price r, total_price r).

(** A result of the service for a scan on which only the merchant and the
    date were recognised. *)
Definition no_total_recognised : Azure.result :=
  [[("MerchantName", Azure.DocumentField (Some "Trader Joe's") None None);
    ("TransactionDate", Azure.DocumentField (Some "01-02-2024") None None);
    ("Total", Azure.DocumentField None None None);
    ("Items",
     Azure.DocumentField (Some "Milk 3.50")
       (Some [Azure.DocumentField (Some "Milk 3.50") None
                (Some [("Description",
                        Azure.DocumentField (Some "Milk") None None);
                       ("TotalPrice",
                        Azure.DocumentField (Some "3.50") None None)])])
       None)]].

(** A service that recognises the first scan and fails on every other. *)
Definition first_scan_only (image_path : string) : exc Azure.result :=
  if String.eqb image_path "a.jpg" then Ret no_total_recognised
  else Raise ValueError.

(** ** The parsers return *)

Lemma swallow_ret {A} (m : exc (option A)) : exists r, swallow m = Ret r.
Proof. destruct m as [r|e]; simpl; eauto. Qed.

Lemma parse_quantity_ret (v : value) : exists r, parse_quantity v = Ret r.
Proof.
  unfold parse_quantity.
  destruct (negb (truthy v)); [eauto | apply swallow_ret].
Qed.

Lemma parse_price_ret (v : value) : exists r, parse_price v = Ret r.
Proof.
  unfold parse_price.
  destruct (negb (truthy v)); [eauto | apply swallow_ret].
Qed.

Lemma parse_date_ret (v : value) : exists r, parse_date v = Ret r.
Proof.
  unfold parse_date.
  destruct (negb (truthy v)); [eauto | apply swallow_ret].
Qed.

(** ** The numeric run *)

Lemma run_prefix (r post : string) :
  all_chars Re.in_class r = true -> stops post = true ->
  Re.run (r ++ post) = r.
Proof.
  induction r as [|c r IH]; simpl; intros Hr Hp.
  - destruct post as [|c post]; simpl in *; auto.
    unfold outside in Hp. now destruct (Re.in_class c).
  - apply andb_true_iff in Hr as [Hc Hr]. rewrite Hc.
    now rewrite IH.
Qed.

Lemma search_first_run (pre r post : string) :
  all_chars outside pre = true ->
  all_chars Re.in_class r = true -> Py.nonempty r = true ->
  stops post = true ->
  Re.search (pre ++ r ++ post) = Some r.
Proof.
  intros Hpre Hr Hne Hpost.
  induction pre as [|c pre IH]; simpl in *.
  - destruct r as [|c r]; [discriminate|].
    simpl in *. apply andb_true_iff in Hr as [Hc Hr]. rewrite Hc.
    now rewrite run_prefix.
  - apply andb_true_iff in Hpre as [Hc Hpre].
    unfold outside in Hc. destruct (Re.in_class c); [discriminate|].
    now apply IH.
Qed.

Lemma search_none (s : string) :
  all_chars outside s = true -> Re.search s = None.
Proof.
  induction s as [|c s IH]; simpl; intros H; auto.
  apply andb_true_iff in H as [Hc H].
  unfold outside in Hc. destruct (Re.in_class c); [discriminate | auto].
Qed.

Lemma nonempty_app (pre r post : string) :
  Py.nonempty r = true -> Py.nonempty (pre ++ r ++ post) = true.
Proof.
  destruct pre; simpl; auto. destruct r; simpl; auto; discriminate.
Qed.

(** C8: [parse_quantity] and [parse_price] return the float of the first
    maximal run of digits and points, whatever surrounds it (unit suffixes,
    currency symbols), and absent on an empty input or one without such a
    run; on the six sample inputs they return 3.0, 0.41, absent, 1.29, 0.29
    and absent. *)
Theorem parse_number_first_run :
  (forall pre r post,
      all_chars outside pre = true ->
      all_chars Re.in_class r = true -> Py.nonempty r = true ->
      stops post = true ->
      parse_quantity (PyStr (pre ++ r ++ post))
        = swallow (x <- Float.of_string r ;; Ret (Some x))%exc
      /\ parse_price (PyStr (pre ++ r ++ post))
        = swallow (x <- Float.of_string r ;; Ret (Some x))%exc)
  /\ (forall s, all_chars outside s = true ->
        parse_quantity (PyStr s) = Ret None /\ parse_price (PyStr s) = Ret None)
  /\ parse_quantity (PyStr "3EA") = Ret (Some (of_decimal 30 1))
  /\ nearest (of_decimal 30 1) 3 1 = true
  /\ parse_quantity (PyStr "0.41 lb") = Ret (Some (of_decimal 41 2))
  /\ nearest (of_decimal 41 2) 41 100 = true
  /\ parse_quantity (PyStr "") = Ret None
  /\ parse_price (PyStr "$1.29") = Ret (Some (of_decimal 129 2))
  /\ nearest (of_decimal 129 2) 129 100 = true
  /\ parse_price (PyStr "0.29/EA") = Ret (Some (of_decimal 29 2))
  /\ nearest (of_decimal 29 2) 29 100 = true
  /\ parse_price PyNone = Ret None.
Proof.
  split; [|split].
  - intros pre r post Hpre Hr Hne Hpost.
    unfold parse_quantity, parse_price; simpl.
    rewrite (nonempty_app pre r post Hne); simpl.
    rewrite (search_first_run pre r post Hpre Hr Hne Hpost). auto.
  - intros s Hs. unfold parse_quantity, parse_price; simpl.
    rewrite (search_none s Hs). destruct (Py.nonempty s); auto.
  - repeat split; vm_compute; reflexivity.
Qed.

Lemma parse_number_first_run_witness :
  parse_quantity (PyStr ("qty " ++ "12.5" ++ "kg"))
    = Ret (Some (of_decimal 125 1))
  /\ parse_price (PyStr "EA") = Ret None.
Proof.
  split.
  - rewrite (proj1 (proj1 parse_number_first_run "qty " "12.5" "kg"
                      eq_refl eq_refl eq_refl eq_refl)).
    vm_compute; reflexivity.
  - exact (proj2 (proj1 (proj2 parse_number_first_run) "EA" eq_refl)).
Defined.

(** C10: [parse_price] and [parse_quantity] return the same result on every
    input. *)
Theorem parse_price_is_parse_quantity (v : value) :
  parse_price v = parse_quantity v.
Proof. unfold parse_price, parse_quantity. reflexivity. Qed.

(** C9: the three parsers return, a value or absent, on every input:
    [None], the empty string, any other object, any text; a run that is no
    number, such as three points, gives absent. *)
Theorem parsers_never_raise (v : value) :
  (exists r, parse_date v = Ret r)
  /\ (exists r, parse_quantity v = Ret r)
  /\ (exists r, parse_price v = Ret r)
  /\ Float.of_string "..." = Raise ValueError
  /\ parse_quantity (PyStr "...") = Ret None
  /\ parse_price (PyStr "...") = Ret None
  /\ Py.strip (PyObj true "2014-06-28") = Raise AttributeError
  /\ parse_date (PyObj true "2014-06-28") = Ret None.
Proof.
  split; [apply parse_date_ret|].
  split; [apply parse_quantity_ret|].
  split; [apply parse_price_ret|].
  repeat split; vm_compute; reflexivity.
Qed.

(** ** Dates *)

Lemma strptime_raises (s fmt : string) (e : exn) :
  Strptime.strptime s fmt = Raise e -> e = ValueError.
Proof.
  unfold Strptime.strptime, Strptime.make_date.
  destruct (Strptime.compile fmt) as [items|]; [|congruence].
  destruct (Strptime.match_items items s) as [|[found rest] l]; [congruence|].
  destruct (nonempty rest); [congruence|].
  match goal with |- context [if ?b then _ else _] => destruct b end;
    congruence.
Qed.

Section TryFormats.

Variable s : string.
Local Abbreviation t := (Py.rstrip (Py.lstrip s)).

Lemma try_formats_some (fmts : list string) (x : string) :
  try_formats (PyStr s) fmts = Ret (Some x)
  <-> exists n fmt d, first_match s fmts n fmt d /\ x = Strptime.strftime d.
Proof.
  induction fmts as [|fmt rest IH]; simpl.
  - split; [discriminate|].
    intros (n & f & d & (Hn & _) & _). destruct n; discriminate.
  - destruct (Strptime.strptime t fmt) as [d|e] eqn:E.
    + split.
      * intros H. injection H as <-. exists 0%nat, fmt, d.
        repeat split; auto. intros k f Hk. lia.
      * intros (n & f & d' & (Hn & Hd & Hlt) & ->).
        destruct n as [|n]; simpl in Hn.
        -- injection Hn as <-. rewrite E in Hd. now injection Hd as <-.
        -- specialize (Hlt 0%nat fmt (Nat.lt_0_succ n) eq_refl).
           congruence.
    + pose proof (strptime_raises _ _ _ E); subst e. rewrite IH. split.
      * intros (n & f & d & (Hn & Hd & Hlt) & ->).
        exists (S n), f, d. repeat split; auto.
        intros [|k] f' Hk Hf; simpl in Hf.
        -- now injection Hf as <-.
        -- apply (Hlt k); auto. lia.
      * intros (n & f & d & (Hn & Hd & Hlt) & ->).
        destruct n as [|n]; simpl in Hn.
        -- injection Hn as <-. congruence.
        -- exists n, f, d. repeat split; auto.
           intros k f' Hk Hf. apply (Hlt (S k)); auto. lia.
Qed.


Lemma try_formats_ret (fmts : list string) :
  exists r, try_formats (PyStr s) fmts = Ret r.
Proof.
  induction fmts as [|fmt rest IH]; simpl; eauto.
  destruct (Strptime.strptime t fmt) as [d|e] eqn:E; eauto.
  now rewrite (strptime_raises _ _ _ E).
Qed.

End TryFormats.

Lemma parse_date_str (s : string) :
  Py.nonempty s = true ->
  parse_date (PyStr s) = try_formats (PyStr s) FORMATS.
Proof.
  intros H. unfold parse_date, truthy. rewrite H. cbn [negb].
  destruct (try_formats_ret s FORMATS) as [r ->]. reflexivity.
Qed.

Lemma isdigit_digit_char (n : Z) : isdigit (Strptime.digit_char n) = true.
Proof.
  unfold Strptime.digit_char.
  pose proof (Z.mod_pos_bound n 10 eq_refl) as H.
  assert (n mod 10 = 0 \/ n mod 10 = 1 \/ n mod 10 = 2 \/ n mod 10 = 3
          \/ n mod 10 = 4 \/ n mod 10 = 5 \/ n mod 10 = 6 \/ n mod 10 = 7
          \/ n mod 10 = 8 \/ n mod 10 = 9) as Hc by lia.
  repeat (destruct Hc as [-> | Hc]; [reflexivity|]).
  rewrite Hc. reflexivity.
Qed.

Lemma make_date_real (y m dd : Z) (d : Strptime.date) :
  Strptime.make_date y m dd = Ret d ->
  d = {| Strptime.year := y; Strptime.month := m; Strptime.day := dd |}
  /\ 1 <= y <= 9999 /\ 1 <= m <= 12 /\ 1 <= dd <= 31.
Proof.
  unfold Strptime.make_date.
  destruct (_ && _) eqn:C; [|discriminate].
  intros H; injection H as <-. split; [reflexivity|].
  repeat (apply andb_true_iff in C as [C ?]).
  assert (Strptime.days_in_month y m <= 31).
  { unfold Strptime.days_in_month.
    repeat match goal with |- context [if ?b then _ else _] => destruct b end;
      lia. }
  lia.
Qed.

Lemma strptime_real (s fmt : string) (d : Strptime.date) :
  Strptime.strptime s fmt = Ret d ->
  Strptime.make_date (Strptime.year d) (Strptime.month d) (Strptime.day d)
  = Ret d.
Proof.
  unfold Strptime.strptime.
  destruct (Strptime.compile fmt) as [items|]; [|discriminate].
  destruct (Strptime.match_items items s) as [|[found rest] l];
    [discriminate|].
  destruct (nonempty rest); [discriminate|].
  intros H. destruct (make_date_real _ _ _ _ H) as [-> _]. exact H.
Qed.

Lemma try_formats_real (v : value) (fmts : list string) (x : string) :
  try_formats v fmts = Ret (Some x) ->
  exists d, x = Strptime.strftime d
            /\ Strptime.make_date (Strptime.year d) (Strptime.month d)
                 (Strptime.day d) = Ret d.
Proof.
  induction fmts as [|fmt rest IH]; simpl; [discriminate|].
  destruct (Py.strip v) as [s|e]; simpl.
  - destruct (Strptime.strptime s fmt) as [d|e] eqn:E.
    + intros H; injection H as <-. exists d. split; [reflexivity|].
      eapply strptime_real; eauto.
    + destruct e; auto; discriminate.
  - destruct e; auto; discriminate.
Qed.

Lemma parse_date_real (v : value) (x : string) :
  parse_date v = Ret (Some x) ->
  exists d, x = Strptime.strftime d
            /\ Strptime.make_date (Strptime.year d) (Strptime.month d)
                 (Strptime.day d) = Ret d.
Proof.
  unfold parse_date. destruct (negb (truthy v)); [discriminate|].
  destruct (try_formats v FORMATS) as [r|e] eqn:E; simpl; [|discriminate].
  intros H. injection H as ->. eapply try_formats_real; eauto.
Qed.

Lemma strftime_four (d : Strptime.date) :
  1000 <= Strptime.year d ->
  Strptime.strftime d
  = Strptime.pad4 (Strptime.year d) ++ "-" ++
    Strptime.pad2 (Strptime.month d) ++ "-" ++ Strptime.pad2 (Strptime.day d).
Proof.
  intros H. unfold Strptime.strftime, Strptime.decimal_year.
  destruct (Z.ltb_spec (Strptime.year d) 10); [lia|].
  destruct (Z.ltb_spec (Strptime.year d) 100); [lia|].
  destruct (Z.ltb_spec (Strptime.year d) 1000); [lia|]. reflexivity.
Qed.


Lemma strftime_short (d : Strptime.date) :
  Strptime.year d < 1000 -> canonical (Strptime.strftime d) = false.
Proof.
  intros H. unfold canonical, Strptime.strftime, Strptime.decimal_year.
  destruct (Z.ltb_spec (Strptime.year d) 10);
    [|destruct (Z.ltb_spec (Strptime.year d) 100);
      [|destruct (Z.ltb_spec (Strptime.year d) 1000); [|lia]]];
    unfold Strptime.pad2; simpl; rewrite ?isdigit_digit_char; reflexivity.
Qed.

Lemma strftime_truthy (d : Strptime.date) :
  truthy_str (Some (Strptime.strftime d)) = Some (Strptime.strftime d).
Proof.
  unfold Strptime.strftime, Strptime.decimal_year, Strptime.pad4,
    Strptime.pad2.
  destruct (_ <? 10); [reflexivity|].
  destruct (_ <? 100); [reflexivity|].
  destruct (_ <? 1000); reflexivity.
Qed.



Lemma parse_date_truthy (v : value) (x : string) :
  parse_date v = Ret (Some x) -> truthy_str (Some x) = Some x.
Proof.
  intros H. destruct (parse_date_real v x H) as (d & -> & _).
  apply strftime_truthy.
Qed.





(** ** The resolvers *)

Lemma find_none_count {A} (p : A -> bool) (l : list A) :
  find p l = None <-> List.length (filter p l) = 0%nat.
Proof.
  induction l as [|x l IH]; simpl; [tauto|].
  destruct (p x); simpl; [split; discriminate | exact IH].
Qed.

Lemma lookup_merchant_count (name : string) (t : tables) :
  lookup_merchant name (merchant t) = None <-> count_merchant name t = 0%nat.
Proof.
  unfold lookup_merchant, count_merchant. rewrite <- find_none_count.
  destruct (find _ _); simpl; split; congruence.
Qed.

Lemma lookup_product_count (description : string) (t : tables) :
  lookup_product description (product t) = None
  <-> count_product description t = 0%nat.
Proof.
  unfold lookup_product, count_product. rewrite <- find_none_count.
  destruct (find _ _); simpl; split; congruence.
Qed.

Section Resolvers.

Variable fails : nat -> statement -> bool.

Lemma merchant_call name a p c r c1 :
  nonempty name = true ->
  insert_or_get_merchant fails (Some name) a p c = (r, c1) ->
  committed c1 = committed c /\ merchant_outcome name a p c r c1.
Proof.
  intros Hn. unfold insert_or_get_merchant, truthy_str. rewrite Hn.
  unfold or_none, bindM, execute, first_column, ret; simpl.
  destruct (fails (clock c) (SelectMerchant name)); simpl.
  - destruct (has_nul name); intros H; injection H as <- <-.
    + split; [|apply merchant_unquotable]; auto.
    + split; [|apply merchant_failed]; auto.
  - destruct (lookup_merchant name (merchant (pending c))) as [id|] eqn:L;
      simpl.
    + intros H; injection H as <- <-.
      split; [|eapply merchant_found]; eauto.
    + destruct (fails (S (clock c)) (InsertMerchant name a p)); simpl.
      * destruct (has_nul name || opt_nul a || opt_nul p);
          intros H; injection H as <- <-.
        -- split; [|apply merchant_unquotable]; auto.
        -- split; [|apply merchant_failed]; auto.
      * intros H; injection H as <- <-.
        split; [|apply merchant_created]; auto.
Qed.

Lemma product_call description cat c r c1 :
  nonempty description = true ->
  insert_or_get_product fails (Some description) cat c = (r, c1) ->
  committed c1 = committed c /\ product_outcome description cat c r c1.
Proof.
  intros Hn. unfold insert_or_get_product, truthy_str. rewrite Hn.
  unfold or_none, bindM, execute, first_column, ret; simpl.
  destruct (fails (clock c) (SelectProduct description)); simpl.
  - destruct (has_nul description); intros H; injection H as <- <-.
    + split; [|apply product_unquotable]; auto.
    + split; [|apply product_failed]; auto.
  - destruct (lookup_product description (product (pending c)))
      as [id|] eqn:L; simpl.
    + intros H; injection H as <- <-.
      split; [|eapply product_found]; eauto.
    + destruct (fails (S (clock c)) (InsertProduct description cat)); simpl.
      * destruct (has_nul description || opt_nul cat);
          intros H; injection H as <- <-.
        -- split; [|apply product_unquotable]; auto.
        -- split; [|apply product_failed]; auto.
      * intros H; injection H as <- <-.
        split; [|apply product_created]; auto.
Qed.

End Resolvers.

Lemma find_app_some {A} (p : A -> bool) (l more : list A) (x : A) :
  find p l = Some x -> find p (l ++ more)%list = Some x.
Proof.
  induction l as [|y l IH]; simpl; [discriminate|].
  destruct (p y); auto.
Qed.

Lemma find_app_none {A} (p : A -> bool) (l more : list A) :
  find p l = None -> find p (l ++ more)%list = find p more.
Proof.
  induction l as [|y l IH]; simpl; auto.
  destruct (p y); [discriminate | auto].
Qed.

Lemma count_app_one {A} (p : A -> bool) (l : list A) (x : A) :
  p x = true ->
  List.length (filter p (l ++ [x])%list) = S (List.length (filter p l)).
Proof.
  intros H. rewrite filter_app, length_app; simpl. rewrite H; simpl. lia.
Qed.

Lemma lookup_merchant_more name rows more id :
  lookup_merchant name rows = Some id ->
  lookup_merchant name (rows ++ more)%list = Some id.
Proof.
  unfold lookup_merchant.
  destruct (find _ rows) as [r|] eqn:F; simpl; [|discriminate].
  intros H. now rewrite (find_app_some _ _ more _ F).
Qed.

Lemma lookup_product_more description rows more id :
  lookup_product description rows = Some id ->
  lookup_product description (rows ++ more)%list = Some id.
Proof.
  unfold lookup_product.
  destruct (find _ rows) as [r|] eqn:F; simpl; [|discriminate].
  intros H. now rewrite (find_app_some _ _ more _ F).
Qed.

Lemma lookup_merchant_new name rows id a p :
  lookup_merchant name rows = None ->
  lookup_merchant name
    (rows ++ [ {| merchant_id := id; merchant_name := name;
                  address := a; phone_number := p |} ])%list = Some id.
Proof.
  unfold lookup_merchant.
  destruct (find _ rows) as [r|] eqn:F; simpl; [discriminate|].
  intros _. rewrite (find_app_none _ _ _ F); simpl.
  now rewrite String.eqb_refl.
Qed.

Lemma lookup_product_new description rows id cat :
  lookup_product description rows = None ->
  lookup_product description
    (rows ++ [ {| product_id := id; product_description := description;
                  category := cat |} ])%list = Some id.
Proof.
  unfold lookup_product.
  destruct (find _ rows) as [r|] eqn:F; simpl; [discriminate|].
  intros _. rewrite (find_app_none _ _ _ F); simpl.
  now rewrite String.eqb_refl.
Qed.

Lemma count_merchant_created name m pr rc ri id a p :
  count_merchant name
    {| merchant := (m ++ [ {| merchant_id := id; merchant_name := name;
                              address := a; phone_number := p |} ])%list;
       product := pr; receipt := rc; receipt_item := ri |}
  = S (List.length
         (filter (fun r => String.eqb (merchant_name r) name) m)).
Proof.
  unfold count_merchant; simpl.
  apply count_app_one; simpl; apply String.eqb_refl.
Qed.

Lemma count_product_created description m pr rc ri id cat :
  count_product description
    {| merchant := m;
       product := (pr ++ [ {| product_id := id;
                              product_description := description;
                              category := cat |} ])%list;
       receipt := rc; receipt_item := ri |}
  = S (List.length
         (filter (fun r => String.eqb (product_description r) description)
                 pr)).
Proof.
  unfold count_product; simpl.
  apply count_app_one; simpl; apply String.eqb_refl.
Qed.

Section TwoCalls.

Variable fails : nat -> statement -> bool.

Lemma merchant_twice name a p a' p' c r1 c1 r2 c2 :
  nonempty name = true ->
  insert_or_get_merchant fails (Some name) a p c = (r1, c1) ->
  insert_or_get_merchant fails (Some name) a' p' c1 = (r2, c2) ->
  (forall i j, r1 = Ret (Some i) -> r2 = Ret (Some j) -> i = j)
  /\ (count_merchant name (pending c2)
      <= Nat.max 1 (count_merchant name (pending c)))%nat.
Proof.
  intros Hn H1 H2.
  destruct (merchant_call fails _ _ _ _ _ _ Hn H1) as [_ O1].
  destruct (merchant_call fails _ _ _ _ _ _ Hn H2) as [_ O2].
  destruct O1 as [R1 P1 | i1 L1 R1 P1 | L1 R1 P1 | R1 P1].
  - split; [intros i j E; congruence|].
    destruct O2 as [R2 P2 | i2 L2 R2 P2 | L2 R2 P2 | R2 P2].
    + rewrite P2, P1. lia.
    + rewrite P2, P1. lia.
    + apply lookup_merchant_count in L2.
      rewrite P2, count_merchant_created.
      unfold count_merchant in L2. rewrite L2. lia.
    + rewrite P2, P1. lia.
  - destruct O2 as [R2 P2 | i2 L2 R2 P2 | L2 R2 P2 | R2 P2].
    + split; [intros i j E; congruence|]. rewrite P2, P1. lia.
    + split; [|rewrite P2, P1; lia].
      intros i j E1 E2. rewrite P1 in L2. congruence.
    + rewrite P1 in L2. congruence.
    + split; [intros i j E; congruence|]. rewrite P2, P1. lia.
  - assert (lookup_merchant name (merchant (pending c1))
            = Some (merchant_seq c)) as L.
    { rewrite P1; simpl. now apply lookup_merchant_new. }
    assert (count_merchant name (pending c1) = 1%nat) as C1.
    { apply lookup_merchant_count in L1.
      rewrite P1, count_merchant_created.
      unfold count_merchant in L1. now rewrite L1. }
    destruct O2 as [R2 P2 | i2 L2 R2 P2 | L2 R2 P2 | R2 P2].
    + split; [intros i j E; congruence|]. rewrite P2, C1. lia.
    + split; [|rewrite P2, C1; lia].
      intros i j E1 E2. congruence.
    + congruence.
    + split; [intros i j E; congruence|]. rewrite P2, C1. lia.
  - split; [intros i j E; congruence|].
    destruct O2 as [R2 P2 | i2 L2 R2 P2 | L2 R2 P2 | R2 P2].
    + rewrite P2, P1. lia.
    + rewrite P2, P1. lia.
    + apply lookup_merchant_count in L2.
      rewrite P2, count_merchant_created.
      unfold count_merchant in L2. rewrite L2. lia.
    + rewrite P2, P1. lia.
Qed.

Lemma product_twice description cat cat' c r1 c1 r2 c2 :
  nonempty description = true ->
  insert_or_get_product fails (Some description) cat c = (r1, c1) ->
  insert_or_get_product fails (Some description) cat' c1 = (r2, c2) ->
  (forall i j, r1 = Ret (Some i) -> r2 = Ret (Some j) -> i = j)
  /\ (count_product description (pending c2)
      <= Nat.max 1 (count_product description (pending c)))%nat.
Proof.
  intros Hn H1 H2.
  destruct (product_call fails _ _ _ _ _ Hn H1) as [_ O1].
  destruct (product_call fails _ _ _ _ _ Hn H2) as [_ O2].
  destruct O1 as [R1 P1 | i1 L1 R1 P1 | L1 R1 P1 | R1 P1].
  - split; [intros i j E; congruence|].
    destruct O2 as [R2 P2 | i2 L2 R2 P2 | L2 R2 P2 | R2 P2].
    + rewrite P2, P1. lia.
    + rewrite P2, P1. lia.
    + apply lookup_product_count in L2.
      rewrite P2, count_product_created.
      unfold count_product in L2. rewrite L2. lia.
    + rewrite P2, P1. lia.
  - destruct O2 as [R2 P2 | i2 L2 R2 P2 | L2 R2 P2 | R2 P2].
    + split; [intros i j E; congruence|]. rewrite P2, P1. lia.
    + split; [|rewrite P2, P1; lia].
      intros i j E1 E2. rewrite P1 in L2. congruence.
    + rewrite P1 in L2. congruence.
    + split; [intros i j E; congruence|]. rewrite P2, P1. lia.
  - assert (lookup_product description (product (pending c1))
            = Some (product_seq c)) as L.
    { rewrite P1; simpl. now apply lookup_product_new. }
    assert (count_product description (pending c1) = 1%nat) as C1.
    { apply lookup_product_count in L1.
      rewrite P1, count_product_created.
      unfold count_product in L1. now rewrite L1. }
    destruct O2 as [R2 P2 | i2 L2 R2 P2 | L2 R2 P2 | R2 P2].
    + split; [intros i j E; congruence|]. rewrite P2, C1. lia.
    + split; [|rewrite P2, C1; lia].
      intros i j E1 E2. congruence.
    + congruence.
    + split; [intros i j E; congruence|]. rewrite P2, C1. lia.
  - split; [intros i j E; congruence|].
    destruct O2 as [R2 P2 | i2 L2 R2 P2 | L2 R2 P2 | R2 P2].
    + rewrite P2, P1. lia.
    + rewrite P2, P1. lia.
    + apply lookup_product_count in L2.
      rewrite P2, count_product_created.
      unfold count_product in L2. rewrite L2. lia.
    + rewrite P2, P1. lia.
Qed.

Lemma merchant_first name a p c :
  nonempty name = true ->
  count_merchant name (pending c) = 0%nat ->
  fails (clock c) (SelectMerchant name) = false ->
  fails (S (clock c)) (InsertMerchant name a p) = false ->
  exists c1,
    insert_or_get_merchant fails (Some name) a p c
    = (Ret (Some (merchant_seq c)), c1)
    /\ merchant (pending c1)
       = (merchant (pending c) ++
          [ {| merchant_id := merchant_seq c; merchant_name := name;
               address := a; phone_number := p |} ])%list
    /\ count_merchant name (pending c1) = 1%nat
    /\ lookup_merchant name (merchant (pending c1))
       = Some (merchant_seq c).
Proof.
  intros Hn C0 F1 F2.
  pose proof (proj2 (lookup_merchant_count _ _) C0) as L.
  unfold insert_or_get_merchant, truthy_str. rewrite Hn.
  unfold or_none, bindM, execute, first_column, ret; simpl.
  rewrite F1; simpl. rewrite L; simpl. rewrite F2; simpl.
  eexists; split; [reflexivity|]; simpl. split; [reflexivity|]. split.
  - unfold count_merchant in *; simpl.
    rewrite count_app_one by (simpl; apply String.eqb_refl).
    now rewrite C0.
  - now apply lookup_merchant_new.
Qed.

Lemma merchant_again name a p c id :
  nonempty name = true ->
  lookup_merchant name (merchant (pending c)) = Some id ->
  fails (clock c) (SelectMerchant name) = false ->
  exists c1,
    insert_or_get_merchant fails (Some name) a p c = (Ret (Some id), c1)
    /\ pending c1 = pending c /\ committed c1 = committed c.
Proof.
  intros Hn L F1.
  unfold insert_or_get_merchant, truthy_str. rewrite Hn.
  unfold or_none, bindM, execute, first_column, ret; simpl.
  rewrite F1; simpl. rewrite L; simpl.
  eexists; split; [reflexivity|]; simpl. auto.
Qed.

Lemma product_first description cat c :
  nonempty description = true ->
  count_product description (pending c) = 0%nat ->
  fails (clock c) (SelectProduct description) = false ->
  fails (S (clock c)) (InsertProduct description cat) = false ->
  exists c1,
    insert_or_get_product fails (Some description) cat c
    = (Ret (Some (product_seq c)), c1)
    /\ product (pending c1)
       = (product (pending c) ++
          [ {| product_id := product_seq c;
               product_description := description;
               category := cat |} ])%list
    /\ count_product description (pending c1) = 1%nat
    /\ lookup_product description (product (pending c1))
       = Some (product_seq c).
Proof.
  intros Hn C0 F1 F2.
  pose proof (proj2 (lookup_product_count _ _) C0) as L.
  unfold insert_or_get_product, truthy_str. rewrite Hn.
  unfold or_none, bindM, execute, first_column, ret; simpl.
  rewrite F1; simpl. rewrite L; simpl. rewrite F2; simpl.
  eexists; split; [reflexivity|]; simpl. split; [reflexivity|]. split.
  - unfold count_product in *; simpl.
    rewrite count_app_one by (simpl; apply String.eqb_refl).
    now rewrite C0.
  - now apply lookup_product_new.
Qed.

Lemma product_again description cat c id :
  nonempty description = true ->
  lookup_product description (product (pending c)) = Some id ->
  fails (clock c) (SelectProduct description) = false ->
  exists c1,
    insert_or_get_product fails (Some description) cat c
    = (Ret (Some id), c1)
    /\ pending c1 = pending c /\ committed c1 = committed c.
Proof.
  intros Hn L F1.
  unfold insert_or_get_product, truthy_str. rewrite Hn.
  unfold or_none, bindM, execute, first_column, ret; simpl.
  rewrite F1; simpl. rewrite L; simpl.
  eexists; split; [reflexivity|]; simpl. auto.
Qed.

End TwoCalls.

(** C4: [insert_or_get_merchant] and [insert_or_get_product] are
    get-or-creates on the exact name (resp. description).  For a non-empty
    key: from a state without the key, and without a storage error, the call
    inserts one row and returns its id; in every state that holds the key,
    also after further rows were appended, the call returns the stored id
    and inserts nothing; and two calls in a row that both resolve return
    the same id and leave at most one row for a key that had at most one. *)
Theorem get_or_create_idempotent (fails : nat -> statement -> bool) :
  (forall name a p c,
      nonempty name = true ->
      (count_merchant name (pending c) = 0%nat ->
       fails (clock c) (SelectMerchant name) = false ->
       fails (S (clock c)) (InsertMerchant name a p) = false ->
       exists c1,
         insert_or_get_merchant fails (Some name) a p c
         = (Ret (Some (merchant_seq c)), c1)
         /\ merchant (pending c1)
            = (merchant (pending c) ++
               [ {| merchant_id := merchant_seq c; merchant_name := name;
                    address := a; phone_number := p |} ])%list
         /\ count_merchant name (pending c1) = 1%nat
         /\ lookup_merchant name (merchant (pending c1))
            = Some (merchant_seq c))
      /\ (forall id,
             lookup_merchant name (merchant (pending c)) = Some id ->
             (forall more,
                 lookup_merchant name (merchant (pending c) ++ more)%list
                 = Some id)
             /\ (fails (clock c) (SelectMerchant name) = false ->
                 exists c1,
                   insert_or_get_merchant fails (Some name) a p c
                   = (Ret (Some id), c1)
                   /\ pending c1 = pending c /\ committed c1 = committed c))
      /\ (forall a' p' r1 c1 r2 c2,
             insert_or_get_merchant fails (Some name) a p c = (r1, c1) ->
             insert_or_get_merchant fails (Some name) a' p' c1 = (r2, c2) ->
             (forall i j, r1 = Ret (Some i) -> r2 = Ret (Some j) -> i = j)
             /\ (count_merchant name (pending c2)
                 <= Nat.max 1 (count_merchant name (pending c)))%nat))
  /\ (forall description cat c,
      nonempty description = true ->
      (count_product description (pending c) = 0%nat ->
       fails (clock c) (SelectProduct description) = false ->
       fails (S (clock c)) (InsertProduct description cat) = false ->
       exists c1,
         insert_or_get_product fails (Some description) cat c
         = (Ret (Some (product_seq c)), c1)
         /\ product (pending c1)
            = (product (pending c) ++
               [ {| product_id := product_seq c;
                    product_description := description;
                    category := cat |} ])%list
         /\ count_product description (pending c1) = 1%nat
         /\ lookup_product description (product (pending c1))
            = Some (product_seq c))
      /\ (forall id,
             lookup_product description (product (pending c)) = Some id ->
             (forall more,
                 lookup_product description (product (pending c) ++ more)%list
                 = Some id)
             /\ (fails (clock c) (SelectProduct description) = false ->
                 exists c1,
                   insert_or_get_product fails (Some description) cat c
                   = (Ret (Some id), c1)
                   /\ pending c1 = pending c /\ committed c1 = committed c))
      /\ (forall cat' r1 c1 r2 c2,
             insert_or_get_product fails (Some description) cat c = (r1, c1) ->
             insert_or_get_product fails (Some description) cat' c1
             = (r2, c2) ->
             (forall i j, r1 = Ret (Some i) -> r2 = Ret (Some j) -> i = j)
             /\ (count_product description (pending c2)
                 <= Nat.max 1 (count_product description (pending c)))%nat)).
Proof.
  split.
  - intros name a p c Hn. split; [|split].
    + now apply merchant_first.
    + intros id L. split.
      * intros more. now apply lookup_merchant_more.
      * intros F. now apply merchant_again.
    + intros a' p' r1 c1 r2 c2. now apply merchant_twice.
  - intros description cat c Hn. split; [|split].
    + now apply product_first.
    + intros id L. split.
      * intros more. now apply lookup_product_more.
      * intros F. now apply product_again.
    + intros cat' r1 c1 r2 c2. now apply product_twice.
Qed.

Lemma get_or_create_idempotent_witness :
  exists c1 c2,
    insert_or_get_merchant never (Some "TRADER JOE'S") None None fresh
    = (Ret (Some 1), c1)
    /\ insert_or_get_merchant never (Some "TRADER JOE'S") None None c1
       = (Ret (Some 1), c2)
    /\ count_merchant "TRADER JOE'S" (pending c2) = 1%nat.
Proof.
  destruct (proj1 (get_or_create_idempotent never)
              "TRADER JOE'S" None None fresh eq_refl) as [First _].
  destruct (First eq_refl eq_refl eq_refl) as (c1 & E1 & _ & C1 & L1).
  destruct (proj1 (get_or_create_idempotent never)
              "TRADER JOE'S" None None c1 eq_refl) as (_ & Again & _).
  destruct (proj2 (Again 1 L1) eq_refl) as (c2 & E2 & P2 & _).
  exists c1, c2. rewrite P2. auto.
Defined.

(** ** Ingestion *)

Lemma for_each_cons {A} (x : A) (xs : list A) (body : A -> M unit) c :
  for_each (x :: xs) body c
  = match body x c with
    | (Ret _, c') => for_each xs body c'
    | (Raise e, c') => (Raise e, c')
    end.
Proof. reflexivity. Qed.

Section Ingestion.

Variable fails : nat -> statement -> bool.

Lemma insert_receipt_try_passed rd c name d sub tx tot :
  truthy_str (Raw.merchant rd) = Some name ->
  parse_date (Py.get (Raw.date rd)) = Ret (Some d) ->
  parse_price (Py.get (Raw.subtotal rd)) = Ret sub ->
  parse_price (Py.get (Raw.tax rd)) = Ret tx ->
  parse_price (Py.get (Raw.total rd)) = Ret (Some tot) ->
  is_zero tot = false ->
  insert_receipt_try fails rd c
  = (merchant_id <- insert_or_get_merchant fails (Some name) None None ;;
     match truthy_id merchant_id with
     | None => ret false
     | Some merchant_id =>
         write_receipt fails merchant_id d sub tx tot (Raw.items rd)
     end)%db c.
Proof.
  intros Hm Hd Hs Ht Htot Hz.
  unfold insert_receipt_try, bindM at 1 2 3 4, lift.
  rewrite Hd, Hs, Ht, Htot, Hm.
  rewrite (parse_date_truthy _ d Hd).
  unfold truthy_float. rewrite Hz. reflexivity.
Qed.

Lemma insert_receipt_try_invalid rd c :
  Raw.merchant rd = None
  \/ parse_date (Py.get (Raw.date rd)) = Ret None
  \/ truthy_float match parse_price (Py.get (Raw.total rd)) with
                  | Ret r => r
                  | Raise _ => None
                  end = None ->
  insert_receipt_try fails rd c = (Ret false, c).
Proof.
  intros H.
  unfold insert_receipt_try, bindM, lift.
  destruct (parse_date_ret (Py.get (Raw.date rd))) as [dr Hd].
  destruct (parse_price_ret (Py.get (Raw.subtotal rd))) as [sub Hs].
  destruct (parse_price_ret (Py.get (Raw.tax rd))) as [tx Ht].
  destruct (parse_price_ret (Py.get (Raw.total rd))) as [tr Htot].
  rewrite Hd, Hs, Ht, Htot in *.
  destruct (truthy_str (Raw.merchant rd)) as [name|] eqn:Hm; [|reflexivity].
  destruct (truthy_str dr) as [d|] eqn:Hdd; [|reflexivity].
  destruct (truthy_float tr) as [tot|] eqn:Hz; [|reflexivity].
  destruct H as [H | [H | H]].
  - rewrite H in Hm. discriminate.
  - injection H as ->. discriminate.
  - discriminate.
Qed.





Lemma write_receipt_loop mid d sub tx tot items c :
  write_receipt fails mid d sub tx tot items c
  = (row <- execute fails (InsertReceipt mid d sub tx tot) ;;
     receipt_id <- first_column row ;;
     for_each items (insert_item fails receipt_id) ;;;
     commit fails ;;; ret true)%db c.
Proof.
  unfold write_receipt, bindM.
  destruct (execute fails (InsertReceipt mid d sub tx tot) c)
    as [[row|e] c1]; [|reflexivity].
  destruct (first_column row c1) as [[rid|e] c2]; [|reflexivity].
  destruct items; reflexivity.
Qed.






End Ingestion.

Section Decisions.

Variable fails : nat -> statement -> bool.

Lemma insert_item_values rid item c d q u tp :
  truthy_str (Raw.Description item) = Some d ->
  parse_quantity (Py.get (Raw.Quantity item)) = Ret q ->
  parse_price (Py.get (Raw.Price item)) = Ret u ->
  parse_price (Py.get (Raw.TotalPrice item)) = Ret tp ->
  insert_item fails rid item c
  = match item_values q u tp with
    | None => (Ret tt, c)
    | Some (q', u', t) => put_item fails rid d q' u' t c
    end.
Proof.
  intros Hd Hq Hu Ht. unfold insert_item. rewrite Hd.
  unfold bindM at 1 2 3, lift. rewrite Hq, Hu, Ht.
  destruct (item_values q u tp) as [[[q' u'] t]|]; reflexivity.
Qed.

Lemma insert_receipt_invalid rd c :
  Raw.merchant rd = None
  \/ parse_date (Py.get (Raw.date rd)) = Ret None
  \/ truthy_float match parse_price (Py.get (Raw.total rd)) with
                  | Ret r => r
                  | Raise _ => None
                  end = None ->
  insert_receipt fails rd c = (Ret false, c).
Proof.
  intros H. unfold insert_receipt.
  now rewrite (insert_receipt_try_invalid fails rd c H).
Qed.

End Decisions.

Lemma item_values_zero (q u tp : option float) (z : float) :
  is_zero z = true ->
  item_values (Some z) u tp = item_values None u tp
  /\ item_values q u (Some z) = item_values q u None
  /\ (forall x, is_zero x = false ->
        item_values (Some x) (Some z) tp = item_values (Some x) None tp).
Proof.
  intros Hz. unfold item_values, truthy_float. rewrite Hz.
  repeat split. intros x Hx. rewrite Hx. reflexivity.
Qed.

(** C2: a receipt without a merchant name, or whose date does not parse, or
    whose total does not parse, is refused and the connection is left
    exactly as it was: no statement was issued, so no transaction was
    opened and no row, header or item, was written. *)
Theorem insert_receipt_invalid_writes_nothing
  (fails : nat -> statement -> bool) (rd : Raw.receipt) (c : connection) :
  Raw.merchant rd = None
  \/ parse_date (Py.get (Raw.date rd)) = Ret None
  \/ parse_price (Py.get (Raw.total rd)) = Ret None ->
  insert_receipt fails rd c = (Ret false, c).
Proof.
  intros H. apply insert_receipt_invalid.
  destruct H as [H | [H | H]]; auto. right; right. now rewrite H.
Qed.

Lemma insert_receipt_invalid_writes_nothing_witness :
  parse_price (Py.get (Raw.total no_total)) = Ret None
  /\ insert_receipt never no_total fresh = (Ret false, fresh).
Proof.
  split; [reflexivity|].
  apply insert_receipt_invalid_writes_nothing.
  right; right. reflexivity.
Defined.

(** C6: a number that parses to zero is treated as an absent one wherever
    [insert_receipt] decides on it: a receipt whose total is zero is refused
    and nothing is written; an item whose total price is zero is passed
    over; a zero unit price is replaced by total price / quantity when the
    quantity is present and not zero; a zero quantity becomes the default 1
    and no unit price is derived. *)
Theorem zero_is_absent (fails : nat -> statement -> bool) :
  (forall rd c z,
      parse_price (Py.get (Raw.total rd)) = Ret (Some z) ->
      is_zero z = true ->
      insert_receipt fails rd c = (Ret false, c))
  /\ (forall rid item c z,
         parse_price (Py.get (Raw.TotalPrice item)) = Ret (Some z) ->
         is_zero z = true ->
         insert_item fails rid item c = (Ret tt, c))
  /\ (forall rid item c d q z t,
         truthy_str (Raw.Description item) = Some d ->
         parse_quantity (Py.get (Raw.Quantity item)) = Ret (Some q) ->
         is_zero q = false ->
         parse_price (Py.get (Raw.Price item)) = Ret (Some z) ->
         is_zero z = true ->
         parse_price (Py.get (Raw.TotalPrice item)) = Ret (Some t) ->
         is_zero t = false ->
         insert_item fails rid item c
         = put_item fails rid d (Real q) (Some (Float.div t q)) t c)
  /\ (forall rid item c d z u t,
         truthy_str (Raw.Description item) = Some d ->
         parse_quantity (Py.get (Raw.Quantity item)) = Ret (Some z) ->
         is_zero z = true ->
         parse_price (Py.get (Raw.Price item)) = Ret u ->
         parse_price (Py.get (Raw.TotalPrice item)) = Ret (Some t) ->
         is_zero t = false ->
         insert_item fails rid item c = put_item fails rid d (Int 1) u t c)
  /\ (forall q u tp z,
         is_zero z = true ->
         item_values (Some z) u tp = item_values None u tp
         /\ item_values q u (Some z) = item_values q u None
         /\ (forall x, is_zero x = false ->
               item_values (Some x) (Some z) tp
               = item_values (Some x) None tp)).
Proof.
  repeat apply conj.
  - intros rd c z Ht Hz. apply insert_receipt_invalid.
    right; right. rewrite Ht. simpl. now rewrite Hz.
  - intros rid item c z Ht Hz.
    destruct (truthy_str (Raw.Description item)) as [d|] eqn:Hd.
    + destruct (parse_quantity_ret (Py.get (Raw.Quantity item))) as [q Hq].
      destruct (parse_price_ret (Py.get (Raw.Price item))) as [u Hu].
      rewrite (insert_item_values fails rid item c d q u _ Hd Hq Hu Ht).
      unfold item_values, truthy_float at 1. now rewrite Hz.
    + unfold insert_item. now rewrite Hd.
  - intros rid item c d q z t Hd Hq Hqz Hu Hz Ht Htz.
    rewrite (insert_item_values fails rid item c d _ _ _ Hd Hq Hu Ht).
    unfold item_values, truthy_float. now rewrite Htz, Hz, Hqz.
  - intros rid item c d z u t Hd Hq Hz Hu Ht Htz.
    rewrite (insert_item_values fails rid item c d _ _ _ Hd Hq Hu Ht).
    unfold item_values. cbn [truthy_float]. rewrite Htz, Hz.
    destruct (truthy_float u); reflexivity.
  - intros q u tp z. apply item_values_zero.
Qed.

Lemma zero_is_absent_witness :
  insert_receipt never zero_total fresh = (Ret false, fresh)
  /\ insert_item never 1 free_item fresh = (Ret tt, fresh)
  /\ insert_item never 1 milk_zero_price fresh
     = put_item never 1 "MILK" (Real (of_decimal 2 0))
                (Some (of_decimal 2 0)) (of_decimal 4 0) fresh
  /\ insert_item never 1 milk_zero_quantity fresh
     = put_item never 1 "MILK" (Int 1) (Some (of_decimal 4 0))
                (of_decimal 4 0) fresh.
Proof.
  destruct (zero_is_absent never) as (Z1 & Z2 & Z3 & Z4 & _).
  split; [|split; [|split]].
  - apply (Z1 zero_total fresh zero); reflexivity.
  - apply (Z2 1 free_item fresh zero); reflexivity.
  - rewrite (Z3 1 milk_zero_price fresh "MILK" (of_decimal 2 0) zero
               (of_decimal 4 0)); reflexivity.
  - rewrite (Z4 1 milk_zero_quantity fresh "MILK" zero
               (Some (of_decimal 4 0)) (of_decimal 4 0)); reflexivity.
Defined.

(** C3: for an accepted line item the unit price is derived before the
    quantity is defaulted, and only from a quantity that is present and not
    zero: an absent unit price with such a quantity becomes total price /
    quantity; an absent quantity becomes 1 afterwards and the unit price
    stays as parsed, absent if it was absent.  MILK with quantity 2 and
    total 4.00 is stored with unit price 2.00; BANANAS with total 0.99 alone
    is stored with quantity 1, no unit price and total price 0.99.  The
    quotient is the correctly rounded one: EGGS with quantity 3 and total
    7.50 is stored with unit price 2.5, 0.99 by 4 gives 0.2475, and 1 by 3
    the double nearest to a third. *)
Theorem unit_price_derivation :
  (forall q u tp t,
      truthy_float tp = Some t ->
      exists q' u',
        item_values q u tp = Some (q', u', t)
        /\ (u = None -> forall x, q = Some x -> is_zero x = false ->
            u' = Some (Float.div t x) /\ q' = Real x)
        /\ (q = None -> q' = Int 1 /\ u' = u)
        /\ (u' <> u -> exists x, q = Some x /\ is_zero x = false
                                 /\ u' = Some (Float.div t x)))
  /\ (forall fails rid item c d q u tp q' u' t,
         truthy_str (Raw.Description item) = Some d ->
         parse_quantity (Py.get (Raw.Quantity item)) = Ret q ->
         parse_price (Py.get (Raw.Price item)) = Ret u ->
         parse_price (Py.get (Raw.TotalPrice item)) = Ret tp ->
         item_values q u tp = Some (q', u', t) ->
         insert_item fails rid item c = put_item fails rid d q' u' t c)
  /\ map values
         (receipt_item
            (committed
               (snd (insert_receipt never (trader_joes [milk; bananas])
                                    fresh))))
     = [ (Real (of_decimal 2 0), Some (of_decimal 200 2), of_decimal 400 2);
         (Int 1, None, of_decimal 99 2) ]
  /\ nearest (of_decimal 200 2) 2 1 = true
  /\ nearest (of_decimal 400 2) 4 1 = true
  /\ nearest (of_decimal 99 2) 99 100 = true
  /\ map values
         (receipt_item
            (committed
               (snd (insert_receipt never (trader_joes [eggs]) fresh))))
     = [ (Real (of_decimal 3 0), Some (of_decimal 25 1), of_decimal 750 2) ]
  /\ Float.div (of_decimal 750 2) (of_decimal 3 0) = of_decimal 25 1
  /\ Float.div (of_decimal 99 2) (of_decimal 4 0) = of_decimal 2475 4
  /\ Float.div (of_decimal 400 2) (of_decimal 2 0) = of_decimal 2 0
  /\ nearest (Float.div (of_decimal 1 0) (of_decimal 3 0)) 1 3 = true
  /\ nearest (Float.div (of_decimal 2 0) (of_decimal 7 0)) 2 7 = true.
Proof.
  split; [|split].
  - intros q u tp t Ht. unfold item_values. rewrite Ht.
    eexists _, _. split; [reflexivity|]. split; [|split].
    + intros -> x -> Hx. unfold truthy_float. rewrite Hx. auto.
    + intros ->. simpl. destruct (truthy_float u); auto.
    + intros Hne.
      destruct (truthy_float u) eqn:Hu; [now elim Hne|].
      destruct q as [x|]; simpl in *; [|now elim Hne].
      destruct (is_zero x) eqn:Hx; [now elim Hne|]. eauto.
  - intros fails rid item c d q u tp q' u' t Hd Hq Hu Ht Hv.
    rewrite (insert_item_values fails rid item c d q u tp Hd Hq Hu Ht).
    now rewrite Hv.
  - repeat split; vm_compute; reflexivity.
Qed.

Lemma unit_price_derivation_witness :
  truthy_float (Some (of_decimal 750 2)) = Some (of_decimal 750 2)
  /\ item_values (Some (of_decimal 3 0)) None (Some (of_decimal 750 2))
     = Some (Real (of_decimal 3 0), Some (of_decimal 25 1), of_decimal 750 2)
  /\ item_values None None (Some (of_decimal 99 2))
     = Some (Int 1, None, of_decimal 99 2).
Proof.
  split; [reflexivity|]. split.
  - destruct (proj1 unit_price_derivation (Some (of_decimal 3 0)) None
                (Some (of_decimal 750 2)) (of_decimal 750 2) eq_refl)
      as (q' & u' & E & D & _).
    destruct (D eq_refl (of_decimal 3 0) eq_refl eq_refl) as [-> ->].
    exact E.
  - destruct (proj1 unit_price_derivation None None
                (Some (of_decimal 99 2)) (of_decimal 99 2) eq_refl)
      as (q' & u' & E & _ & D & _).
    destruct (D eq_refl) as [-> ->]. exact E.
Defined.

Section Outcome.

Variable fails : nat -> statement -> bool.

Lemma insert_receipt_passed rd c name d sub tx tot mid c1 :
  truthy_str (Raw.merchant rd) = Some name ->
  parse_date (Py.get (Raw.date rd)) = Ret (Some d) ->
  parse_price (Py.get (Raw.subtotal rd)) = Ret sub ->
  parse_price (Py.get (Raw.tax rd)) = Ret tx ->
  parse_price (Py.get (Raw.total rd)) = Ret (Some tot) ->
  is_zero tot = false ->
  insert_or_get_merchant fails (Some name) None None c
  = (Ret (Some mid), c1) ->
  mid <> 0 ->
  insert_receipt_try fails rd c
  = write_receipt fails mid d sub tx tot (Raw.items rd) c1
  /\ committed c1 = committed c.
Proof.
  intros Hm Hd Hs Ht Htot Hz Hmid Hne. split.
  - rewrite (insert_receipt_try_passed fails rd c name d sub tx tot)
      by assumption.
    unfold bindM. rewrite Hmid. unfold truthy_id.
    destruct (Z.eqb_spec mid 0); [contradiction | reflexivity].
  - assert (nonempty name = true) as Hn.
    { unfold truthy_str in Hm.
      destruct (Raw.merchant rd) as [x|]; [|discriminate].
      destruct (nonempty x) eqn:N; [|discriminate]. now injection Hm as <-. }
    now destruct (merchant_call fails _ _ _ _ _ _ Hn Hmid).
Qed.




(** The flag of the failed transaction: the resolvers and the loop never
    clear it, a resolver that returns nothing for a key has set it, and
    while no statement raises it stays as it is. *)
Lemma product_flag pd cat c r c' :
  insert_or_get_product fails pd cat c = (r, c') ->
  (failed c = true -> failed c' = true)
  /\ (no_failure fails -> failed c' = failed c /\ exists x, r = Ret x)
  /\ (truthy_str pd <> None -> r = Ret None -> failed c' = true).
Proof.
  unfold insert_or_get_product.
  destruct (truthy_str pd) as [description|].
  2:{ intros H; injection H as <- <-.
      split; [auto|]. split; [eauto|]. intros N; now elim N. }
  unfold or_none, bindM, execute, first_column, ret; simpl.
  destruct (fails (clock c) (SelectProduct description)) eqn:F1; simpl.
  { destruct (has_nul description); intros H; injection H as <- <-;
      (split; [auto|]); (split; [intros W; rewrite W in F1; discriminate|]);
      intros _ E; try discriminate E; reflexivity. }
  destruct (lookup_product description (product (pending c))) as [id|];
    simpl.
  { intros H; injection H as <- <-. split; [auto|]. split; [eauto|].
    intros _ E; discriminate E. }
  destruct (fails (S (clock c)) (InsertProduct description cat)) eqn:F2;
    simpl.
  { destruct (has_nul description || opt_nul cat);
      intros H; injection H as <- <-;
      (split; [auto|]); (split; [intros W; rewrite W in F2; discriminate|]);
      intros _ E; try discriminate E; reflexivity. }
  intros H; injection H as <- <-. split; [auto|]. split; [eauto|].
  intros _ E; discriminate E.
Qed.

Lemma merchant_flag mn a p c r c' :
  insert_or_get_merchant fails mn a p c = (r, c') ->
  (failed c = true -> failed c' = true)
  /\ (no_failure fails -> failed c' = failed c /\ exists x, r = Ret x)
  /\ (forall id, r = Ret (Some id) -> failed c' = failed c).
Proof.
  unfold insert_or_get_merchant.
  destruct (truthy_str mn) as [name|].
  2:{ intros H; injection H as <- <-.
      split; [auto|]. split; [eauto|]. auto. }
  unfold or_none, bindM, execute, first_column, ret; simpl.
  destruct (fails (clock c) (SelectMerchant name)) eqn:F1; simpl.
  { destruct (has_nul name); intros H; injection H as <- <-;
      (split; [auto|]); (split; [intros W; rewrite W in F1; discriminate|]);
      intros id E; discriminate E. }
  destruct (lookup_merchant name (merchant (pending c))) as [id|]; simpl.
  { intros H; injection H as <- <-. split; [auto|]. split; [eauto|]. auto. }
  destruct (fails (S (clock c)) (InsertMerchant name a p)) eqn:F2; simpl.
  { destruct (has_nul name || opt_nul a || opt_nul p);
      intros H; injection H as <- <-;
      (split; [auto|]); (split; [intros W; rewrite W in F2; discriminate|]);
      intros id E; discriminate E. }
  intros H; injection H as <- <-. split; [auto|]. split; [eauto|]. auto.
Qed.

Lemma put_item_flag rid d q u t c r c' :
  put_item fails rid d q u t c = (r, c') ->
  (failed c = true -> failed c' = true)
  /\ (no_failure fails -> failed c' = failed c /\ r = Ret tt).
Proof.
  unfold put_item, bindM.
  destruct (insert_or_get_product fails (Some d) None c) as [r1 c1] eqn:E.
  destruct (product_flag _ _ _ _ _ E) as (M & W & _).
  destruct r1 as [x|e].
  2:{ intros H; injection H as <- <-. split; [exact M|].
      intros N. destruct (W N) as [_ [x X]]. discriminate X. }
  destruct (truthy_id x) as [pid|].
  - unfold execute.
    destruct (fails (clock c1) (InsertReceiptItem rid pid q u t)) eqn:F;
      simpl; intros H; injection H as <- <-; simpl.
    + split; [auto|]. intros N. rewrite N in F. discriminate.
    + split; [exact M|]. intros N. split; [apply (W N) | reflexivity].
  - intros H; injection H as <- <-. split; [exact M|].
    intros N. split; [apply (W N) | reflexivity].
Qed.

Lemma insert_item_flag rid item c r c' :
  insert_item fails rid item c = (r, c') ->
  (failed c = true -> failed c' = true)
  /\ (no_failure fails -> failed c' = failed c /\ r = Ret tt).
Proof.
  unfold insert_item.
  destruct (truthy_str (Raw.Description item)) as [d|].
  - unfold bindM at 1 2 3, lift.
    destruct (parse_quantity_ret (Py.get (Raw.Quantity item))) as [q ->].
    destruct (parse_price_ret (Py.get (Raw.Price item))) as [u ->].
    destruct (parse_price_ret (Py.get (Raw.TotalPrice item))) as [t ->].
    destruct (item_values q u t) as [[[q' u'] t']|].
    + apply put_item_flag.
    + intros H; injection H as <- <-. auto.
  - intros H; injection H as <- <-. auto.
Qed.

Lemma for_each_flag rid items c r c' :
  for_each items (insert_item fails rid) c = (r, c') ->
  (failed c = true -> failed c' = true)
  /\ (no_failure fails -> failed c' = failed c /\ r = Ret tt).
Proof.
  revert c. induction items as [|item items IH]; intros c.
  - intros H; injection H as <- <-. auto.
  - rewrite for_each_cons.
    destruct (insert_item fails rid item c) as [r1 c1] eqn:E.
    destruct (insert_item_flag _ _ _ _ _ E) as (M & W).
    destruct r1 as [[]|e].
    + intros H. destruct (IH _ H) as (M' & W'). split; [auto|].
      intros N. destruct (W N) as [F _]. destruct (W' N) as [F' R].
      split; [congruence | exact R].
    + intros H; injection H as <- <-. split; [exact M|].
      intros N. destruct (W N) as [_ R]. discriminate R.
Qed.



End Outcome.








(** ** Invariants of the store *)

Lemma extends_refl (t : tables) : extends t t.
Proof. repeat split; exists []; now rewrite app_nil_r. Qed.

Lemma extends_trans (t1 t2 t3 : tables) :
  extends t1 t2 -> extends t2 t3 -> extends t1 t3.
Proof.
  intros ([m1 M1] & [p1 P1] & [r1 R1] & [i1 I1])
         ([m2 M2] & [p2 P2] & [r2 R2] & [i2 I2]).
  repeat split.
  - exists (m1 ++ m2)%list. now rewrite M2, M1, app_assoc.
  - exists (p1 ++ p2)%list. now rewrite P2, P1, app_assoc.
  - exists (r1 ++ r2)%list. now rewrite R2, R1, app_assoc.
  - exists (i1 ++ i2)%list. now rewrite I2, I1, app_assoc.
Qed.

Lemma unique_keys_extends (t t' : tables) :
  extends t t' -> unique_keys t' -> unique_keys t.
Proof.
  intros ([m M] & [p P] & _) [U1 U2]. rewrite M in U1. rewrite P in U2.
  rewrite map_app in U1, U2. split; eapply NoDup_app_remove_r; eauto.
Qed.

Lemma advance_refl (c : connection) : advance c c.
Proof.
  split; [reflexivity|]. split; [apply extends_refl|]. split; auto.
Qed.

Lemma advance_trans (c1 c2 c3 : connection) :
  advance c1 c2 -> advance c2 c3 -> advance c1 c3.
Proof.
  intros (A1 & A2 & A3 & A4) (B1 & B2 & B3 & B4).
  split; [congruence|]. split; [eapply extends_trans; eauto|].
  split; auto.
Qed.

Lemma advance_issue (c : connection) : advance c (issue c).
Proof.
  unfold advance. split; [reflexivity|]. split; [apply extends_refl|].
  split; intros H; exact H.
Qed.

Lemma advance_refuse (c : connection) : advance c (refuse c).
Proof.
  unfold advance. split; [reflexivity|]. split; [apply extends_refl|].
  split; intros H; exact H.
Qed.

Lemma NoDup_snoc {A} (l : list A) (x : A) :
  NoDup l -> ~ In x l -> NoDup (l ++ [x])%list.
Proof.
  induction l as [|y l IH]; simpl; intros N H.
  - constructor; [tauto | constructor].
  - inversion N as [|? ? Hy Nl]; subst. constructor.
    + rewrite in_app_iff; simpl. intuition congruence.
    + apply IH; tauto.
Qed.

Lemma lookup_merchant_absent name rows :
  lookup_merchant name rows = None -> ~ In name (map merchant_name rows).
Proof.
  unfold lookup_merchant. induction rows as [|r rows IH]; simpl; [tauto|].
  destruct (String.eqb_spec (merchant_name r) name) as [E|E];
    [discriminate | intuition].
Qed.

Lemma lookup_product_absent description rows :
  lookup_product description rows = None ->
  ~ In description (map product_description rows).
Proof.
  unfold lookup_product. induction rows as [|r rows IH]; simpl; [tauto|].
  destruct (String.eqb_spec (product_description r) description) as [E|E];
    [discriminate | intuition].
Qed.

Section Advance.

Variable fails : nat -> statement -> bool.

Lemma merchant_advance mn a p c r c' :
  insert_or_get_merchant fails mn a p c = (r, c') ->
  advance c c' /\ (r = Raise ValueError \/ exists x, r = Ret x).
Proof.
  unfold insert_or_get_merchant.
  destruct (truthy_str mn) as [name|].
  2:{ intros H; injection H as <- <-. split; [apply advance_refl | eauto]. }
  unfold or_none, bindM, execute, first_column, ret; simpl.
  destruct (fails (clock c) (SelectMerchant name)); simpl.
  { destruct (has_nul name); intros H; injection H as <- <-.
    - split; [apply advance_refl | auto].
    - split; [apply advance_refuse | eauto]. }
  destruct (lookup_merchant name (merchant (pending c))) as [id|] eqn:L; simpl.
  { intros H; injection H as <- <-. split; [apply advance_issue | eauto]. }
  destruct (fails (S (clock c)) (InsertMerchant name a p)); simpl.
  { destruct (has_nul name || opt_nul a || opt_nul p);
      intros H; injection H as <- <-.
    - split; [apply advance_issue | auto].
    - split; [|eauto].
      eapply advance_trans; [apply advance_issue|].
      apply (advance_refuse (issue c)). }
  intros H; injection H as <- <-.
  split; [|eauto]. split; [reflexivity|]. split; [|split].
  - repeat split; simpl; try (exists []; now rewrite app_nil_r);
      eexists; reflexivity.
  - intros [U1 U2]. split; simpl; [|exact U2].
    rewrite map_app; simpl. apply NoDup_snoc; [exact U1|].
    now apply lookup_merchant_absent.
  - intros (S1 & S2 & F1 & F2). repeat split; simpl; auto; [lia|].
    apply Forall_app. split; [exact F1|]. constructor; [exact S1|constructor].
Qed.

Lemma product_advance pd cat c r c' :
  insert_or_get_product fails pd cat c = (r, c') ->
  advance c c' /\ (r = Raise ValueError \/ exists x, r = Ret x).
Proof.
  unfold insert_or_get_product.
  destruct (truthy_str pd) as [description|].
  2:{ intros H; injection H as <- <-. split; [apply advance_refl | eauto]. }
  unfold or_none, bindM, execute, first_column, ret; simpl.
  destruct (fails (clock c) (SelectProduct description)); simpl.
  { destruct (has_nul description); intros H; injection H as <- <-.
    - split; [apply advance_refl | auto].
    - split; [apply advance_refuse | eauto]. }
  destruct (lookup_product description (product (pending c))) as [id|] eqn:L;
    simpl.
  { intros H; injection H as <- <-. split; [apply advance_issue | eauto]. }
  destruct (fails (S (clock c)) (InsertProduct description cat)); simpl.
  { destruct (has_nul description || opt_nul cat);
      intros H; injection H as <- <-.
    - split; [apply advance_issue | auto].
    - split; [|eauto].
      eapply advance_trans; [apply advance_issue|].
      apply (advance_refuse (issue c)). }
  intros H; injection H as <- <-.
  split; [|eauto]. split; [reflexivity|]. split; [|split].
  - repeat split; simpl; try (exists []; now rewrite app_nil_r);
      eexists; reflexivity.
  - intros [U1 U2]. split; simpl; [exact U1|].
    rewrite map_app; simpl. apply NoDup_snoc; [exact U2|].
    now apply lookup_product_absent.
  - intros (S1 & S2 & F1 & F2). repeat split; simpl; auto; [lia|].
    apply Forall_app. split; [exact F2|]. constructor; [exact S2|constructor].
Qed.

End Advance.

Lemma lookup_product_positive description rows id :
  Forall (fun r => 0 < product_id r) rows ->
  lookup_product description rows = Some id -> 0 < id.
Proof.
  unfold lookup_product. intros F.
  destruct (find _ rows) as [r|] eqn:E; simpl; [|discriminate].
  intros H; injection H as <-.
  apply find_some in E. rewrite Forall_forall in F. apply F, E.
Qed.

Lemma lookup_merchant_positive name rows id :
  Forall (fun r => 0 < merchant_id r) rows ->
  lookup_merchant name rows = Some id -> 0 < id.
Proof.
  unfold lookup_merchant. intros F.
  destruct (find _ rows) as [r|] eqn:E; simpl; [|discriminate].
  intros H; injection H as <-.
  apply find_some in E. rewrite Forall_forall in F. apply F, E.
Qed.

Lemma row_of_more rid products more item row :
  row_of rid products item row ->
  row_of rid (products ++ more)%list item row.
Proof.
  intros (d & q & u & tp & H1 & H2 & H3 & H4 & H5 & H6 & H7).
  exists d, q, u, tp. repeat split; auto.
  now apply lookup_product_more.
Qed.

Lemma rows_of_more rid products more items rows :
  rows_of rid products items rows ->
  rows_of rid (products ++ more)%list items rows.
Proof.
  induction 1; [constructor | now constructor |].
  apply rows_keep; auto. now apply row_of_more.
Qed.

Lemma rows_of_length rid products items rows :
  rows_of rid products items rows ->
  (List.length rows <= List.length (filter accepted items))%nat.
Proof.
  induction 1 as [|item items rows _ IH|item items row rows R _ IH]; simpl.
  - lia.
  - destruct (accepted item); simpl; lia.
  - assert (accepted item = true) as ->; [|simpl; lia].
    destruct R as (d & q & u & tp & H1 & H2 & H3 & H4 & H5 & _).
    unfold accepted. now rewrite H1, H2, H3, H4, H5.
Qed.

Section Rows.

Variable fails : nat -> statement -> bool.

(** What the insert of one line-item row can do. *)
Lemma item_insert_cases rid pid q u t c r c' :
  execute fails (InsertReceiptItem rid pid q u t) c = (r, c') ->
  advance c c'
  /\ merchant (pending c') = merchant (pending c)
  /\ product (pending c') = product (pending c)
  /\ receipt (pending c') = receipt (pending c)
  /\ ((r = Raise DatabaseError
       /\ receipt_item (pending c') = receipt_item (pending c))
      \/ (r = Ret None
          /\ receipt_item (pending c')
             = (receipt_item (pending c) ++
                [ {| receipt_item_id := receipt_item_seq c;
                     item_receipt_id := rid; item_product_id := pid;
                     quantity := q; unit_price := u;
                     total_price := t |} ])%list)).
Proof.
  unfold execute.
  destruct (fails (clock c) (InsertReceiptItem rid pid q u t));
    cbn [unquotable]; intros H; injection H as <- <-.
  - split; [apply advance_refuse|]. simpl.
    split; [reflexivity|]. split; [reflexivity|]. split; [reflexivity|].
    left; auto.
  - split; [|simpl; split; [reflexivity|]; split; [reflexivity|];
              split; [reflexivity|]; right; auto].
    split; [reflexivity|]. split; [|split].
    + repeat split; simpl; try (exists []; now rewrite app_nil_r);
        eexists; reflexivity.
    + intros U; exact U.
    + intros P; exact P.
Qed.

(** What [put_item] can do: pass the item over, insert its row, or raise
    the storage error of the insert or the [ValueError] of the
    description. *)
Lemma put_item_rows rid d q u t c r c' :
  put_item fails rid d q u t c = (r, c') ->
  advance c c'
  /\ merchant (pending c') = merchant (pending c)
  /\ receipt (pending c') = receipt (pending c)
  /\ ((receipt_item (pending c') = receipt_item (pending c)
       /\ (r = Ret tt \/ exists e, r = Raise e))
      \/ (exists iid pid,
             r = Ret tt
             /\ receipt_item (pending c')
                = (receipt_item (pending c) ++
                   [ {| receipt_item_id := iid; item_receipt_id := rid;
                        item_product_id := pid; quantity := q;
                        unit_price := u; total_price := t |} ])%list
             /\ lookup_product d (product (pending c')) = Some pid)).
Proof.
  unfold put_item, bindM.
  destruct (insert_or_get_product fails (Some d) None c) as [r1 c1] eqn:E.
  destruct (product_advance fails _ _ _ _ _ E) as [A1 R1].
  assert (merchant (pending c1) = merchant (pending c)
          /\ receipt (pending c1) = receipt (pending c)
          /\ receipt_item (pending c1) = receipt_item (pending c)
          /\ forall pid, r1 = Ret (Some pid) ->
                         lookup_product d (product (pending c1)) = Some pid)
    as (K1 & K2 & K3 & K4).
  { destruct (nonempty d) eqn:Hn.
    - destruct (product_call fails _ _ _ _ _ Hn E) as [_ O].
      destruct O as [R P | i L R P | L R P | R P]; rewrite P; simpl;
        repeat split; auto; intros pid Hx; try congruence.
      rewrite R in Hx. injection Hx as <-. now apply lookup_product_new.
    - unfold insert_or_get_product, truthy_str in E. rewrite Hn in E.
      injection E as <- <-. repeat split; auto. discriminate. }
  destruct R1 as [-> | [x ->]].
  { intros H; injection H as <- <-.
    split; [exact A1|]. split; [exact K1|]. split; [exact K2|].
    left. split; eauto. }
  destruct (truthy_id x) as [pid|] eqn:T.
  - destruct (execute fails (InsertReceiptItem rid pid q u t) c1)
      as [r2 c2] eqn:E2.
    destruct (item_insert_cases _ _ _ _ _ _ _ _ E2)
      as (A2 & J1 & J2 & J3 & [[-> J4] | [-> J4]]);
      intros H; injection H as <- <-.
    + split; [eapply advance_trans; eauto|].
      split; [congruence|]. split; [congruence|].
      left. split; [congruence | eauto].
    + split; [eapply advance_trans; eauto|].
      split; [congruence|]. split; [congruence|].
      right. exists (receipt_item_seq c1), pid.
      split; [reflexivity|]. split; [now rewrite J4, K3|].
      rewrite J2. apply K4.
      unfold truthy_id in T. destruct x as [i|]; [|discriminate].
      destruct (i =? 0); [discriminate | now injection T as <-].
  - intros H; injection H as <- <-.
    split; [exact A1|]. split; [exact K1|]. split; [exact K2|].
    left. split; auto.
Qed.

(** What one turn of the loop can do. *)
Lemma insert_item_rows rid item c r c' :
  insert_item fails rid item c = (r, c') ->
  advance c c'
  /\ merchant (pending c') = merchant (pending c)
  /\ receipt (pending c') = receipt (pending c)
  /\ ((receipt_item (pending c') = receipt_item (pending c)
       /\ (r = Ret tt \/ exists e, r = Raise e))
      \/ (exists row,
             r = Ret tt
             /\ receipt_item (pending c')
                = (receipt_item (pending c) ++ [row])%list
             /\ row_of rid (product (pending c')) item row)).
Proof.
  destruct (truthy_str (Raw.Description item)) as [d|] eqn:Hd.
  2:{ unfold insert_item. rewrite Hd. intros H; injection H as <- <-.
      split; [apply advance_refl|]. auto 6. }
  destruct (parse_quantity_ret (Py.get (Raw.Quantity item))) as [q Hq].
  destruct (parse_price_ret (Py.get (Raw.Price item))) as [u Hu].
  destruct (parse_price_ret (Py.get (Raw.TotalPrice item))) as [tp Ht].
  rewrite (insert_item_values fails rid item c d q u tp Hd Hq Hu Ht).
  destruct (item_values q u tp) as [[[q' u'] t]|] eqn:V.
  2:{ intros H; injection H as <- <-.
      split; [apply advance_refl|]. auto 6. }
  intros H. apply put_item_rows in H.
  destruct H as (A & K1 & K2 & [K | (iid & pid & -> & K3 & K4)]).
  - auto.
  - split; [exact A|]. split; [exact K1|]. split; [exact K2|].
    right. eexists. split; [reflexivity|]. split; [exact K3|].
    exists d, q, u, tp. simpl. repeat split; auto.
Qed.

(** What the loop can do: the rows it adds are rows of some of the items,
    in their order. *)
Lemma for_each_rows rid items c r c' :
  for_each items (insert_item fails rid) c = (r, c') ->
  advance c c'
  /\ merchant (pending c') = merchant (pending c)
  /\ receipt (pending c') = receipt (pending c)
  /\ (r = Ret tt \/ exists e, r = Raise e)
  /\ exists rows,
      receipt_item (pending c') = (receipt_item (pending c) ++ rows)%list
      /\ rows_of rid (product (pending c')) items rows.
Proof.
  revert c. induction items as [|item items IH]; intros c.
  - intros H; injection H as <- <-.
    split; [apply advance_refl|]. repeat split; auto.
    exists []. split; [now rewrite app_nil_r | constructor].
  - rewrite for_each_cons.
    destruct (insert_item fails rid item c) as [r1 c1] eqn:E.
    apply insert_item_rows in E.
    destruct E as (A & K1 & K2 & K).
    destruct r1 as [[]|e].
    + intros H. apply IH in H.
      destruct H as (A' & J1 & J2 & J3 & rows & J4 & J5).
      split; [eapply advance_trans; eauto|].
      split; [congruence|]. split; [congruence|]. split; [exact J3|].
      destruct K as [[K3 _] | (row & _ & K3 & K4)].
      * exists rows. split; [congruence | now constructor].
      * exists (row :: rows). split.
        -- rewrite J4, K3, <- app_assoc. reflexivity.
        -- apply rows_keep; auto.
           destruct A' as (_ & (_ & [more P] & _) & _).
           rewrite P. now apply row_of_more.
    + intros H; injection H as <- <-.
      destruct K as [[K3 _] | (row & K4 & _)]; try discriminate.
      split; [exact A|]. split; [exact K1|]. split; [exact K2|].
      split; [right; eauto|].
      exists []. split; [now rewrite app_nil_r|].
      apply rows_skip. clear. induction items; constructor; auto.
Qed.

End Rows.

Lemma truthy_str_some x s : truthy_str x = Some s -> x = Some s.
Proof.
  unfold truthy_str. destruct x as [y|]; [|discriminate].
  destruct (nonempty y); [|discriminate]. congruence.
Qed.

Lemma truthy_str_nonempty x s : truthy_str x = Some s -> nonempty s = true.
Proof.
  unfold truthy_str. destruct x as [y|]; [|discriminate].
  destruct (nonempty y) eqn:N; [|discriminate]. congruence.
Qed.

Lemma truthy_float_some x f :
  truthy_float x = Some f -> x = Some f /\ is_zero f = false.
Proof.
  unfold truthy_float. destruct x as [y|]; [|discriminate].
  destruct (is_zero y) eqn:N; [discriminate|].
  intros H; injection H as <-. auto.
Qed.

Lemma truthy_id_some x i : truthy_id x = Some i -> x = Some i /\ i <> 0.
Proof.
  unfold truthy_id. destruct x as [y|]; [|discriminate].
  destruct (Z.eqb_spec y 0); [discriminate|].
  intros H; injection H as <-. auto.
Qed.

Section Cases.

Variable fails : nat -> statement -> bool.

(** What [write_receipt] can do, row by row: raise, commit a transaction
    that is in the failed state, which stores nothing, or commit the header
    and the rows. *)
Lemma write_receipt_rows mid d sub tx tot items c r c' :
  write_receipt fails mid d sub tx tot items c = (r, c') ->
  ((exists e, r = Raise e) /\ advance c c')
  \/ (r = Ret true
      /\ exists c2, advance c c2 /\ c' = rolled_back (issue c2))
  \/ (r = Ret true
      /\ exists c2 rows,
          advance c c2 /\ committed_from c2 c'
          /\ merchant (pending c2) = merchant (pending c)
          /\ receipt (pending c2)
             = (receipt (pending c) ++ [header c mid d sub tx tot])%list
          /\ receipt_item (pending c2)
             = (receipt_item (pending c) ++ rows)%list
          /\ rows_of (receipt_seq c) (product (pending c2)) items rows).
Proof.
  rewrite write_receipt_loop. unfold bindM at 1, execute.
  destruct (fails (clock c) (InsertReceipt mid d sub tx tot)).
  { destruct (unquotable _); intros H; injection H as <- <-; left.
    - split; [eauto | apply advance_refl].
    - split; [eauto | apply advance_refuse]. }
  cbn [run first_column]. unfold bindM at 1, ret at 1.
  set (c1 := {| committed := _ |}).
  assert (advance c c1) as A1.
  { split; [reflexivity|]. split; [|split; intros H; exact H].
    repeat split; simpl; try (exists []; now rewrite app_nil_r);
      eexists; reflexivity. }
  unfold bindM at 1.
  destruct (for_each items (insert_item fails (receipt_seq (issue c))) c1)
    as [r2 c2] eqn:E.
  destruct (for_each_rows fails _ _ _ _ _ E)
    as (A2 & K1 & K2 & K3 & rows & K4 & K5).
  destruct K3 as [-> | [e ->]].
  2:{ intros H; injection H as <- <-. left.
      split; [eauto | eapply advance_trans; eauto]. }
  unfold bindM, commit.
  destruct (fails (clock c2) Commit).
  { intros H; injection H as <- <-. left. split; [eauto|].
    eapply advance_trans; [|apply advance_refuse].
    eapply advance_trans; eauto. }
  cbn [run issue failed snd].
  destruct (failed c2) eqn:Fl; intros H; injection H as <- <-.
  { right; left. split; [reflexivity|].
    exists c2. split; [eapply advance_trans; eauto | reflexivity]. }
  right; right. split; [reflexivity|].
  exists c2, rows. split; [eapply advance_trans; eauto|].
  split; [repeat split|]. split; [exact K1|]. split; [exact K2|].
  split; [exact K4 | exact K5].
Qed.

(** What [insert_receipt] can do: refuse and leave the transaction as it
    is; roll back, and refuse or raise the error of the rollback; accept
    after a commit that stored nothing, the transaction being in the failed
    state; or accept and commit. *)
Lemma insert_receipt_cases rd c r c' :
  insert_receipt fails rd c = (r, c') ->
  (r = Ret false /\ advance c c')
  \/ ((r = Ret false
       \/ (r = Raise DatabaseError /\ exists t, fails t Rollback = true))
      /\ exists c2, advance c c2 /\ c' = rolled_back c2)
  \/ (r = Ret true
      /\ exists c2, advance c c2 /\ c' = rolled_back (issue c2))
  \/ (r = Ret true
      /\ exists name d sub tx tot mid c2 rid rows,
          truthy_str (Raw.merchant rd) = Some name
          /\ parse_date (Py.get (Raw.date rd)) = Ret (Some d)
          /\ parse_price (Py.get (Raw.subtotal rd)) = Ret sub
          /\ parse_price (Py.get (Raw.tax rd)) = Ret tx
          /\ parse_price (Py.get (Raw.total rd)) = Ret (Some tot)
          /\ is_zero tot = false /\ mid <> 0
          /\ advance c c2 /\ committed_from c2 c'
          /\ lookup_merchant name (merchant (pending c2)) = Some mid
          /\ receipt (pending c2)
             = (receipt (pending c) ++
                [ {| receipt_id := rid; receipt_merchant_id := mid;
                     transaction_date := d; subtotal := sub; tax := tx;
                     total := tot |} ])%list
          /\ receipt_item (pending c2)
             = (receipt_item (pending c) ++ rows)%list
          /\ rows_of rid (product (pending c2)) (Raw.items rd) rows).
Proof.
  assert (forall c2, advance c c2 ->
            forall r0 c0, (rollback fails ;;; ret false)%db c2 = (r0, c0) ->
            (r0 = Ret false
             \/ (r0 = Raise DatabaseError
                 /\ exists t, fails t Rollback = true))
            /\ exists c3, advance c c3 /\ c0 = rolled_back c3) as Back.
  { intros c2 A r0 c0. unfold bindM, rollback, ret.
    destruct (fails (clock c2) Rollback) eqn:F;
      intros H; injection H as <- <-;
      (split; [eauto|]); exists c2; auto. }
  unfold insert_receipt, insert_receipt_try, bindM at 1 2 3 4, lift.
  destruct (parse_date_ret (Py.get (Raw.date rd))) as [dr Hd].
  destruct (parse_price_ret (Py.get (Raw.subtotal rd))) as [sub Hs].
  destruct (parse_price_ret (Py.get (Raw.tax rd))) as [tx Ht].
  destruct (parse_price_ret (Py.get (Raw.total rd))) as [tr Htot].
  rewrite Hd, Hs, Ht, Htot.
  destruct (truthy_str (Raw.merchant rd)) as [name|] eqn:Hm.
  2:{ intros H; injection H as <- <-. left; split; [auto|apply advance_refl]. }
  destruct (truthy_str dr) as [d|] eqn:Hdd.
  2:{ intros H; injection H as <- <-. left; split; [auto|apply advance_refl]. }
  destruct (truthy_float tr) as [tot|] eqn:Hz.
  2:{ intros H; injection H as <- <-. left; split; [auto|apply advance_refl]. }
  apply truthy_str_some in Hdd. subst dr.
  apply truthy_float_some in Hz. destruct Hz as [-> Hz].
  unfold bindM at 1.
  destruct (insert_or_get_merchant fails (Some name) None None c)
    as [r1 c1] eqn:E1.
  destruct (merchant_advance fails _ _ _ _ _ _ E1) as [A1 [-> | [x ->]]].
  { intros H. right; left. exact (Back c1 A1 _ _ H). }
  destruct (truthy_id x) as [mid|] eqn:Hx.
  2:{ intros H; injection H as <- <-. left; auto. }
  apply truthy_id_some in Hx. destruct Hx as [-> Hmid].
  assert (lookup_merchant name (merchant (pending c1)) = Some mid
          /\ receipt (pending c1) = receipt (pending c)
          /\ receipt_item (pending c1) = receipt_item (pending c))
    as (L1 & R1 & I1).
  { destruct (merchant_call fails _ _ _ _ _ _
                (truthy_str_nonempty _ _ Hm) E1) as [_ O].
    destruct O as [R P | i L R P | L R P | R P]; try discriminate.
    - rewrite P. split; [congruence | auto].
    - rewrite P; simpl. injection R as <-.
      split; [now apply lookup_merchant_new | auto]. }
  destruct (write_receipt fails mid d sub tx tot (Raw.items rd) c1)
    as [r2 c2] eqn:E2.
  destruct (write_receipt_rows _ _ _ _ _ _ _ _ _ E2)
    as [[[e ->] A2] | [(-> & c3 & A2 & ->) |
        (-> & c3 & rows & A2 & C & K1 & K2 & K3 & K4)]].
  - intros H. right; left.
    exact (Back c2 (advance_trans _ _ _ A1 A2) _ _ H).
  - intros H; injection H as <- <-. right; right; left.
    split; [reflexivity|].
    exists c3. split; [eapply advance_trans; eauto | reflexivity].
  - intros H; injection H as <- <-. right; right; right.
    split; [reflexivity|].
    exists name, d, sub, tx, tot, mid, c3, (receipt_seq c1), rows.
    do 7 (split; [first [reflexivity | assumption]|]).
    split; [eapply advance_trans; eauto|]. split; [exact C|].
    split; [now rewrite K1|]. split; [now rewrite K2, R1|].
    split; [now rewrite K3, I1 | exact K4].
Qed.

End Cases.


(** X2: [insert_receipt] only ever adds rows.  From a connection whose open
    transaction extends what is committed, the committed tables after the
    call are those from before with rows appended, none removed, changed or
    reordered, and the open transaction again extends them. *)
Theorem committed_rows_are_kept
  (fails : nat -> statement -> bool) (rd : Raw.receipt)
  (c : connection) (r : exc bool) (c' : connection) :
  consistent c ->
  insert_receipt fails rd c = (r, c') ->
  extends (committed c) (committed c') /\ consistent c'.
Proof.
  intros K E. unfold consistent in *.
  destruct (insert_receipt_cases fails rd c r c' E)
    as [[_ A] | [(_ & c2 & A & ->) | [(_ & c2 & A & ->) |
        (_ & name & d & sub & tx & tot & mid & c2 & rid & rows & H)]]].
  - destruct A as (A1 & A2 & _). rewrite A1.
    split; [apply extends_refl | eapply extends_trans; eauto].
  - simpl. destruct A as (A1 & _). rewrite A1.
    split; apply extends_refl.
  - simpl. destruct A as (A1 & _). rewrite A1.
    split; apply extends_refl.
  - destruct H as (_ & _ & _ & _ & _ & _ & _ & A & C & _).
    destruct A as (A1 & A2 & _). destruct C as (C1 & C2 & _).
    rewrite C1, C2.
    split; [eapply extends_trans; eauto | apply extends_refl].
Qed.

Lemma committed_rows_are_kept_witness :
  consistent milk_ingested
  /\ List.length (receipt (committed milk_ingested)) = 1%nat
  /\ List.length (receipt_item (committed milk_ingested)) = 1%nat
  /\ extends (committed milk_ingested)
       (committed (snd (insert_receipt never (trader_joes [bananas])
                                       milk_ingested)))
  /\ List.length
       (receipt (committed (snd (insert_receipt never (trader_joes [bananas])
                                                milk_ingested))))
     = 2%nat
  /\ fst (insert_receipt no_line_item (trader_joes [bananas]) milk_ingested)
     = Ret false
  /\ extends (committed milk_ingested)
       (committed (snd (insert_receipt no_line_item (trader_joes [bananas])
                                       milk_ingested))).
Proof.
  assert (consistent milk_ingested) as K.
  { unfold consistent.
    assert (pending milk_ingested = committed milk_ingested) as ->
        by (vm_compute; reflexivity).
    apply extends_refl. }
  split; [exact K|]. split; [reflexivity|]. split; [reflexivity|].
  split; [|split; [vm_compute; reflexivity|
                   split; [vm_compute; reflexivity|]]].
  - exact (proj1 (committed_rows_are_kept never (trader_joes [bananas])
                    milk_ingested _ _ K (surjective_pairing _))).
  - exact (proj1 (committed_rows_are_kept no_line_item
                    (trader_joes [bananas]) milk_ingested _ _ K
                    (surjective_pairing _))).
Defined.

(** X3: [insert_receipt] keeps merchant names and product descriptions
    unique.  If no two merchants share a name and no two products a
    description in what the open transaction sees, the same holds after the
    call, in what the transaction sees and in what is committed, whatever
    the receipt holds and whichever statements fail. *)
Theorem unique_keys_are_kept
  (fails : nat -> statement -> bool) (rd : Raw.receipt)
  (c : connection) (r : exc bool) (c' : connection) :
  consistent c -> unique_keys (pending c) ->
  insert_receipt fails rd c = (r, c') ->
  unique_keys (pending c') /\ unique_keys (committed c').
Proof.
  intros K U E. unfold consistent in *.
  destruct (insert_receipt_cases fails rd c r c' E)
    as [[_ A] | [(_ & c2 & A & ->) | [(_ & c2 & A & ->) |
        (_ & name & d & sub & tx & tot & mid & c2 & rid & rows & H)]]].
  - destruct A as (A1 & A2 & A3 & _). rewrite A1.
    split; [auto | eapply unique_keys_extends; eauto].
  - simpl. destruct A as (A1 & _). rewrite A1.
    assert (unique_keys (committed c)) by (eapply unique_keys_extends; eauto).
    auto.
  - simpl. destruct A as (A1 & _). rewrite A1.
    assert (unique_keys (committed c)) by (eapply unique_keys_extends; eauto).
    auto.
  - destruct H as (_ & _ & _ & _ & _ & _ & _ & A & C & _).
    destruct A as (_ & _ & A3 & _). destruct C as (C1 & C2 & _).
    rewrite C1, C2. auto.
Qed.

Lemma unique_keys_are_kept_witness :
  unique_keys (pending fresh)
  /\ unique_keys
       (committed (snd (insert_receipt never
                          (trader_joes [milk; bananas; milk]) fresh))).
Proof.
  assert (unique_keys (pending fresh)) as U by (split; constructor).
  split; [exact U|].
  eapply (unique_keys_are_kept never (trader_joes [milk; bananas; milk])
            fresh); [apply extends_refl | exact U | apply surjective_pairing].
Defined.

Lemma row_of_sound rid products item row :
  row_of rid products item row -> sound_row rid products row.
Proof.
  intros (d & q & u & tp & _ & _ & _ & _ & V & R & L).
  unfold item_values in V.
  destruct (truthy_float tp) as [t|] eqn:T; [|discriminate].
  apply truthy_float_some in T. destruct T as [-> Tz].
  injection V as Vq Vu Vt. repeat split.
  - exact R.
  - now rewrite <- Vt.
  - rewrite <- Vq. destruct (truthy_float q) as [x|] eqn:Q; [|reflexivity].
    now apply truthy_float_some in Q.
  - unfold lookup_product in L.
    destruct (find _ products) as [p|] eqn:F; [|discriminate].
    injection L as L. apply find_some in F. exists p. tauto.
Qed.

Lemma rows_of_sound rid products items rows :
  rows_of rid products items rows -> Forall (sound_row rid products) rows.
Proof.
  induction 1; auto. constructor; auto. eapply row_of_sound; eauto.
Qed.

(** X4: an ingestion that is accepted has stored nothing at all, its commit
    having found the transaction in the failed state, or it has committed
    one header and line-item rows that all belong to it: every row has a
    total price that is not zero, a quantity that is 1 or a parsed number
    that is not zero, and the id of a committed product.  The rows are the
    rows of some of the raw items, in their order, each with the values
    decided from its parsed fields and the product id of its description;
    there are at most as many as items with a description and a total
    price. *)
Theorem item_rows_belong
  (fails : nat -> statement -> bool) (rd : Raw.receipt) (c c' : connection) :
  insert_receipt fails rd c = (Ret true, c') ->
  (committed c' = committed c /\ pending c' = committed c)
  \/ exists h rows,
      receipt (committed c') = (receipt (pending c) ++ [h])%list
      /\ receipt_item (committed c')
         = (receipt_item (pending c) ++ rows)%list
      /\ rows_of (receipt_id h) (product (committed c')) (Raw.items rd) rows
      /\ Forall (sound_row (receipt_id h) (product (committed c'))) rows
      /\ (List.length rows
          <= List.length (filter accepted (Raw.items rd)))%nat.
Proof.
  intros E.
  destruct (insert_receipt_cases fails rd c _ c' E)
    as [[R _] | [([R | [R _]] & _) | [(_ & c2 & A & ->) |
        (_ & name & d & sub & tx & tot & mid & c2 & rid & rows & H)]]];
    try discriminate.
  { left. destruct A as (A1 & _). simpl. auto. }
  right.
  destruct H as (_ & _ & _ & _ & _ & _ & _ & _ & C & _ & R & I & K).
  destruct C as (C1 & _). rewrite C1.
  eexists; exists rows. split; [exact R|]. split; [exact I|]. simpl.
  split; [exact K|]. split.
  - eapply rows_of_sound; eauto.
  - eapply rows_of_length; eauto.
Qed.

Lemma item_rows_belong_witness :
  exists h rows,
    receipt (committed (snd (insert_receipt never
                               (trader_joes [milk; no_price; bananas])
                               fresh)))
    = ([] ++ [h])%list
    /\ Forall (sound_row (receipt_id h)
                 (product (committed
                    (snd (insert_receipt never
                            (trader_joes [milk; no_price; bananas])
                            fresh))))) rows
    /\ List.length rows = 2%nat.
Proof.
  destruct (item_rows_belong never (trader_joes [milk; no_price; bananas])
              fresh (snd (insert_receipt never
                            (trader_joes [milk; no_price; bananas]) fresh)))
    as [[D _] | (h & rows & R & I & _ & S & _)]; [vm_compute; reflexivity| |].
  { exfalso. apply (f_equal receipt) in D. vm_compute in D. discriminate D. }
  exists h, rows. split; [exact R|]. split; [exact S|].
  apply (f_equal (@List.length _)) in I. vm_compute in I.
  symmetry. exact I.
Defined.

Section Exact.

Variable fails : nat -> statement -> bool.
Hypothesis works : no_failure fails.

Lemma put_item_exact rid d q u t c r c' :
  positive_ids c -> nonempty d = true ->
  put_item fails rid d q u t c = (r, c') ->
  r = Ret tt
  /\ exists row,
      receipt_item (pending c') = (receipt_item (pending c) ++ [row])%list.
Proof.
  intros P Hn. unfold put_item, bindM.
  destruct (insert_or_get_product fails (Some d) None c) as [r1 c1] eqn:E.
  assert (exists pid, r1 = Ret (Some pid) /\ pid <> 0
                      /\ receipt_item (pending c1) = receipt_item (pending c))
    as (pid & -> & Hp & I1).
  { destruct (lookup_product d (product (pending c))) as [id|] eqn:L.
    - destruct (product_again fails d None c id Hn L (works _ _))
        as (c1' & E' & P1 & _).
      rewrite E in E'. injection E' as -> <-.
      exists id. split; [reflexivity|]. split; [|now rewrite P1].
      pose proof (lookup_product_positive _ _ _ (proj2 (proj2 (proj2 P))) L).
      lia.
    - destruct (product_first fails d None c Hn
                  (proj1 (lookup_product_count _ _) L)
                  (works _ _) (works _ _)) as (c1' & E' & _).
      rewrite E in E'. injection E' as -> <-.
      exists (product_seq c). split; [reflexivity|].
      split; [destruct P as (_ & P2 & _); lia|].
      destruct (product_call fails _ _ _ _ _ Hn E) as [_ O].
      destruct O as [R Q | i L' R Q | L' R Q | R Q]; try congruence.
      rewrite Q. reflexivity. }
  unfold truthy_id. destruct (Z.eqb_spec pid 0); [contradiction|].
  unfold execute. rewrite works. cbn [run].
  intros H; injection H as <- <-. split; [reflexivity|].
  eexists. simpl. rewrite I1. reflexivity.
Qed.

Lemma insert_item_exact rid item c r c' :
  positive_ids c ->
  insert_item fails rid item c = (r, c') ->
  r = Ret tt
  /\ exists rows,
      receipt_item (pending c') = (receipt_item (pending c) ++ rows)%list
      /\ List.length rows = List.length (filter accepted [item]).
Proof.
  intros P. unfold accepted. cbn [filter].
  destruct (truthy_str (Raw.Description item)) as [d|] eqn:Hd.
  2:{ unfold insert_item. rewrite Hd. intros H; injection H as <- <-.
      split; [reflexivity|]. exists []. now rewrite app_nil_r. }
  destruct (parse_quantity_ret (Py.get (Raw.Quantity item))) as [q Hq].
  destruct (parse_price_ret (Py.get (Raw.Price item))) as [u Hu].
  destruct (parse_price_ret (Py.get (Raw.TotalPrice item))) as [tp Ht].
  rewrite (insert_item_values fails rid item c d q u tp Hd Hq Hu Ht).
  rewrite Hq, Hu, Ht.
  destruct (item_values q u tp) as [[[q' u'] t]|].
  2:{ intros H; injection H as <- <-.
      split; [reflexivity|]. exists []. now rewrite app_nil_r. }
  intros H.
  destruct (put_item_exact _ _ _ _ _ _ _ _ P
              (truthy_str_nonempty _ _ Hd) H) as (-> & row & I).
  split; [reflexivity|]. exists [row]. auto.
Qed.

Lemma for_each_exact rid items c r c' :
  positive_ids c ->
  for_each items (insert_item fails rid) c = (r, c') ->
  r = Ret tt
  /\ exists rows,
      receipt_item (pending c') = (receipt_item (pending c) ++ rows)%list
      /\ List.length rows = List.length (filter accepted items).
Proof.
  revert c. induction items as [|item items IH]; intros c P.
  - intros H; injection H as <- <-. split; [reflexivity|].
    exists []. now rewrite app_nil_r.
  - rewrite for_each_cons.
    destruct (insert_item fails rid item c) as [r1 c1] eqn:E.
    pose proof (insert_item_rows fails _ _ _ _ _ E) as (A & _).
    destruct (insert_item_exact _ _ _ _ _ P E) as (-> & rows1 & I1 & L1).
    intros H. apply IH in H; [|now apply A].
    destruct H as (-> & rows & I & L). split; [reflexivity|].
    exists (rows1 ++ rows)%list. split.
    + now rewrite I, I1, app_assoc.
    + rewrite length_app, L, L1. cbn [filter].
      destruct (accepted item); simpl; lia.
Qed.

Lemma write_receipt_exact mid d sub tx tot items c r c' :
  positive_ids c -> failed c = false ->
  write_receipt fails mid d sub tx tot items c = (r, c') ->
  r = Ret true
  /\ exists rows,
      receipt_item (committed c') = (receipt_item (pending c) ++ rows)%list
      /\ List.length rows = List.length (filter accepted items).
Proof.
  intros P Fl. rewrite write_receipt_loop. unfold bindM at 1, execute.
  rewrite works. cbn [run first_column]. unfold bindM at 1, ret at 1.
  set (c1 := {| committed := _ |}).
  assert (positive_ids c1) as P1 by exact P.
  unfold bindM at 1.
  destruct (for_each items (insert_item fails (receipt_seq (issue c))) c1)
    as [r2 c2] eqn:E.
  destruct (for_each_exact _ _ _ _ _ P1 E) as (-> & rows & I & L).
  destruct (proj2 (for_each_flag fails _ _ _ _ _ E) works) as [F2 _].
  unfold bindM, commit. rewrite works.
  cbn [run issue failed snd]. rewrite F2. cbn [c1 failed issue]. rewrite Fl.
  intros H; injection H as <- <-. split; [reflexivity|].
  exists rows. simpl. auto.
Qed.

End Exact.

Lemma insert_receipt_refused fails rd c :
  valid rd = false -> insert_receipt fails rd c = (Ret false, c).
Proof.
  unfold valid, insert_receipt, insert_receipt_try, bindM, lift.
  destruct (parse_date_ret (Py.get (Raw.date rd))) as [dr Hd].
  destruct (parse_price_ret (Py.get (Raw.subtotal rd))) as [sub Hs].
  destruct (parse_price_ret (Py.get (Raw.tax rd))) as [tx Ht].
  destruct (parse_price_ret (Py.get (Raw.total rd))) as [tr Htot].
  rewrite Hd, Hs, Ht, Htot.
  destruct (truthy_str (Raw.merchant rd)) as [name|]; [|reflexivity].
  destruct dr as [d|]; [|reflexivity].
  rewrite (parse_date_truthy _ d Hd).
  destruct (truthy_float tr); [discriminate | reflexivity].
Qed.

(** X5: with a store that never fails and positive ids, [insert_receipt]
    accepts a receipt exactly when it has a merchant name, a date that
    parses and a total that parses and is not zero; a refused receipt leaves
    the connection untouched, and an accepted one, on a connection whose
    transaction is not in the failed state, commits exactly one row for
    each item that has a description and a total price that is not zero. *)
Theorem working_store_ingestion
  (fails : nat -> statement -> bool) (rd : Raw.receipt) (c : connection) :
  no_failure fails -> positive_ids c ->
  (valid rd = false -> insert_receipt fails rd c = (Ret false, c))
  /\ (valid rd = true -> failed c = false ->
      exists c' rows,
        insert_receipt fails rd c = (Ret true, c')
        /\ receipt_item (committed c')
           = (receipt_item (pending c) ++ rows)%list
        /\ List.length rows
           = List.length (filter accepted (Raw.items rd))).
Proof.
  intros W P. unfold valid.
  destruct (parse_date_ret (Py.get (Raw.date rd))) as [dr Hd].
  destruct (parse_price_ret (Py.get (Raw.subtotal rd))) as [sub Hs].
  destruct (parse_price_ret (Py.get (Raw.tax rd))) as [tx Ht].
  destruct (parse_price_ret (Py.get (Raw.total rd))) as [tr Htot].
  split; [apply insert_receipt_refused|].
  rewrite Hd, Htot.
  - destruct (truthy_str (Raw.merchant rd)) as [name|] eqn:Hm;
      [|discriminate].
    destruct dr as [d|]; [|discriminate].
    destruct (truthy_float tr) as [tot|] eqn:Hz; [|discriminate].
    intros _ Fl. apply truthy_float_some in Hz. destruct Hz as [-> Hz].
    pose proof (truthy_str_nonempty _ _ Hm) as Hn.
    destruct (insert_or_get_merchant fails (Some name) None None c)
      as [r1 c1] eqn:E1.
    pose proof (merchant_advance fails _ _ _ _ _ _ E1) as [A1 _].
    assert (failed c1 = false) as Fl1.
    { destruct (merchant_flag fails _ _ _ _ _ _ E1) as (_ & K & _).
      destruct (K W) as [K1 _]. congruence. }
    assert (exists mid, r1 = Ret (Some mid) /\ mid <> 0
                        /\ receipt_item (pending c1)
                           = receipt_item (pending c))
      as (mid & -> & Hmid & I1).
    { destruct (lookup_merchant name (merchant (pending c))) as [id|] eqn:L.
      - destruct (merchant_again fails name None None c id Hn L (W _ _))
          as (c1' & E' & P1 & _).
        rewrite E1 in E'. injection E' as -> <-.
        exists id. split; [reflexivity|]. split; [|now rewrite P1].
        pose proof (lookup_merchant_positive _ _ _
                      (proj1 (proj2 (proj2 P))) L). lia.
      - destruct (merchant_first fails name None None c Hn
                    (proj1 (lookup_merchant_count _ _) L)
                    (W _ _) (W _ _)) as (c1' & E' & _).
        rewrite E1 in E'. injection E' as -> <-.
        exists (merchant_seq c). split; [reflexivity|].
        split; [destruct P as (P1 & _); lia|].
        destruct (merchant_call fails _ _ _ _ _ _ Hn E1) as [_ O].
        destruct O as [R Q | i L' R Q | L' R Q | R Q]; try congruence.
        rewrite Q. reflexivity. }
    destruct (insert_receipt_passed fails rd c name d sub tx tot mid c1)
      as [Htry _]; auto.
    destruct (write_receipt fails mid d sub tx tot (Raw.items rd) c1)
      as [r2 c2] eqn:E2.
    destruct (write_receipt_exact fails W _ _ _ _ _ _ _ _ _
                (proj2 (proj2 (proj2 A1)) P) Fl1 E2) as (-> & rows & I & L).
    exists c2, rows. unfold insert_receipt. rewrite Htry.
    split; [reflexivity|]. split; [now rewrite I, I1 | exact L].
Qed.

Lemma working_store_ingestion_witness :
  no_failure never /\ positive_ids fresh
  /\ valid (trader_joes [milk; free_item; bananas]) = true
  /\ exists c' rows,
      insert_receipt never (trader_joes [milk; free_item; bananas]) fresh
      = (Ret true, c')
      /\ receipt_item (committed c') = ([] ++ rows)%list
      /\ List.length rows = 2%nat.
Proof.
  assert (no_failure never) as W by (intros t q; reflexivity).
  assert (positive_ids fresh) as P
      by (repeat split; simpl; try constructor; lia).
  split; [exact W|]. split; [exact P|]. split; [reflexivity|].
  destruct (working_store_ingestion never
              (trader_joes [milk; free_item; bananas]) fresh W P)
    as [_ Acc].
  destruct (Acc eq_refl eq_refl) as (c' & rows & E & I & L).
  exists c', rows. split; [exact E|]. split; [exact I|]. exact L.
Defined.

(** ** More on the numbers *)

Lemma shr_1_nonneg (mrs : shr_record) :
  0 <= shr_m mrs -> 0 <= shr_m (shr_1 mrs).
Proof.
  destruct mrs as [m r s0]. simpl.
  destruct m as [|p|p]; [simpl; lia | | lia].
  intros _. destruct p; simpl; lia.
Qed.

Lemma iter_pos_shr_1_nonneg (p : positive) (mrs : shr_record) :
  0 <= shr_m mrs -> 0 <= shr_m (iter_pos shr_1 p mrs).
Proof.
  revert mrs. induction p as [p IH|p IH|]; intros mrs H; simpl.
  - apply IH, IH, shr_1_nonneg, H.
  - apply IH, IH, H.
  - apply shr_1_nonneg, H.
Qed.

Lemma shr_fexp_nonneg (m e : Z) (l : location) :
  0 <= m -> 0 <= shr_m (fst (shr_fexp Float.prec Float.emax m e l)).
Proof.
  intros H. unfold shr_fexp, shr.
  assert (0 <= shr_m (shr_record_of_loc m l)) as H0.
  { destruct l as [|[]]; simpl; exact H. }
  destruct (fexp Float.prec Float.emax (Zdigits2 m + e) - e) as [|p|p];
    simpl; auto.
  now apply iter_pos_shr_1_nonneg.
Qed.

Lemma binary_round_aux_nonneg (q e : Z) (l : location) :
  0 <= q ->
  nonnegative (binary_round_aux Float.prec Float.emax false q e l) = true.
Proof.
  intros H. unfold binary_round_aux.
  pose proof (shr_fexp_nonneg q e l H) as H1.
  destruct (shr_fexp Float.prec Float.emax q e l) as [mrs1 e1].
  simpl in H1.
  assert (0 <= round_nearest_even (shr_m mrs1) (loc_of_shr_record mrs1))
    as H2.
  { unfold round_nearest_even.
    destruct (loc_of_shr_record mrs1) as [|[]]; try lia.
    destruct (Z.even (shr_m mrs1)); lia. }
  pose proof (shr_fexp_nonneg _ e1 loc_Exact H2) as H3.
  destruct (shr_fexp Float.prec Float.emax _ e1 loc_Exact) as [mrs2 e2].
  simpl in H3.
  destruct (shr_m mrs2) as [|m|m]; [reflexivity | | lia].
  destruct (e2 <=? Float.emax - Float.prec); reflexivity.
Qed.

Lemma of_decimal_nonneg (n : Z) (k : nat) :
  nonnegative (of_decimal n k) = true.
Proof.
  unfold of_decimal. destruct n as [|p|p]; try reflexivity.
  unfold SFdiv_core_binary.
  set (e' := Z.min _ _). set (m' := match _ with Z0 => _ | _ => _ end).
  assert (0 <= m') as Hm.
  { subst m'. destruct (0 - 0 - e') as [|s0|s0]; try lia.
    apply Z.shiftl_nonneg. lia. }
  pose proof (Z.div_pos m' (10 ^ Z.of_nat k) Hm
                ltac:(apply Z.pow_pos_nonneg; lia)) as Hq.
  unfold Z.div in Hq.
  destruct (Z.div_eucl m' (10 ^ Z.of_nat k)) as [q r].
  now apply binary_round_aux_nonneg.
Qed.

Lemma parse_number_nonneg (v : value) (x : float) :
  parse_price v = Ret (Some x) -> nonnegative x = true.
Proof.
  unfold parse_price.
  destruct (negb (truthy v)); [discriminate|].
  destruct (Re.search (str v)) as [group|]; simpl; [|discriminate].
  unfold Float.of_string.
  destruct (Float.scan group false false 0 0) as [[n k]|]; simpl;
    [|discriminate].
  intros H; injection H as <-. apply of_decimal_nonneg.
Qed.

Lemma parse_number_skips (c : ascii) (s : string) :
  outside c = true -> parse_price (PyStr (String c s)) = parse_price (PyStr s).
Proof.
  intros H. unfold parse_price, outside in *; simpl.
  destruct (Re.in_class c); [discriminate|].
  destruct s; reflexivity.
Qed.

(** X7: a parsed quantity or price is never negative and never NaN: it is
    zero, a positive number or plus infinity.  A character in front of the
    text that is neither a digit nor a point changes nothing; in particular a
    minus sign is dropped, so that the text of a negative amount parses as
    the positive one. *)
Theorem parsed_numbers_are_unsigned :
  (forall v x, parse_price v = Ret (Some x) -> nonnegative x = true)
  /\ (forall v x, parse_quantity v = Ret (Some x) -> nonnegative x = true)
  /\ (forall c s, outside c = true ->
        parse_price (PyStr (String c s)) = parse_price (PyStr s)
        /\ parse_quantity (PyStr (String c s)) = parse_quantity (PyStr s))
  /\ (forall s, parse_price (PyStr ("-" ++ s)) = parse_price (PyStr s)
                /\ parse_quantity (PyStr ("-" ++ s))
                   = parse_quantity (PyStr s)).
Proof.
  split; [exact parse_number_nonneg|].
  split; [exact parse_number_nonneg|].
  split.
  - intros c s H. split; now apply parse_number_skips.
  - intros s. split; now apply parse_number_skips.
Qed.

Lemma parsed_numbers_are_unsigned_witness :
  parse_price (PyStr "-1.50") = Ret (Some (of_decimal 150 2))
  /\ nonnegative (of_decimal 150 2) = true
  /\ parse_price (PyStr "$-1.50") = parse_price (PyStr "1.50").
Proof.
  destruct parsed_numbers_are_unsigned as (N & _ & Skip & Minus).
  assert (parse_price (PyStr "-1.50") = Ret (Some (of_decimal 150 2))) as E.
  { transitivity (parse_price (PyStr "1.50"));
      [exact (proj1 (Minus "1.50")) | reflexivity]. }
  split; [exact E|]. split; [exact (N _ _ E)|].
  transitivity (parse_price (PyStr "-1.50"));
    [exact (proj1 (Skip "$"%char "-1.50" eq_refl))
    | exact (proj1 (Minus "1.50"))].
Defined.

Lemma isdigit_not_point (c : ascii) :
  isdigit c = true -> Ascii.eqb c "." = false.
Proof.
  destruct (Ascii.eqb_spec c ".") as [->|]; [discriminate | reflexivity].
Qed.

Lemma scan_none (s : string) :
  all_chars Re.in_class s = true ->
  forall dot seen n k,
    Float.scan s dot seen n k = None
    <-> (2 <= points s + (if dot then 1 else 0))%nat
        \/ (seen = false /\ digits s = 0%nat).
Proof.
  induction s as [|c s IH]; simpl; intros Hs dot seen n k.
  - destruct seen, dot; split; intros H; try discriminate; auto;
      destruct H as [H | [H _]]; try lia; discriminate.
  - apply andb_true_iff in Hs as [Hc Hs]. unfold Re.in_class in Hc.
    destruct (isdigit c) eqn:D.
    + rewrite (isdigit_not_point c D). rewrite (IH Hs). simpl.
      split; intros [H | [H1 H2]]; auto; try discriminate; lia.
    + simpl in Hc. rewrite Hc. destruct dot.
      * split; [intros _; left; lia | reflexivity].
      * rewrite (IH Hs). simpl.
        split; intros [H | H]; auto; left; lia.
Qed.

(** X8: the field is lost when its first run of digits and points has two
    points or more, or no digit: [parse_price] and [parse_quantity] then
    return absent whatever digits the run and the rest of the text hold, and
    in every other case they return a number. *)
Theorem first_run_decides (pre r post : string) :
  all_chars outside pre = true ->
  all_chars Re.in_class r = true -> Py.nonempty r = true ->
  stops post = true ->
  (parse_price (PyStr (pre ++ r ++ post)) = Ret None
   <-> (2 <= points r)%nat \/ digits r = 0%nat)
  /\ (parse_quantity (PyStr (pre ++ r ++ post)) = Ret None
      <-> (2 <= points r)%nat \/ digits r = 0%nat).
Proof.
  intros Hpre Hr Hne Hpost.
  assert (parse_price (PyStr (pre ++ r ++ post)) = Ret None
          <-> (2 <= points r)%nat \/ digits r = 0%nat) as H.
  { unfold parse_price; simpl.
    rewrite (nonempty_app pre r post Hne); simpl.
    rewrite (search_first_run pre r post Hpre Hr Hne Hpost).
    unfold Float.of_string.
    pose proof (scan_none r Hr false false 0 0%nat) as S.
    rewrite Nat.add_0_r in S.
    destruct (Float.scan r false false 0 0) as [[n k]|]; simpl.
    - split; [discriminate|]. intros H.
      assert (@None (Z * nat) = None) as E by reflexivity.
      destruct S as [_ S]. discriminate S. tauto.
    - split; [|reflexivity]. intros _.
      destruct S as [S _]. destruct (S eq_refl) as [?|[_ ?]]; auto. }
  split; exact H.
Qed.

Lemma first_run_decides_witness :
  parse_price (PyStr ("" ++ "12.05.2014" ++ " total")) = Ret None
  /\ parse_quantity (PyStr ("x" ++ "." ++ "")) = Ret None.
Proof.
  split.
  - apply (proj1 (first_run_decides "" "12.05.2014" " total"
                    eq_refl eq_refl eq_refl eq_refl)).
    left. simpl. lia.
  - apply (proj2 (first_run_decides "x" "." ""
                    eq_refl eq_refl eq_refl eq_refl)).
    right. reflexivity.
Defined.

(** ** More on the dates *)

Lemma digit_char_cases (n : Z) :
  exists k, 0 <= k < 10 /\ n mod 10 = k
            /\ Strptime.digit_char n = ascii_of_N (Z.to_N (48 + k)).
Proof.
  exists (n mod 10). split; [apply Z.mod_pos_bound; lia|]. auto.
Qed.

Lemma digit_char_facts (n : Z) :
  Py.isspace (Strptime.digit_char n) = false
  /\ Ascii.eqb (Strptime.digit_char n) "-" = false
  /\ Py.digit_value (Strptime.digit_char n) = n mod 10.
Proof.
  destruct (digit_char_cases n) as (k & Hk & -> & ->).
  assert (k = 0 \/ k = 1 \/ k = 2 \/ k = 3 \/ k = 4 \/ k = 5 \/ k = 6
          \/ k = 7 \/ k = 8 \/ k = 9) as Hc by lia.
  repeat (destruct Hc as [-> | Hc]; [repeat split|]).
  subst k. repeat split.
Qed.

Lemma isdigit_facts (c : ascii) :
  isdigit c = true -> Py.isspace c = false /\ Ascii.eqb c "-" = false.
Proof.
  destruct c as [[] [] [] [] [] [] [] []]; intros H;
    try discriminate H; split; reflexivity.
Qed.

(** A text of the shape [dddd-...] is no month-first date. *)
Lemma month_first_fails (c1 c2 c3 : ascii) (rest : string)
  (items : list Strptime.item) :
  isdigit c2 = true -> isdigit c3 = true ->
  Strptime.match_items
    (Strptime.Dir Strptime.Dm :: Strptime.Lit "-" :: items)
    (String c1 (String c2 (String c3 rest))) = [].
Proof.
  intros H2 H3.
  apply isdigit_facts in H2 as [_ H2]. apply isdigit_facts in H3 as [_ H3].
  cbn -[Ascii.eqb N.leb N_of_ascii]. rewrite ?H2, ?H3.
  repeat match goal with
         | |- context [if ?b then _ else _] => destruct b
         | |- context [match (if ?b then _ else _) with _ => _ end] =>
             destruct b
         end; cbn -[Ascii.eqb]; rewrite ?H2, ?H3; reflexivity.
Qed.

Lemma month_day_read_back (m d : Z) :
  1 <= m <= 12 -> 1 <= d <= 31 -> month_day_ok m d = true.
Proof.
  intros Hm Hd.
  assert (all_month_days_ok = true) as H by (vm_compute; reflexivity).
  unfold all_month_days_ok in H. rewrite forallb_forall in H.
  specialize (H (Z.to_nat m)). rewrite in_seq in H.
  specialize (H ltac:(lia)). rewrite forallb_forall in H.
  specialize (H (Z.to_nat d)). rewrite in_seq in H.
  specialize (H ltac:(lia)). now rewrite !Z2Nat.id in H by lia.
Qed.

Lemma year_first (c1 c2 c3 c4 : ascii) (tail : string)
  (items : list Strptime.item) :
  isdigit c1 = true -> isdigit c2 = true ->
  isdigit c3 = true -> isdigit c4 = true ->
  Strptime.match_items
    (Strptime.Dir Strptime.DY :: Strptime.Lit "-" :: items)
    (String c1 (String c2 (String c3 (String c4 (String "-" tail)))))
  = map (fun '(g, r) =>
           (Strptime.set_group Strptime.DY
              (String c1 (String c2 (String c3 (String c4 EmptyString)))) g,
            r))
        (Strptime.match_items items tail).
Proof.
  intros H1 H2 H3 H4.
  cbn [Strptime.match_items Strptime.match_alts Strptime.pattern flat_map
       Strptime.match_seq Strptime.cls_match].
  rewrite H1, H2, H3, H4. cbn [app flat_map]. rewrite Ascii.eqb_refl.
  now rewrite app_nil_r.
Qed.

Lemma int_pad4 (y : Z) : 0 <= y <= 9999 -> Py.int (Strptime.pad4 y) = y.
Proof.
  intros H. unfold Py.int, Strptime.pad4, Strptime.pad2.
  cbn [Py.lstrip].
  rewrite (proj1 (digit_char_facts (y / 1000))).
  cbn [Py.int_digits].
  rewrite !(proj2 (proj2 (digit_char_facts _))).
  pose proof (Z.div_mod y 10 ltac:(lia)).
  pose proof (Z.div_mod (y / 10) 10 ltac:(lia)).
  pose proof (Z.div_mod (y / 10 / 10) 10 ltac:(lia)).
  pose proof (Z.mod_pos_bound y 10 ltac:(lia)).
  pose proof (Z.mod_pos_bound (y / 10) 10 ltac:(lia)).
  pose proof (Z.mod_pos_bound (y / 10 / 10) 10 ltac:(lia)).
  replace (y / 100) with (y / 10 / 10)
    by (rewrite Z.div_div by lia; reflexivity).
  replace (y / 1000) with (y / 10 / 10 / 10)
    by (rewrite !Z.div_div by lia; reflexivity).
  assert (0 <= y / 10 / 10 / 10 < 10) as Hc.
  { rewrite !Z.div_div by lia. split.
    - apply Z.div_pos; lia.
    - apply Z.div_lt_upper_bound; lia. }
  rewrite (Z.mod_small _ _ Hc). lia.
Qed.

Lemma rstrip_no_space (s : string) :
  all_chars not_space s = true -> Py.rstrip s = s.
Proof.
  induction s as [|c s IH]; simpl; [reflexivity|].
  intros H. apply andb_true_iff in H as [Hc Hs]. rewrite (IH Hs).
  unfold not_space in Hc. destruct (Py.isspace c); [discriminate|].
  destruct s; reflexivity.
Qed.

Lemma strip_strftime (d : Strptime.date) :
  Py.rstrip (Py.lstrip (Strptime.strftime d)) = Strptime.strftime d.
Proof.
  assert (all_chars not_space (Strptime.strftime d) = true) as H.
  { unfold Strptime.strftime, Strptime.decimal_year, Strptime.pad4,
      Strptime.pad2, not_space.
    destruct (_ <? 10); [|destruct (_ <? 100); [|destruct (_ <? 1000)]];
      simpl; rewrite !(proj1 (digit_char_facts _)); reflexivity. }
  assert (Py.lstrip (Strptime.strftime d) = Strptime.strftime d) as ->.
  { unfold Strptime.strftime, Strptime.decimal_year, Strptime.pad4,
      Strptime.pad2.
    destruct (_ <? 10); [|destruct (_ <? 100); [|destruct (_ <? 1000)]];
      simpl; now rewrite (proj1 (digit_char_facts _)). }
  now apply rstrip_no_space.
Qed.

(** A real date from the year 1000 on, written year-month-day, is read
    back by the third format and by neither of the two before it. *)
Lemma strptime_strftime (d : Strptime.date) :
  Strptime.make_date (Strptime.year d) (Strptime.month d) (Strptime.day d)
  = Ret d ->
  1000 <= Strptime.year d ->
  Strptime.strptime (Strptime.strftime d) "%m-%d-%Y" = Raise ValueError
  /\ Strptime.strptime (Strptime.strftime d) "%m-%d-%y" = Raise ValueError
  /\ Strptime.strptime (Strptime.strftime d) "%Y-%m-%d" = Ret d.
Proof.
  intros R Four. destruct (make_date_real _ _ _ _ R) as (_ & Hy & Hm & Hd).
  pose proof (isdigit_digit_char) as D.
  rewrite (strftime_four d Four).
  split; [|split].
  - unfold Strptime.strptime. cbn [Strptime.compile Ascii.eqb Bool.eqb].
    unfold Strptime.pad4, Strptime.pad2. cbn [append].
    now rewrite month_first_fails by apply D.
  - unfold Strptime.strptime. cbn [Strptime.compile Ascii.eqb Bool.eqb].
    unfold Strptime.pad4, Strptime.pad2. cbn [append].
    now rewrite month_first_fails by apply D.
  - unfold Strptime.strptime. cbn [Strptime.compile Ascii.eqb Bool.eqb].
    pose proof (month_day_read_back _ _ Hm Hd) as T.
    pose proof (int_pad4 (Strptime.year d) ltac:(lia)) as Y.
    unfold month_day_ok in T.
    change (Strptime.pad4 (Strptime.year d) ++ "-" ++
            Strptime.pad2 (Strptime.month d) ++ "-" ++
            Strptime.pad2 (Strptime.day d))
      with (String (Strptime.digit_char (Strptime.year d / 1000))
              (String (Strptime.digit_char (Strptime.year d / 100))
                 (String (Strptime.digit_char (Strptime.year d / 10))
                    (String (Strptime.digit_char (Strptime.year d))
                       (String "-"
                          (Strptime.pad2 (Strptime.month d) ++ "-" ++
                           Strptime.pad2 (Strptime.day d))))))).
    rewrite year_first by apply D.
    destruct (Strptime.match_items _ _) as [|[g rest] l]; [discriminate|].
    destruct rest; [|discriminate].
    destruct (Strptime.gY g) eqn:GY; [discriminate|].
    destruct (Strptime.gy g) eqn:Gy; [discriminate|].
    apply andb_true_iff in T as [T1 T2].
    apply Z.eqb_eq in T1. apply Z.eqb_eq in T2.
    cbn [map nonempty].
    assert (Strptime.gY (Strptime.set_group Strptime.DY
              (Strptime.pad4 (Strptime.year d)) g)
            = Some (Strptime.pad4 (Strptime.year d))) as G1 by reflexivity.
    assert (Strptime.gm (Strptime.set_group Strptime.DY
              (Strptime.pad4 (Strptime.year d)) g) = Strptime.gm g)
      as G2 by reflexivity.
    assert (Strptime.gd (Strptime.set_group Strptime.DY
              (Strptime.pad4 (Strptime.year d)) g) = Strptime.gd g)
      as G3 by reflexivity.
    unfold Strptime.pad4, Strptime.pad2 in G1, G2, G3.
    rewrite G1, G2, G3, T1, T2.
    unfold Strptime.pad4, Strptime.pad2 in Y. rewrite Y. exact R.
Qed.

(** X9: what [parse_date] returns is a real calendar date written
    year-month-day (year 1 to 9999, month 1 to 12, a day that the month
    has).  From the year 1000 on [parse_date] maps it to itself: parsing an
    already normalised date changes nothing.  Below, the year is written
    without its leading zeros and the result is not read back: the dates
    0999-01-01 and 01-01-0009 are normalised to texts that [parse_date]
    refuses, or reads as another date. *)
Theorem parse_date_is_idempotent :
  (forall (v : value) (x : string),
      parse_date v = Ret (Some x) ->
      exists d,
        x = Strptime.strftime d
        /\ Strptime.make_date (Strptime.year d) (Strptime.month d)
             (Strptime.day d) = Ret d
        /\ (1000 <= Strptime.year d -> parse_date (PyStr x) = Ret (Some x)))
  /\ parse_date (PyStr "0999-01-01") = Ret (Some "999-01-01")
  /\ parse_date (PyStr "999-01-01") = Ret None
  /\ parse_date (PyStr "01-01-0009") = Ret (Some "9-01-01")
  /\ parse_date (PyStr "9-01-01") = Ret (Some "2001-09-01").
Proof.
  split; [|repeat split; vm_compute; reflexivity].
  intros v x H.
  destruct (parse_date_real v x H) as (d & -> & R).
  exists d. split; [reflexivity|]. split; [exact R|]. intros Four.
  destruct (strptime_strftime d R Four) as (F1 & F2 & F3).
  rewrite parse_date_str by (pose proof (strftime_truthy d) as T;
                             unfold truthy_str in T;
                             destruct (nonempty (Strptime.strftime d));
                             [reflexivity | discriminate T]).
  apply try_formats_some.
  exists 2%nat, "%Y-%m-%d", d. split; [|reflexivity].
  unfold first_match. rewrite strip_strftime.
  split; [reflexivity|]. split; [exact F3|].
  intros k fmt' Hk Hf.
  destruct k as [|[|k]]; try lia; simpl in Hf; injection Hf as <-; auto.
Qed.

Lemma parse_date_is_idempotent_witness :
  parse_date (PyStr "6-28-14") = Ret (Some "2014-06-28")
  /\ parse_date (PyStr "2014-06-28") = Ret (Some "2014-06-28").
Proof.
  assert (parse_date (PyStr "6-28-14") = Ret (Some "2014-06-28")) as H
      by reflexivity.
  split; [exact H|].
  destruct (proj1 parse_date_is_idempotent _ _ H) as (d & E & R & Back).
  apply Back.
  destruct (Z.le_gt_cases 1000 (Strptime.year d)) as [G|L]; [exact G|].
  exfalso.
  assert (canonical "2014-06-28" = true) as C by reflexivity.
  rewrite E in C. rewrite strftime_short in C; [discriminate C | lia].
Defined.

Lemma lstrip_spaces (ws a : string) :
  all_chars Py.isspace ws = true -> Py.lstrip (ws ++ a) = Py.lstrip a.
Proof.
  induction ws as [|c ws IH]; simpl; [reflexivity|].
  intros H. apply andb_true_iff in H as [Hc H]. rewrite Hc. auto.
Qed.

Lemma rstrip_spaces (ws : string) :
  all_chars Py.isspace ws = true -> Py.rstrip ws = EmptyString.
Proof.
  induction ws as [|c ws IH]; simpl; [reflexivity|].
  intros H. apply andb_true_iff in H as [Hc H]. now rewrite IH, Hc.
Qed.

Lemma rstrip_app_spaces (a ws : string) :
  all_chars Py.isspace ws = true -> Py.rstrip (a ++ ws) = Py.rstrip a.
Proof.
  intros H. induction a as [|c a IH]; simpl.
  - now apply rstrip_spaces.
  - now rewrite IH.
Qed.

Lemma strip_app_spaces (s ws : string) :
  all_chars Py.isspace ws = true ->
  Py.rstrip (Py.lstrip (s ++ ws)) = Py.rstrip (Py.lstrip s).
Proof.
  intros H. induction s as [|c s IH]; simpl.
  - assert (Py.lstrip ws = EmptyString) as ->; [|reflexivity].
    induction ws as [|c ws IH]; simpl in *; [reflexivity|].
    apply andb_true_iff in H as [Hc H]. rewrite Hc. auto.
  - destruct (Py.isspace c); [exact IH|].
    change (String c (s ++ ws)) with (String c s ++ ws).
    now apply rstrip_app_spaces.
Qed.

Lemma try_formats_strip (a b : string) (fmts : list string) :
  Py.rstrip (Py.lstrip a) = Py.rstrip (Py.lstrip b) ->
  try_formats (PyStr a) fmts = try_formats (PyStr b) fmts.
Proof.
  intros H. induction fmts as [|fmt rest IH]; simpl; [reflexivity|].
  now rewrite H, IH.
Qed.

Lemma parse_date_any_str (s : string) :
  parse_date (PyStr s) = try_formats (PyStr s) FORMATS.
Proof.
  destruct s as [|c s]; [reflexivity|]. now apply parse_date_str.
Qed.

(** X10: blanks around the text of a date do not matter: [parse_date]
    returns the same result with and without them, also when nothing but
    blanks is left. *)
Theorem parse_date_ignores_blanks (ws s ws' : string) :
  all_chars Py.isspace ws = true -> all_chars Py.isspace ws' = true ->
  parse_date (PyStr (ws ++ s ++ ws')) = parse_date (PyStr s).
Proof.
  intros H H'. rewrite !parse_date_any_str. apply try_formats_strip.
  now rewrite lstrip_spaces, strip_app_spaces.
Qed.

Lemma parse_date_ignores_blanks_witness :
  parse_date (PyStr "  06-28-2014 ") = Ret (Some "2014-06-28").
Proof.
  exact (parse_date_ignores_blanks "  " "06-28-2014" " " eq_refl eq_refl).
Defined.

(** ** More on the resolvers and on refusals *)

Section Failures.

Variable fails : nat -> statement -> bool.

Lemma merchant_unresolved name a p c c1 :
  nonempty name = true ->
  insert_or_get_merchant fails (Some name) a p c = (Ret None, c1) ->
  pending c1 = pending c /\ in_transaction c1 = true
  /\ (clock c < clock c1)%nat.
Proof.
  intros Hn. unfold insert_or_get_merchant, truthy_str. rewrite Hn.
  unfold or_none, bindM, execute, first_column, ret; simpl.
  destruct (fails (clock c) (SelectMerchant name)); simpl.
  - destruct (has_nul name); [discriminate|].
    intros H; injection H as <-. simpl. repeat split; lia.
  - destruct (lookup_merchant name (merchant (pending c))); simpl;
      [discriminate|].
    destruct (fails (S (clock c)) (InsertMerchant name a p)); simpl;
      [|discriminate].
    destruct (has_nul name || opt_nul a || opt_nul p); [discriminate|].
    intros H; injection H as <-. simpl. repeat split; lia.
Qed.





End Failures.



(** X11: when the merchant of a receipt with valid header fields cannot be
    resolved, [insert_receipt] returns false at once: nothing was written,
    but no rollback is issued either, so the transaction that the failed
    lookup opened is left open on the connection. *)
Theorem unresolved_merchant_leaves_transaction_open
  (fails : nat -> statement -> bool) (rd : Raw.receipt) (name : string)
  (c c1 : connection) :
  valid rd = true ->
  truthy_str (Raw.merchant rd) = Some name ->
  insert_or_get_merchant fails (Some name) None None c = (Ret None, c1) ->
  insert_receipt fails rd c = (Ret false, c1)
  /\ pending c1 = pending c /\ committed c1 = committed c
  /\ in_transaction c1 = true /\ (clock c < clock c1)%nat.
Proof.
  intros V Hm E.
  pose proof (truthy_str_nonempty _ _ Hm) as Hn.
  destruct (merchant_unresolved fails _ _ _ _ _ Hn E) as (P & T & K).
  destruct (merchant_call fails _ _ _ _ _ _ Hn E) as [C _].
  split; [|auto].
  unfold valid in V. rewrite Hm in V.
  destruct (parse_date_ret (Py.get (Raw.date rd))) as [dr Hd].
  destruct (parse_price_ret (Py.get (Raw.subtotal rd))) as [sub Hs].
  destruct (parse_price_ret (Py.get (Raw.tax rd))) as [tx Ht].
  destruct (parse_price_ret (Py.get (Raw.total rd))) as [tr Htot].
  rewrite Hd, Htot in V. destruct dr as [d|]; [|discriminate].
  destruct (truthy_float tr) as [tot|] eqn:Hz; [|discriminate].
  apply truthy_float_some in Hz. destruct Hz as [-> Hz].
  unfold insert_receipt.
  rewrite (insert_receipt_try_passed fails rd c name d sub tx tot)
    by assumption.
  unfold bindM. rewrite E. reflexivity.
Qed.

Lemma unresolved_merchant_leaves_transaction_open_witness :
  insert_receipt (fun _ q => match q with
                             | SelectMerchant _ => true
                             | _ => false
                             end)
    (trader_joes [milk]) fresh
  = (Ret false, refuse fresh)
  /\ in_transaction (refuse fresh) = true.
Proof.
  destruct (unresolved_merchant_leaves_transaction_open
              (fun _ q => match q with
                          | SelectMerchant _ => true
                          | _ => false
                          end)
              (trader_joes [milk]) "TRADER JOE'S" fresh (refuse fresh)
              eq_refl eq_refl eq_refl) as (E & _ & _ & T & _).
  split; [exact E | exact T].
Defined.

(** ** Nothing is left pending *)

Lemma positive_ids_rolled_back (c c2 : connection) :
  pending c = committed c -> positive_ids c -> advance c c2 ->
  positive_ids (rolled_back c2).
Proof.
  intros S P (A1 & _ & _ & A4). destruct (A4 P) as (P1 & P2 & _).
  destruct P as (_ & _ & P3 & P4).
  repeat split; simpl; auto; rewrite A1, <- S; auto.
Qed.

Lemma rolled_back_settles (c c2 : connection) :
  settled c -> advance c c2 ->
  settled (rolled_back c2)
  /\ extends (committed c) (committed (rolled_back c2)).
Proof.
  intros (S & P & U) A.
  split; [|simpl; rewrite (proj1 A); apply extends_refl].
  split; [reflexivity|].
  split; [eapply positive_ids_rolled_back; eauto|].
  simpl. rewrite (proj1 A), <- S. exact U.
Qed.

Lemma insert_receipt_settles fails rd c r c' :
  settled c ->
  insert_receipt fails rd c = (r, c') ->
  settled c' /\ extends (committed c) (committed c').
Proof.
  intros St. pose proof St as (S & P & U).
  assert (forall c2, advance c c2 ->
            forall r0 c0, (rollback fails ;;; ret false)%db c2 = (r0, c0) ->
            settled c0 /\ extends (committed c) (committed c0)) as Back.
  { intros c2 A r0 c0. unfold bindM, rollback, ret.
    destruct (fails (clock c2) Rollback); intros H; injection H as <- <-;
      now apply rolled_back_settles. }
  unfold insert_receipt, insert_receipt_try, bindM at 1 2 3 4, lift.
  destruct (parse_date_ret (Py.get (Raw.date rd))) as [dr Hd].
  destruct (parse_price_ret (Py.get (Raw.subtotal rd))) as [sub Hs].
  destruct (parse_price_ret (Py.get (Raw.tax rd))) as [tx Ht].
  destruct (parse_price_ret (Py.get (Raw.total rd))) as [tr Htot].
  rewrite Hd, Hs, Ht, Htot.
  assert (settled c /\ extends (committed c) (committed c)) as Same
      by (split; [exact St | apply extends_refl]).
  destruct (truthy_str (Raw.merchant rd)) as [name|] eqn:Hm.
  2:{ intros H; injection H as <- <-. exact Same. }
  destruct (truthy_str dr) as [d|].
  2:{ intros H; injection H as <- <-. exact Same. }
  destruct (truthy_float tr) as [tot|].
  2:{ intros H; injection H as <- <-. exact Same. }
  unfold bindM at 1.
  destruct (insert_or_get_merchant fails (Some name) None None c)
    as [r1 c1] eqn:E1.
  destruct (merchant_advance fails _ _ _ _ _ _ E1) as [A1 [-> | [x ->]]].
  { intros H. exact (Back c1 A1 _ _ H). }
  destruct (merchant_call fails _ _ _ _ _ _
              (truthy_str_nonempty _ _ Hm) E1) as [C1 O].
  destruct (truthy_id x) as [mid|] eqn:Hx.
  2:{ intros H; injection H as <- <-.
      destruct O as [R Q | i L R Q | L R Q | R Q]; try discriminate R;
        injection R as ->.
      - split; [|rewrite C1; apply extends_refl].
        split; [congruence|]. split; [now apply A1|]. now rewrite Q.
      - pose proof (lookup_merchant_positive _ _ _
                      (proj1 (proj2 (proj2 P))) L).
        unfold truthy_id in Hx. destruct (Z.eqb_spec i 0); [lia|discriminate].
      - destruct P as (P1 & _). unfold truthy_id in Hx.
        destruct (Z.eqb_spec (merchant_seq c) 0); [lia|discriminate]. }
  destruct (write_receipt fails mid d sub tx tot (Raw.items rd) c1)
    as [r2 c2] eqn:E2.
  destruct (write_receipt_rows _ _ _ _ _ _ _ _ _ _ E2)
    as [[[e ->] A2] | [(-> & c3 & A2 & ->) |
        (-> & c3 & rows & A2 & K & _)]].
  - intros H. exact (Back c2 (advance_trans _ _ _ A1 A2) _ _ H).
  - intros H; injection H as <- <-.
    apply rolled_back_settles; [exact St|].
    eapply advance_trans; [|apply advance_issue].
    eapply advance_trans; eauto.
  - intros H; injection H as <- <-.
    pose proof (advance_trans _ _ _ A1 A2) as (B1 & B2 & B3 & B4).
    destruct K as (K1 & K2 & K3 & K4 & K5).
    split; [|rewrite K1, <- S; exact B2].
    split; [congruence|]. split; [|rewrite K2; auto].
    destruct (B4 P) as (Q1 & Q2 & Q3 & Q4).
    repeat split; try rewrite K2; auto; lia.
Qed.

(** X12: [insert_receipt] leaves nothing pending.  From a connection on
    which nothing is pending (ids positive, names and descriptions unique),
    every row the call wrote is committed or rolled back when it returns,
    whatever the receipt holds and whichever statements fail; the committed
    tables are those from before with rows appended. *)
Theorem nothing_is_left_pending
  (fails : nat -> statement -> bool) (rd : Raw.receipt)
  (c : connection) (r : exc bool) (c' : connection) :
  settled c ->
  insert_receipt fails rd c = (r, c') ->
  settled c' /\ extends (committed c) (committed c').
Proof. apply insert_receipt_settles. Qed.

Lemma nothing_is_left_pending_witness :
  settled fresh
  /\ pending (snd (insert_receipt second_item_fails
                     (trader_joes [milk; bananas]) fresh))
     = committed (snd (insert_receipt second_item_fails
                         (trader_joes [milk; bananas]) fresh)).
Proof.
  assert (settled fresh) as S.
  { split; [reflexivity|]. split.
    - repeat split; simpl; try constructor; lia.
    - split; constructor. }
  split; [exact S|].
  eapply (nothing_is_left_pending second_item_fails
            (trader_joes [milk; bananas]) fresh);
    [exact S | apply surjective_pairing].
Defined.

Section Batch.

Variable fails : nat -> statement -> bool.
Variable path_exists : string -> bool.
Variable process_receipt : string -> exc Raw.receipt.
Variable save_to_json : Raw.receipt -> string -> exc unit.

Lemma process_path_settles path c r c' :
  settled c ->
  process_path fails path_exists process_receipt save_to_json path c
  = (r, c') ->
  settled c' /\ extends (committed c) (committed c').
Proof.
  intros S. unfold process_path.
  assert (settled c /\ extends (committed c) (committed c)) as Same
      by (split; [exact S | apply extends_refl]).
  destruct (negb (path_exists path)).
  { intros H; injection H as <- <-. exact Same. }
  unfold bindM at 1, lift at 1.
  destruct (process_receipt path) as [rd|e].
  2:{ intros H; injection H as <- <-. exact Same. }
  unfold bindM at 1, lift at 1.
  cbv zeta. destruct (save_to_json rd _) as [[]|e].
  2:{ intros H; injection H as <- <-. exact Same. }
  unfold bindM.
  destruct (insert_receipt fails rd c) as [r1 c1] eqn:E.
  pose proof (insert_receipt_settles fails rd c r1 c1 S E) as K.
  destruct r1 as [b|e]; intros H; injection H as <- <-; exact K.
Qed.

Lemma process_paths_settles paths c r c' :
  settled c ->
  process_paths fails path_exists process_receipt save_to_json paths c
  = (r, c') ->
  settled c' /\ extends (committed c) (committed c').
Proof.
  unfold process_paths. revert c.
  induction paths as [|path paths IH]; intros c S.
  - intros H; injection H as <- <-. split; [exact S|apply extends_refl].
  - rewrite for_each_cons.
    destruct (process_path fails path_exists process_receipt save_to_json
                path c) as [r1 c1] eqn:E.
    destruct (process_path_settles _ _ _ _ S E) as [S1 X1].
    destruct r1 as [[]|e].
    + intros H. destruct (IH _ S1 H) as [S2 X2].
      split; [exact S2 | eapply extends_trans; eauto].
    + intros H; injection H as <- <-. auto.
Qed.

End Batch.

(** X13: the batch loop of [main] keeps the store sound.  Whatever files
    exist, whatever the extraction returns or raises, whichever statements
    fail and wherever the loop stops, it ends with nothing pending and with
    unique names and descriptions, and the committed tables are those from
    before the batch with rows appended: a receipt that is refused or rolled
    back takes nothing away from the receipts before or after it. *)
Theorem batch_keeps_the_store_sound
  (fails : nat -> statement -> bool) (path_exists : string -> bool)
  (process_receipt : string -> exc Raw.receipt)
  (save_to_json : Raw.receipt -> string -> exc unit)
  (paths : list string) (c : connection) (r : exc unit) (c' : connection) :
  settled c ->
  process_paths fails path_exists process_receipt save_to_json paths c
  = (r, c') ->
  settled c' /\ extends (committed c) (committed c').
Proof. apply process_paths_settles. Qed.

Lemma batch_keeps_the_store_sound_witness :
  settled fresh
  /\ settled (snd (process_paths never one_file_exists extract_milk dump_ok
                     ["data/receipts/0.jpg"; "data/receipts/1.jpg"] fresh))
  /\ List.length
       (receipt (committed
          (snd (process_paths never one_file_exists extract_milk dump_ok
                  ["data/receipts/0.jpg"; "data/receipts/1.jpg"] fresh))))
     = 1%nat.
Proof.
  assert (settled fresh) as S.
  { split; [reflexivity|]. split.
    - repeat split; simpl; try constructor; lia.
    - split; constructor. }
  split; [exact S|]. split; [|vm_compute; reflexivity].
  eapply (batch_keeps_the_store_sound never one_file_exists extract_milk
            dump_ok ["data/receipts/0.jpg"; "data/receipts/1.jpg"] fresh);
    [exact S | apply surjective_pairing].
Defined.

(** ** Ingesting again *)

Lemma description_known_more products more item :
  description_known products item ->
  description_known (products ++ more)%list item.
Proof.
  intros (d & id & H1 & H2). exists d, id.
  split; [exact H1 | now apply lookup_product_more].
Qed.

Lemma items_known_more products more items :
  items_known products items -> items_known (products ++ more)%list items.
Proof.
  unfold items_known. rewrite !Forall_forall. intros H item Hi Ha.
  apply description_known_more. auto.
Qed.

Section Again.

Variable fails : nat -> statement -> bool.
Hypothesis works : no_failure fails.

Lemma working_merchant name c :
  positive_ids c -> nonempty name = true ->
  exists mid c1,
    insert_or_get_merchant fails (Some name) None None c
    = (Ret (Some mid), c1)
    /\ mid <> 0 /\ positive_ids c1 /\ committed c1 = committed c
    /\ lookup_merchant name (merchant (pending c1)) = Some mid
    /\ product (pending c1) = product (pending c)
    /\ receipt (pending c1) = receipt (pending c)
    /\ (forall id, lookup_merchant name (merchant (pending c)) = Some id ->
                   mid = id /\ pending c1 = pending c).
Proof.
  intros P Hn.
  destruct (insert_or_get_merchant fails (Some name) None None c)
    as [r1 c1] eqn:E1.
  destruct (merchant_advance fails _ _ _ _ _ _ E1) as [A1 _].
  destruct (merchant_call fails _ _ _ _ _ _ Hn E1) as [C1 O].
  destruct (lookup_merchant name (merchant (pending c))) as [id|] eqn:L.
  - destruct (merchant_again fails name None None c id Hn L (works _ _))
      as (c1' & E' & P1 & _).
    rewrite E1 in E'. injection E' as -> <-.
    exists id, c1. split; [reflexivity|].
    pose proof (lookup_merchant_positive _ _ _
                  (proj1 (proj2 (proj2 P))) L).
    split; [lia|]. split; [now apply A1|]. split; [exact C1|].
    rewrite P1. split; [exact L|]. split; [reflexivity|].
    split; [reflexivity|]. intros id' L'. split; [congruence | reflexivity].
  - destruct (merchant_first fails name None None c Hn
                (proj1 (lookup_merchant_count _ _) L)
                (works _ _) (works _ _)) as (c1' & E' & _ & _ & L').
    rewrite E1 in E'. injection E' as -> <-.
    exists (merchant_seq c), c1. split; [reflexivity|].
    split; [destruct P as (P1 & _); lia|].
    split; [now apply A1|]. split; [exact C1|]. split; [exact L'|].
    destruct O as [R Q | i L2 R Q | L2 R Q | R Q]; try congruence.
    rewrite Q. simpl. split; [reflexivity|]. split; [reflexivity|].
    intros id H; discriminate.
Qed.

Lemma insert_item_learns rid item c r c' :
  positive_ids c -> accepted item = true ->
  insert_item fails rid item c = (r, c') ->
  description_known (product (pending c')) item.
Proof.
  intros P Ha E.
  destruct (insert_item_exact fails works _ _ _ _ _ P E)
    as (_ & rows & I & L).
  cbn [filter] in L. rewrite Ha in L.
  destruct (insert_item_rows fails _ _ _ _ _ E)
    as (_ & _ & _ & [[K _] | (row & _ & _ & K)]).
  - rewrite K in I. rewrite <- (app_nil_r (receipt_item (pending c))) in I
      at 1.
    apply app_inv_head in I. subst rows. discriminate.
  - destruct K as (d & q & u & tp & H1 & _ & _ & _ & _ & _ & H7).
    exists d, (item_product_id row). auto.
Qed.

Lemma for_each_learns rid items c r c' :
  positive_ids c ->
  for_each items (insert_item fails rid) c = (r, c') ->
  items_known (product (pending c')) items.
Proof.
  revert c. induction items as [|item items IH]; intros c P.
  - intros _. constructor.
  - rewrite for_each_cons.
    destruct (insert_item fails rid item c) as [r1 c1] eqn:E.
    pose proof (insert_item_rows fails _ _ _ _ _ E) as (A & _).
    destruct (insert_item_exact fails works _ _ _ _ _ P E) as (-> & _).
    intros H.
    pose proof (for_each_rows fails _ _ _ _ _ H)
      as ((_ & (_ & [more M] & _) & _) & _).
    constructor; [|apply (IH c1); [now apply A | exact H]].
    intros Ha. rewrite M. apply description_known_more.
    eapply insert_item_learns; eauto.
Qed.

Lemma insert_item_reuses rid item c r c' :
  positive_ids c ->
  (accepted item = true -> description_known (product (pending c)) item) ->
  insert_item fails rid item c = (r, c') ->
  product (pending c') = product (pending c).
Proof.
  intros P K.
  destruct (truthy_str (Raw.Description item)) as [d|] eqn:Hd.
  2:{ unfold insert_item. rewrite Hd. now intros H; injection H as <- <-. }
  destruct (parse_quantity_ret (Py.get (Raw.Quantity item))) as [q Hq].
  destruct (parse_price_ret (Py.get (Raw.Price item))) as [u Hu].
  destruct (parse_price_ret (Py.get (Raw.TotalPrice item))) as [tp Ht].
  rewrite (insert_item_values fails rid item c d q u tp Hd Hq Hu Ht).
  destruct (item_values q u tp) as [[[q' u'] t]|] eqn:V.
  2:{ now intros H; injection H as <- <-. }
  destruct K as (d' & id & Hd' & L).
  { unfold accepted. now rewrite Hd, Hq, Hu, Ht, V. }
  rewrite Hd in Hd'. injection Hd' as <-.
  unfold put_item, bindM.
  destruct (product_again fails d None c id (truthy_str_nonempty _ _ Hd) L
              (works _ _)) as (c1 & E1 & P1 & _).
  rewrite E1.
  destruct (truthy_id (Some id)) as [pid|]; [|intros H; injection H as <- <-;
                                              now rewrite P1].
  destruct (execute fails (InsertReceiptItem rid pid q' u' t) c1)
    as [r2 c2] eqn:E2.
  destruct (item_insert_cases fails _ _ _ _ _ _ _ _ E2) as (_ & _ & J & _).
  destruct r2; intros H; injection H as <- <-; now rewrite J, P1.
Qed.

Lemma for_each_reuses rid items c r c' :
  positive_ids c -> items_known (product (pending c)) items ->
  for_each items (insert_item fails rid) c = (r, c') ->
  product (pending c') = product (pending c).
Proof.
  revert c. induction items as [|item items IH]; intros c P K.
  - now intros H; injection H as <- <-.
  - rewrite for_each_cons. inversion K as [|? ? K1 K2]; subst.
    destruct (insert_item fails rid item c) as [r1 c1] eqn:E.
    pose proof (insert_item_rows fails _ _ _ _ _ E) as (A & _).
    pose proof (insert_item_reuses _ _ _ _ _ P K1 E) as Q.
    destruct r1 as [[]|e].
    + intros H. rewrite <- Q. apply (IH c1); [now apply A | | exact H].
      now rewrite Q.
    + now intros H; injection H as <- <-.
Qed.

(** With a working store [write_receipt] commits, and the products it
    leaves hold the description of every accepted item; it adds no product
    when they were all stored already. *)
Lemma write_receipt_working mid d sub tx tot items c r c' :
  positive_ids c -> failed c = false ->
  write_receipt fails mid d sub tx tot items c = (r, c') ->
  r = Ret true /\ committed c' = pending c' /\ positive_ids c'
  /\ failed c' = false
  /\ merchant (pending c') = merchant (pending c)
  /\ receipt (pending c')
     = (receipt (pending c) ++ [header c mid d sub tx tot])%list
  /\ items_known (product (pending c')) items
  /\ (items_known (product (pending c)) items ->
      product (pending c') = product (pending c)).
Proof.
  intros P Fl. rewrite write_receipt_loop. unfold bindM at 1, execute.
  rewrite works. cbn [run first_column]. unfold bindM at 1, ret at 1.
  set (c1 := {| committed := _ |}).
  assert (positive_ids c1) as P1 by exact P.
  unfold bindM at 1.
  destruct (for_each items (insert_item fails (receipt_seq (issue c))) c1)
    as [r2 c2] eqn:E.
  destruct (for_each_exact fails works _ _ _ _ _ P1 E) as (-> & _).
  destruct (for_each_rows fails _ _ _ _ _ E) as (A & K1 & K2 & _).
  pose proof (for_each_learns _ _ _ _ _ P1 E) as Kn.
  destruct (proj2 (for_each_flag fails _ _ _ _ _ E) works) as [F2 _].
  unfold bindM, commit. rewrite works.
  cbn [run issue failed snd]. rewrite F2. cbn [c1 failed issue]. rewrite Fl.
  intros H; injection H as <- <-. simpl.
  split; [reflexivity|]. split; [reflexivity|].
  split; [exact (proj2 (proj2 (proj2 A)) P1)|]. split; [reflexivity|].
  split; [exact K1|]. split; [exact K2|]. split; [exact Kn|].
  intros Known. exact (for_each_reuses _ _ _ _ _ P1 Known E).
Qed.

End Again.

(** X14: receipts are not deduplicated, but their merchant and products
    are.  With a store that never fails, positive ids and a transaction
    that is not in the failed state, ingesting an accepted receipt a second
    time is accepted again and adds one more header with the same merchant
    id, date and amounts, while the merchant and product tables stay exactly
    as the first ingestion left them. *)
Theorem second_ingestion_reuses
  (fails : nat -> statement -> bool) (rd : Raw.receipt)
  (c c1 : connection) (r2 : exc bool) (c2 : connection) :
  no_failure fails -> positive_ids c -> failed c = false ->
  insert_receipt fails rd c = (Ret true, c1) ->
  insert_receipt fails rd c1 = (r2, c2) ->
  r2 = Ret true
  /\ merchant (committed c2) = merchant (committed c1)
  /\ product (committed c2) = product (committed c1)
  /\ exists h1 h2,
      receipt (committed c1) = (receipt (pending c) ++ [h1])%list
      /\ receipt (committed c2) = (receipt (committed c1) ++ [h2])%list
      /\ receipt_merchant_id h2 = receipt_merchant_id h1
      /\ transaction_date h2 = transaction_date h1
      /\ subtotal h2 = subtotal h1 /\ tax h2 = tax h1
      /\ total h2 = total h1.
Proof.
  intros W P Fl E1 E2.
  assert (exists name d sub tx tot,
             truthy_str (Raw.merchant rd) = Some name
             /\ parse_date (Py.get (Raw.date rd)) = Ret (Some d)
             /\ parse_price (Py.get (Raw.subtotal rd)) = Ret sub
             /\ parse_price (Py.get (Raw.tax rd)) = Ret tx
             /\ parse_price (Py.get (Raw.total rd)) = Ret (Some tot)
             /\ is_zero tot = false)
    as (name & d & sub & tx & tot & Hm & Hd & Hs & Ht & Htot & Hz).
  { destruct (valid rd) eqn:V.
    - unfold valid in V.
      destruct (truthy_str (Raw.merchant rd)) as [name|]; [|discriminate].
      destruct (parse_date_ret (Py.get (Raw.date rd))) as [dr Hd].
      destruct (parse_price_ret (Py.get (Raw.subtotal rd))) as [sub Hs].
      destruct (parse_price_ret (Py.get (Raw.tax rd))) as [tx Ht].
      destruct (parse_price_ret (Py.get (Raw.total rd))) as [tr Htot].
      rewrite Hd, Htot in V. destruct dr as [d|]; [|discriminate].
      destruct (truthy_float tr) as [tot|] eqn:Hz; [|discriminate].
      apply truthy_float_some in Hz. destruct Hz as [-> Hz].
      exists name, d, sub, tx, tot. auto 10.
    - rewrite (insert_receipt_refused fails rd c V) in E1. discriminate. }
  pose proof (truthy_str_nonempty _ _ Hm) as Hn.
  (* the first ingestion *)
  destruct (working_merchant fails W name c P Hn)
    as (mid & ca & Ea & Hmid & Pa & _ & La & _ & Ra & _).
  assert (failed ca = false) as Fa.
  { destruct (merchant_flag fails _ _ _ _ _ _ Ea) as (_ & _ & K).
    rewrite (K mid eq_refl). exact Fl. }
  destruct (insert_receipt_passed fails rd c name d sub tx tot mid ca)
    as [Htry _]; auto.
  unfold insert_receipt in E1. rewrite Htry in E1.
  destruct (write_receipt fails mid d sub tx tot (Raw.items rd) ca)
    as [ra cb] eqn:Wa.
  destruct (write_receipt_working fails W _ _ _ _ _ _ _ _ _ Pa Fa Wa)
    as (-> & C1 & P1 & Fb & M1 & R1 & Kn & _).
  injection E1 as <-.
  (* the second ingestion *)
  destruct (working_merchant fails W name cb P1 Hn)
    as (mid' & cc & Ec & Hmid' & Pc & _ & Lc & Prc & Rc & Same).
  destruct (Same mid) as [-> Pcc]; [now rewrite M1|].
  assert (failed cc = false) as Fc.
  { destruct (merchant_flag fails _ _ _ _ _ _ Ec) as (_ & _ & K).
    rewrite (K mid eq_refl). exact Fb. }
  destruct (insert_receipt_passed fails rd cb name d sub tx tot mid cc)
    as [Htry2 _]; auto.
  unfold insert_receipt in E2. rewrite Htry2 in E2.
  destruct (write_receipt fails mid d sub tx tot (Raw.items rd) cc)
    as [rc cd] eqn:Wc.
  destruct (write_receipt_working fails W _ _ _ _ _ _ _ _ _ Pc Fc Wc)
    as (-> & C2 & P2 & _ & M2 & R2 & _ & Reuse).
  injection E2 as <- <-.
  split; [reflexivity|]. rewrite C1, C2.
  split; [now rewrite M2, Pcc|].
  split; [rewrite Reuse, Pcc; [reflexivity | now rewrite Pcc]|].
  exists (header ca mid d sub tx tot), (header cc mid d sub tx tot).
  split; [now rewrite R1, Ra|]. split; [now rewrite R2, Pcc|].
  repeat split.
Qed.

Lemma second_ingestion_reuses_witness :
  no_failure never /\ positive_ids fresh
  /\ exists c1 c2,
      insert_receipt never (trader_joes [milk; bananas]) fresh
      = (Ret true, c1)
      /\ insert_receipt never (trader_joes [milk; bananas]) c1
         = (Ret true, c2)
      /\ product (committed c2) = product (committed c1)
      /\ merchant (committed c2) = merchant (committed c1).
Proof.
  assert (no_failure never) as W by (intros t q; reflexivity).
  assert (positive_ids fresh) as P
      by (repeat split; simpl; try constructor; lia).
  split; [exact W|]. split; [exact P|].
  exists (snd (insert_receipt never (trader_joes [milk; bananas]) fresh)).
  exists (snd (insert_receipt never (trader_joes [milk; bananas])
                 (snd (insert_receipt never (trader_joes [milk; bananas])
                         fresh)))).
  destruct (second_ingestion_reuses never (trader_joes [milk; bananas]) fresh
              (snd (insert_receipt never (trader_joes [milk; bananas])
                      fresh))
              (fst (insert_receipt never (trader_joes [milk; bananas])
                      (snd (insert_receipt never
                              (trader_joes [milk; bananas]) fresh))))
              (snd (insert_receipt never (trader_joes [milk; bananas])
                      (snd (insert_receipt never
                              (trader_joes [milk; bananas]) fresh))))
              W P eq_refl)
    as (R & M & Pr & _);
    [vm_compute; reflexivity | apply surjective_pairing |].
  split; [vm_compute; reflexivity|].
  split; [rewrite <- R; apply surjective_pairing|].
  split; [exact Pr | exact M].
Defined.

(** ** The extraction *)

Lemma named_content_other field_name name field r :
  Azure.named_content field_name name field = Ret r ->
  field_name <> name -> r = None.
Proof.
  unfold Azure.named_content. intros H N.
  destruct (String.eqb_spec field_name name) as [E|_]; [contradiction|].
  now inversion H.
Qed.

Lemma named_content_unrecognised name field r :
  Azure.named_content name name field = Ret r ->
  match field with
  | Azure.DocumentField c _ _ => truthy_str c = None
  | Azure.Other _ => False
  end ->
  r = None.
Proof.
  unfold Azure.named_content. rewrite String.eqb_refl.
  destruct field as [c a o|repr]; [|contradiction].
  cbn. intros H U. rewrite U in H. now inversion H.
Qed.

(** One turn of the loop changes a header entry only for a field of that
    entry's name that has a content. *)
Lemma read_field_keeps field_name field rd rd' :
  Azure.read_field field_name field rd = Ret rd' ->
  let unread name :=
    field_name = name ->
    match field with
    | Azure.DocumentField c _ _ => truthy_str c = None
    | Azure.Other _ => False
    end in
  (unread "MerchantName" -> Raw.merchant rd' = Raw.merchant rd) /\
  (unread "TransactionDate" -> Raw.date rd' = Raw.date rd) /\
  (unread "Total" -> Raw.total rd' = Raw.total rd).
Proof.
  intros H unread. unfold Azure.read_field in H.
  destruct (Azure.named_content field_name "MerchantName" field)
    as [[m|]|e] eqn:Em; cbn in H; [| |discriminate].
  { inversion H; subst rd'; cbn. repeat split; try reflexivity.
    intros U. destruct (String.eqb_spec field_name "MerchantName") as [E|N].
    - subst. discriminate (named_content_unrecognised _ _ _ Em (U eq_refl)).
    - discriminate (named_content_other _ _ _ _ Em N). }
  destruct (Azure.named_content field_name "TransactionDate" field)
    as [[d|]|e] eqn:Ed; cbn in H; [| |discriminate].
  { inversion H; subst rd'; cbn. repeat split; try reflexivity.
    intros U. destruct (String.eqb_spec field_name "TransactionDate") as [E|N].
    - subst. discriminate (named_content_unrecognised _ _ _ Ed (U eq_refl)).
    - discriminate (named_content_other _ _ _ _ Ed N). }
  destruct (Azure.named_content field_name "Subtotal" field)
    as [[x|]|e] eqn:Es; cbn in H; [| |discriminate].
  { inversion H; subst rd'; cbn. repeat split; reflexivity. }
  destruct (Azure.named_content field_name "TotalTax" field)
    as [[x|]|e] eqn:Ex; cbn in H; [| |discriminate].
  { inversion H; subst rd'; cbn. repeat split; reflexivity. }
  destruct (Azure.named_content field_name "Total" field)
    as [[t|]|e] eqn:Et; cbn in H; [| |discriminate].
  { inversion H; subst rd'; cbn. repeat split; try reflexivity.
    intros U. destruct (String.eqb_spec field_name "Total") as [E|N].
    - subst. discriminate (named_content_unrecognised _ _ _ Et (U eq_refl)).
    - discriminate (named_content_other _ _ _ _ Et N). }
  destruct (String.eqb field_name "Items").
  - destruct (Azure.value_array field) as [[[|item items]|]|e];
      cbn in H; try discriminate;
      inversion H; subst rd'; cbn; repeat split; reflexivity.
  - inversion H; subst rd'. repeat split; reflexivity.
Qed.

Lemma read_fields_keeps fields : forall rd rd',
  Azure.read_fields fields rd = Ret rd' ->
  let unread name :=
    Forall (fun named =>
              fst named = name ->
              match snd named with
              | Azure.DocumentField c _ _ => truthy_str c = None
              | Azure.Other _ => False
              end) fields in
  (unread "MerchantName" -> Raw.merchant rd' = Raw.merchant rd) /\
  (unread "TransactionDate" -> Raw.date rd' = Raw.date rd) /\
  (unread "Total" -> Raw.total rd' = Raw.total rd).
Proof.
  induction fields as [|[field_name field] rest IH]; intros rd rd' H; cbn in H.
  - inversion H. repeat split; reflexivity.
  - destruct (Azure.read_field field_name field rd) as [rd1|e] eqn:E;
      cbn in H; [|discriminate].
    destruct (read_field_keeps _ _ _ _ E) as (M1 & D1 & T1).
    destruct (IH _ _ H) as (M2 & D2 & T2).
    cbn. split; [|split]; intros U; inversion U; subst.
    + rewrite (M2 H3). apply M1. exact H2.
    + rewrite (D2 H3). apply D1. exact H2.
    + rewrite (T2 H3). apply T1. exact H2.
Qed.

Lemma valid_needs_all rd :
  Raw.merchant rd = None \/ Raw.date rd = None \/ Raw.total rd = None ->
  valid rd = false.
Proof.
  unfold valid. intros [H|[H|H]]; rewrite H.
  - reflexivity.
  - destruct (truthy_str (Raw.merchant rd)); reflexivity.
  - destruct (truthy_str (Raw.merchant rd)); [|reflexivity].
    destruct (parse_date (Py.get (Raw.date rd))) as [[d|]|e]; reflexivity.
Qed.

(** X15: A scan on which the service recognised no merchant name, no
    transaction date or no total is never stored: when the first document
    of the result has no field of one of these three names with a content,
    the receipt that [process_receipt] extracts is refused by
    [insert_receipt], which returns [False] and leaves the connection as it
    was, whatever else the result holds. *)
Theorem unrecognised_scan_is_not_stored
  fails analyze image_path r rd name c :
  analyze image_path = Ret r ->
  Azure.process_receipt analyze image_path = Ret rd ->
  name = "MerchantName" \/ name = "TransactionDate" \/ name = "Total" ->
  Azure.unrecognised name r ->
  insert_receipt fails rd c = (Ret false, c).
Proof.
  intros A P N U. unfold Azure.process_receipt in P. rewrite A in P.
  cbn in P. apply insert_receipt_refused, valid_needs_all.
  destruct r as [|fields others]; cbn in P.
  - inversion P. left. reflexivity.
  - destruct (read_fields_keeps _ _ _ P) as (M & D & T). cbn in U.
    destruct N as [N|[N|N]]; subst name.
    + left. now rewrite (M U).
    + right; left. now rewrite (D U).
    + right; right. now rewrite (T U).
Qed.

Lemma unrecognised_scan_is_not_stored_witness :
  insert_receipt never
    {| Raw.merchant := Some "Trader Joe's"; Raw.date := Some "01-02-2024";
       Raw.items := [ {| Raw.Description := Some "Milk";
                         Raw.Quantity := None; Raw.Price := None;
                         Raw.TotalPrice := Some "3.50" |} ];
       Raw.subtotal := None; Raw.tax := None; Raw.total := None |}
    fresh
  = (Ret false, fresh).
Proof.
  apply (unrecognised_scan_is_not_stored never
           (fun _ => Ret no_total_recognised) "receipt.jpg"
           no_total_recognised _ "Total").
  - reflexivity.
  - reflexivity.
  - right; right; reflexivity.
  - cbn. repeat constructor; cbn; intros E; try discriminate E; reflexivity.
Defined.

Lemma batch_loop_app process image_paths : forall results,
  Azure.batch_loop process image_paths results
  = (results ++ Azure.batch_loop process image_paths [])%list.
Proof.
  induction image_paths as [|path rest IH]; intros results; cbn.
  - now rewrite app_nil_r.
  - destruct (process path) as [r|e]; rewrite IH;
      rewrite (IH [_]); now rewrite <- app_assoc.
Qed.

Lemma batch_loop_cons process path rest :
  Azure.batch_loop process (path :: rest) []
  = match process path with
    | Ret receipt_data => Azure.Extracted path receipt_data
    | Raise e => Azure.Failed path e
    end :: Azure.batch_loop process rest [].
Proof.
  cbn [Azure.batch_loop]. rewrite batch_loop_app.
  destruct (process path); reflexivity.
Qed.

Lemma batch_loop_files process image_paths :
  map Azure.file (Azure.batch_loop process image_paths []) = image_paths.
Proof.
  induction image_paths as [|path rest IH]; [reflexivity|].
  rewrite batch_loop_cons. cbn [map]. rewrite IH.
  destruct (process path); reflexivity.
Qed.

(** X16: [process_receipts_batch] answers for every path, in the order of
    the paths: the list it returns names the files it was given, one entry
    for each, and the entry at a position is the receipt extracted from
    the path at that position, or the error that its extraction raised;
    an extraction that fails does not stop the ones after it. *)
Theorem batch_answers_every_path analyze image_paths i path :
  nth_error image_paths i = Some path ->
  map Azure.file (Azure.process_receipts_batch analyze image_paths)
  = image_paths
  /\ nth_error (Azure.process_receipts_batch analyze image_paths) i
     = Some match Azure.process_receipt analyze path with
            | Ret receipt_data => Azure.Extracted path receipt_data
            | Raise e => Azure.Failed path e
            end.
Proof.
  unfold Azure.process_receipts_batch. intros H.
  split; [apply batch_loop_files|].
  revert i H. induction image_paths as [|p rest IH]; intros i H.
  - destruct i; discriminate.
  - rewrite batch_loop_cons. destruct i as [|i]; cbn in H.
    + inversion H; subst p. reflexivity.
    + cbn [nth_error]. apply IH. exact H.
Qed.

Lemma batch_answers_every_path_witness :
  map Azure.file
      (Azure.process_receipts_batch first_scan_only ["a.jpg"; "b.jpg"])
  = ["a.jpg"; "b.jpg"]
  /\ nth_error
       (Azure.process_receipts_batch first_scan_only ["a.jpg"; "b.jpg"]) 1
     = Some (Azure.Failed "b.jpg" ValueError).
Proof.
  exact (batch_answers_every_path first_scan_only ["a.jpg"; "b.jpg"] 1
           "b.jpg" eq_refl).
Defined.
